(** * Validation and session core of the banking demo

    A shallow embedding of the server routers ([authRouter], [accountRouter])
    and of the card checks duplicated in the funding form, together with the
    properties the specification states about them.

    Conventions.
    - A JavaScript string is the list of its UTF-16 code units ([jsstring]).
    - A JavaScript [number] holding money is a binary64 float ([float]);
      identifiers, timestamps and digit sums are integers ([Z]).
    - A table of the relational store is the list of its rows in insertion
      (rowid) order; a handler is a function from the store to an outcome and
      the store it leaves behind.  A thrown [TRPCError] keeps the writes made
      before the throw, as the handlers run outside any SQL transaction. *)

From Stdlib Require Import ZArith NArith String Ascii Bool Lia Floats List
  Permutation.
Import ListNotations.
Import Corelib.Init.Datatypes.

Set Warnings "-inexact-float".

Local Open Scope Z_scope.

(** ** JavaScript strings *)

Definition jsstring := list N.

(** The code units of an ASCII literal. *)
Definition js (s : string) : jsstring :=
  map N_of_ascii (list_ascii_of_string s).

Definition cu (a : ascii) : N := N_of_ascii a.

Definition jsstring_eqb (a b : jsstring) : bool :=
  if list_eq_dec N.eq_dec a b then true else false.

(** [s.startsWith(p)] *)
Fixpoint startsWith (p s : jsstring) : bool :=
  match p, s with
  | [], _ => true
  | a :: p', b :: s' => N.eqb a b && startsWith p' s'
  | _ :: _, [] => false
  end.

(** [s.includes(p)] *)
Fixpoint includes (p s : jsstring) : bool :=
  startsWith p s ||
  match s with
  | [] => false
  | _ :: s' => includes p s'
  end.

(** ASCII case mapping: on a string of ASCII code units
    [String.prototype.toLowerCase] and [toUpperCase] map the letters and
    leave the rest. *)
Definition lower_cu (c : N) : N :=
  if ((65 <=? c) && (c <=? 90))%N then (c + 32)%N else c.

Definition upper_cu (c : N) : N :=
  if ((97 <=? c) && (c <=? 122))%N then (c - 32)%N else c.

Definition ascii_only (s : jsstring) : bool := forallb (fun c => c <? 128)%N s.

(** [s.toLowerCase()] on the strings the routers lowercase: the email
    addresses their email check has let through, which hold ASCII code
    units only. *)
Definition toLowerCase (s : jsstring) : jsstring := map lower_cu s.

(** [s.toUpperCase()].  Outside ASCII the Unicode case mapping of the
    engine, [unicode_toUpperCase], decides: it changes code units above 127
    too and can lengthen the string. *)
Definition toUpperCase (unicode_toUpperCase : jsstring -> jsstring) (s : jsstring)
  : jsstring :=
  if ascii_only s then map upper_cu s else unicode_toUpperCase s.

(** ** Regular expressions

    The patterns of the source use literals, classes, grouping, alternation
    and bounded repetition only, so [RegExp.prototype.test] on an anchored
    pattern decides membership in a regular language.  The matcher works by
    derivatives. *)

Inductive regex : Type :=
| Void
| Eps
| Cls (p : N -> bool)
| Cat (r s : regex)
| Alt (r s : regex)
| Star (r : regex).

Fixpoint nullable (r : regex) : bool :=
  match r with
  | Void => false
  | Eps => true
  | Cls _ => false
  | Cat r s => nullable r && nullable s
  | Alt r s => nullable r || nullable s
  | Star _ => true
  end.

Fixpoint deriv (c : N) (r : regex) : regex :=
  match r with
  | Void => Void
  | Eps => Void
  | Cls p => if p c then Eps else Void
  | Cat r s =>
      if nullable r then Alt (Cat (deriv c r) s) (deriv c s)
      else Cat (deriv c r) s
  | Alt r s => Alt (deriv c r) (deriv c s)
  | Star r => Cat (deriv c r) (Star r)
  end.

(** [/^r$/.test(s)] *)
Fixpoint test (r : regex) (s : jsstring) : bool :=
  match s with
  | [] => nullable r
  | c :: s' => test (deriv c r) s'
  end.

(** Character classes. *)
Definition chr (a : ascii) : N -> bool := N.eqb (cu a).
Definition range (a b : ascii) : N -> bool :=
  fun c => ((cu a <=? c) && (c <=? cu b))%N.
Definition union (p q : N -> bool) : N -> bool := fun c => p c || q c.
Definition compl (p : N -> bool) : N -> bool := fun c => negb (p c).
Definition any : N -> bool := fun _ => true.

(** [\d] *)
Definition digit : N -> bool := range "0" "9".

(** [\s]: the white space and line terminator code units of ECMAScript. *)
Definition space (c : N) : bool :=
  (((9 <=? c) && (c <=? 13)) || (c =? 32) || (c =? 160) || (c =? 5760)
   || ((8192 <=? c) && (c <=? 8202)) || (c =? 8232) || (c =? 8233)
   || (c =? 8239) || (c =? 8287) || (c =? 12288) || (c =? 65279))%N.

(** Derived forms: [r?], [r{n}], [r{0,k}], [r{n,m}] and [r+]. *)
Definition Opt (r : regex) : regex := Alt r Eps.

Fixpoint times (n : nat) (r : regex) : regex :=
  match n with
  | O => Eps
  | S k => Cat r (times k r)
  end.

Fixpoint upto (k : nat) (r : regex) : regex :=
  match k with
  | O => Eps
  | S j => Opt (Cat r (upto j r))
  end.

Definition between (n m : nat) (r : regex) : regex :=
  Cat (times n r) (upto (m - n) r).

Definition Plus (r : regex) : regex := Cat r (Star r).

(** A sequence and an alternation of sub-patterns, to write a pattern in the
    order of its source text. *)
Fixpoint seq (l : list regex) : regex :=
  match l with
  | [] => Eps
  | [r] => r
  | r :: l' => Cat r (seq l')
  end.

Fixpoint alts (l : list regex) : regex :=
  match l with
  | [] => Void
  | [r] => r
  | r :: l' => Alt r (alts l')
  end.

Definition ch (a : ascii) : regex := Cls (chr a).
Definition rg (a b : ascii) : regex := Cls (range a b).
Definition dg : regex := Cls digit.

(** [/r/.test(s)] for a pattern without anchors. *)
Definition search (r : regex) (s : jsstring) : bool :=
  test (Cat (Star (Cls any)) (Cat r (Star (Cls any)))) s.

(** [s.replace(/\s+/g, '')] *)
Definition strip_spaces (s : jsstring) : jsstring :=
  filter (fun c => negb (space c)) s.

(** The language of a pattern, against which the matcher is checked. *)
Inductive lang : regex -> jsstring -> Prop :=
| lang_eps : lang Eps []
| lang_cls p c : p c = true -> lang (Cls p) [c]
| lang_cat r s u v : lang r u -> lang s v -> lang (Cat r s) (u ++ v)
| lang_alt_l r s u : lang r u -> lang (Alt r s) u
| lang_alt_r r s u : lang s u -> lang (Alt r s) u
| lang_star_nil r : lang (Star r) []
| lang_star_app r u v : lang r u -> lang (Star r) v -> lang (Star r) (u ++ v).

#[local] Hint Constructors lang : core.

(** ** Card validator (server copy, account router) *)

Local Open Scope char_scope.

(** [parseInt(digits[i], 10)] on a code unit the guard [/^\d{13,19}$/] has
    let through: the value of the decimal digit. *)
Definition parseInt10 (c : N) : Z := Z.of_N c - 48.

(** The body of the [for] loop: the contribution of one digit. *)
Definition luhn_digit (shouldDouble : bool) (digit : Z) : Z :=
  if shouldDouble then
    let digit := digit * 2 in
    if digit >? 9 then digit - 9 else digit
  else digit.

(** The loop [for (let i = digits.length - 1; i >= 0; i--)]: the argument
    [S i] stands for the loop variable at [i], [O] for the exit. *)
Fixpoint luhn_loop (digits : jsstring) (n : nat) (sum : Z) (shouldDouble : bool) : Z :=
  match n with
  | O => sum
  | S i =>
      let digit := luhn_digit shouldDouble (parseInt10 (nth i digits 0%N)) in
      luhn_loop digits i (sum + digit) (negb shouldDouble)
  end.

Definition passesLuhn (cardNumber : jsstring) : bool :=
  let digits := strip_spaces cardNumber in
  if negb (test (between 13 19 dg) digits) then false
  else (luhn_loop digits (length digits) 0 false mod 10 =? 0)%Z.

Inductive CardType := visa | mastercard | amex | discover | jcb.

(** [/^4\d{12}(\d{3})?(\d{3})?$/] *)
Definition re_visa : regex :=
  seq [ch "4"; times 12 dg; Opt (times 3 dg); Opt (times 3 dg)].

(** [/^5[1-5]\d{14}$/] *)
Definition re_mastercard_old : regex :=
  seq [ch "5"; rg "1" "5"; times 14 dg].

(** [/^2(2[2-9]\d{2}|[3-6]\d{3}|7[01]\d{2}|720\d{2})\d{10}$/] *)
Definition re_mastercard_new : regex :=
  seq [ch "2";
       alts [seq [ch "2"; rg "2" "9"; times 2 dg];
             seq [rg "3" "6"; times 3 dg];
             seq [ch "7"; rg "0" "1"; times 2 dg];
             seq [ch "7"; ch "2"; ch "0"; times 2 dg]];
       times 10 dg].

(** [/^3[47]\d{13}$/] *)
Definition re_amex : regex :=
  seq [ch "3"; Cls (union (chr "4") (chr "7")); times 13 dg].

(** [/^6(?:011|5\d{2}|4[4-9]\d)\d{12}$/] *)
Definition re_discover : regex :=
  seq [ch "6";
       alts [seq [ch "0"; ch "1"; ch "1"];
             seq [ch "5"; times 2 dg];
             seq [ch "4"; rg "4" "9"; dg]];
       times 12 dg].

(** [/^35(2[89]|[3-8]\d)\d{12}$/] *)
Definition re_jcb : regex :=
  seq [ch "3"; ch "5";
       alts [seq [ch "2"; rg "8" "9"];
             seq [rg "3" "8"; dg]];
       times 12 dg].

Definition detectCardType (cardNumber : jsstring) : option CardType :=
  let digits := strip_spaces cardNumber in
  if test re_visa digits then Some visa
  else if test re_mastercard_old digits || test re_mastercard_new digits
  then Some mastercard
  else if test re_amex digits then Some amex
  else if test re_discover digits then Some discover
  else if test re_jcb digits then Some jcb
  else None.

(** ** Card validator (client copy, funding form) *)

Module FundingModal.

Definition luhn_digit (shouldDouble : bool) (digit : Z) : Z :=
  if shouldDouble then
    let digit := digit * 2 in
    if digit >? 9 then digit - 9 else digit
  else digit.

Fixpoint luhn_loop (digits : jsstring) (n : nat) (sum : Z) (shouldDouble : bool) : Z :=
  match n with
  | O => sum
  | S i =>
      let digit := luhn_digit shouldDouble (parseInt10 (nth i digits 0%N)) in
      luhn_loop digits i (sum + digit) (negb shouldDouble)
  end.

Definition passesLuhn (cardNumber : jsstring) : bool :=
  let digits := strip_spaces cardNumber in
  if negb (test (between 13 19 dg) digits) then false
  else (luhn_loop digits (length digits) 0 false mod 10 =? 0)%Z.

(** [/^4\d{12}(\d{3})?(\d{3})?$/] *)
Definition re_visa : regex :=
  seq [ch "4"; times 12 dg; Opt (times 3 dg); Opt (times 3 dg)].

(** [/^5[1-5]\d{14}$/] *)
Definition re_mastercard_old : regex :=
  seq [ch "5"; rg "1" "5"; times 14 dg].

(** [/^2(2[2-9]\d{2}|[3-6]\d{3}|7[01]\d{2}|720\d{2})\d{10}$/] *)
Definition re_mastercard_new : regex :=
  seq [ch "2";
       alts [seq [ch "2"; rg "2" "9"; times 2 dg];
             seq [rg "3" "6"; times 3 dg];
             seq [ch "7"; rg "0" "1"; times 2 dg];
             seq [ch "7"; ch "2"; ch "0"; times 2 dg]];
       times 10 dg].

(** [/^3[47]\d{13}$/] *)
Definition re_amex : regex :=
  seq [ch "3"; Cls (union (chr "4") (chr "7")); times 13 dg].

(** [/^6(?:011|5\d{2}|4[4-9]\d)\d{12}$/] *)
Definition re_discover : regex :=
  seq [ch "6";
       alts [seq [ch "0"; ch "1"; ch "1"];
             seq [ch "5"; times 2 dg];
             seq [ch "4"; rg "4" "9"; dg]];
       times 12 dg].

(** [/^35(2[89]|[3-8]\d)\d{12}$/] *)
Definition re_jcb : regex :=
  seq [ch "3"; ch "5";
       alts [seq [ch "2"; rg "8" "9"];
             seq [rg "3" "8"; dg]];
       times 12 dg].

Definition detectCardType (cardNumber : jsstring) : option CardType :=
  let digits := strip_spaces cardNumber in
  if test re_visa digits then Some visa
  else if test re_mastercard_old digits || test re_mastercard_new digits
  then Some mastercard
  else if test re_amex digits then Some amex
  else if test re_discover digits then Some discover
  else if test re_jcb digits then Some jcb
  else None.

(** The [validCard] rule of the card number field: [inl tt] for [true],
    [inr m] for the message [m].  The form's [fundingType] is ["card"]. *)
Definition validCard (value : jsstring) : unit + string :=
  if negb (passesLuhn value) then inr "Card number failed validation"%string
  else
    match detectCardType value with
    | None => inr "Unsupported or unknown card type"%string
    | Some _ => inl tt
    end.

End FundingModal.

Local Close Scope char_scope.

Local Open Scope string_scope.
Local Open Scope Z_scope.
Local Open Scope list_scope.

(** [sep]-separated pieces of [s], as [s.split(sep)] for a non-empty [sep].
    [skip] counts the code units of a separator still to be dropped and [cur]
    holds the piece read so far, in reverse. *)
Fixpoint split_from (sep s cur : jsstring) (skip : nat) : list jsstring :=
  match s with
  | [] => [rev cur]
  | c :: s' =>
      match skip with
      | S k => split_from sep s' cur k
      | O =>
          if startsWith sep s
          then rev cur :: split_from sep s' [] (length sep - 1)
          else split_from sep s' (c :: cur) 0
      end
  end.

Definition split (sep s : jsstring) : list jsstring := split_from sep s [] 0.

(** ** The relational store *)

(** Modelled from the spec: the tables of the schema module [lib/db/schema],
    which is not part of the sources at hand.  The columns are those the
    routers read and write and section 3 of the specification lists; [id] is
    the automatically assigned integer key, and [createdAt], which
    [fundAccount] sorts by but never writes, is stamped by the store with the
    clock of the insertion, in seconds. *)
Module User.
Record t := mk {
  id : Z;
  email : jsstring;
  password : jsstring;
  firstName : jsstring;
  lastName : jsstring;
  phoneNumber : jsstring;
  dateOfBirth : jsstring;
  ssn : jsstring;
  address : jsstring;
  city : jsstring;
  state : jsstring;
  zipCode : jsstring
}.
End User.

Module Session.
Record t := mk {
  userId : Z;
  token : jsstring;
  expiresAt : Z
}.
End Session.

Inductive AccountType := checking | savings.

Module Account.
Record t := mk {
  id : Z;
  userId : Z;
  accountNumber : jsstring;
  accountType : AccountType;
  balance : float;
  status : jsstring
}.
End Account.

Module Transaction.
Record t := mk {
  id : Z;
  accountId : Z;
  type : jsstring;
  amount : float;
  description : jsstring;
  status : jsstring;
  createdAt : Z;
  processedAt : Z
}.
End Transaction.

Record Db := mkDb {
  users : list User.t;
  sessions : list Session.t;
  accounts : list Account.t;
  transactions : list Transaction.t
}.

Definition empty_db : Db := mkDb [] [] [] [].

Definition set_users (f : list User.t -> list User.t) (db : Db) : Db :=
  mkDb (f (users db)) (sessions db) (accounts db) (transactions db).
Definition set_sessions (f : list Session.t -> list Session.t) (db : Db) : Db :=
  mkDb (users db) (f (sessions db)) (accounts db) (transactions db).
Definition set_accounts (f : list Account.t -> list Account.t) (db : Db) : Db :=
  mkDb (users db) (sessions db) (f (accounts db)) (transactions db).
Definition set_transactions (f : list Transaction.t -> list Transaction.t) (db : Db) : Db :=
  mkDb (users db) (sessions db) (accounts db) (f (transactions db)).

(** The key given to an inserted row: one more than the largest in use. *)
Definition next_id {A} (key : A -> Z) (rows : list A) : Z :=
  fold_right (fun r m => Z.max (key r) m) 0 rows + 1.

(** [select().from(t).where(p).get()]: the first matching row. *)
Definition select_get {A} (p : A -> bool) (rows : list A) : option A :=
  find p rows.

(** [select().from(t).orderBy(key).limit(1).get()]: a row of least [key];
    among equal keys the store yields the one inserted first. *)
Fixpoint order_by_first {A} (key : A -> Z) (rows : list A) : option A :=
  match rows with
  | [] => None
  | r :: rows' =>
      match order_by_first key rows' with
      | Some r' => if key r' <? key r then Some r' else Some r
      | None => Some r
      end
  end.

(** [delete(t).where(p)] *)
Definition delete_where {A} (p : A -> bool) (rows : list A) : list A :=
  filter (fun r => negb (p r)) rows.

(** [update(t).set(f).where(p)] *)
Definition update_where {A} (p : A -> bool) (f : A -> A) (rows : list A) : list A :=
  map (fun r => if p r then f r else r) rows.

(** ** Failures and handlers *)

Inductive TRPCCode :=
| CONFLICT | UNAUTHORIZED | NOT_FOUND | BAD_REQUEST | INTERNAL_SERVER_ERROR.

(** One issue of a failed input validation: the field it is about and the
    message the source attaches to the failed check; [None] stands for the
    validation library's own wording where the source gives no message. *)
Record ZodIssue := mkIssue {
  path : list string;
  message : option string
}.

(** What a procedure throws.  A non-empty list of issues reaches the caller
    as a [BAD_REQUEST] whose text lists every issue, path and message. *)
Inductive Failure :=
| TRPCError (code : TRPCCode) (msg : string)
| ZodError (issues : list ZodIssue).

(** The schemas below gather the issues of an input field by field.  The
    validation library, run asynchronously, reports the type and format
    checks of all the fields before the issues of their refinements, so the
    order of a gathered list is not the order of the report: a thrown
    failure [reports] a list of issues when it carries those issues, each as
    often, in some order. *)
Definition reports (e : Failure) (issues : list ZodIssue) : Prop :=
  exists listed, e = ZodError listed /\ Permutation listed issues.

Definition Handler (A : Type) : Type := Db -> (Failure + A) * Db.

Definition ret {A} (a : A) : Handler A := fun db => (inr a, db).

Definition throw {A} (e : Failure) : Handler A := fun db => (inl e, db).

Definition bind {A B} (m : Handler A) (k : A -> Handler B) : Handler B :=
  fun db =>
    match m db with
    | (inl e, db') => (inl e, db')
    | (inr a, db') => k a db'
    end.

Definition query {A} (f : Db -> A) : Handler A := fun db => (inr (f db), db).

Definition exec (f : Db -> Db) : Handler unit := fun db => (inr tt, f db).

Declare Scope handler_scope.
Delimit Scope handler_scope with handler.

Notation "x <- m ;; k" := (bind m (fun x => k))
  (at level 61, m at next level, right associativity) : handler_scope.
Notation "m ;;; k" := (bind m (fun _ => k))
  (at level 61, right associativity) : handler_scope.

(** The input parser of a procedure: the parsed value, or a failure with
    every issue (as gathered; see [reports] for their order). *)
Definition parse {A} (r : list ZodIssue * A) : Handler A :=
  match r with
  | ([], a) => ret a
  | (issues, _) => throw (ZodError issues)
  end.

(** A single check of a schema: no issue when it holds. *)
Definition check (ok : bool) (p : list string) (m : option string) : list ZodIssue :=
  if ok then [] else [mkIssue p m].

(** ** Request context *)

(** The request object of a call: the server adapter hands over parsed
    cookies ([cookies.session]), the fetch adapter the raw [cookie] header. *)
Inductive Request :=
| ReqCookies (session : option jsstring)
| ReqHeaders (cookie : option jsstring).

Record Context := mkContext {
  user : option User.t;
  req : Request
}.

(** A JavaScript [Date]: its time value in milliseconds, the calendar
    fields of the server's time zone, and the time value [setDate(day)]
    leaves it with: the same local time of day on the day [day] of the
    month, counted on into the next month past its end.  On a server whose
    zone keeps one offset that is [day - getDate] times 86400000 ms after
    the time value; a change of offset in between moves it by the change. *)
Record Date := mkDate {
  getTime : Z;
  getFullYear : Z;
  getMonth : Z;
  getDate : Z;
  setDate : Z -> Z
}.

(** What a call draws from its surroundings: the clock reading [new Date()]
    and the salts the password hashing draws. *)
Record Env := mkEnv {
  now : Date;
  password_salt : jsstring;
  ssn_salt : jsstring
}.

(** The claims minted into a session token by [jwt.sign] with
    [expiresIn: "7d"]: the payload [{ userId }], the issue time [iat] in whole
    seconds and the expiry [exp], seven days later. *)
Record JwtPayload := mkJwt {
  jwt_userId : Z;
  iat : Z;
  exp : Z
}.

(** ** Field validators of the auth router *)

Definition alpha : N -> bool := union (range "A" "Z") (range "a" "z").
Definition alnum : N -> bool := union alpha digit.

(** [.] of a pattern: any code unit but a line terminator. *)
Definition dot (c : N) : bool :=
  negb ((c =? 10) || (c =? 13) || (c =? 8232) || (c =? 8233))%N.

(** The check behind [z.string().email()].  The validation library is not
    part of the sources; its pattern, case-insensitive, opens with the two
    look-aheads [(?!\.)] and [(?!.*\.\.)], tested here apart from the body:
    a local part [[A-Z0-9_'+\-\.]* [A-Z0-9_+-]], the sign [@], one or more
    labels [[A-Z0-9][A-Z0-9\-]* \.] and a top-level name [[A-Z]{2,}]. *)
Definition re_email_body : regex :=
  seq [Star (Cls (union alnum (union (chr "_") (union (chr "'")
                   (union (chr "+") (union (chr "-") (chr ".")))))));
       Cls (union alnum (union (chr "_") (union (chr "+") (chr "-"))));
       ch "@";
       Plus (seq [Cls alnum; Star (Cls (union alnum (chr "-"))); ch "."]);
       times 2 (Cls alpha); Star (Cls alpha)].

Definition is_email (s : jsstring) : bool :=
  negb (startsWith (js ".") s)
  && negb (test (seq [Star (Cls dot); ch "."; ch "."; Star (Cls any)]) s)
  && test re_email_body s.

(** [passwordSchema]: [min(8)] and four refinements, each with its message;
    a failed check does not stop the later ones. *)
Definition passwordSchema (p : list string) (val : jsstring) : list ZodIssue :=
  check (8 <=? length val)%nat p
    (Some "Password must be at least 8 characters long")
  ++ check (search (rg "a" "z") val) p
    (Some "Password must contain at least one lowercase letter")
  ++ check (search (rg "A" "Z") val) p
    (Some "Password must contain at least one uppercase letter")
  ++ check (search dg val) p
    (Some "Password must contain at least one number")
  ++ check (search (Cls (compl alnum)) val) p
    (Some "Password must contain at least one special character").

Module SignupInput.
Record t := mk {
  email : jsstring;
  password : jsstring;
  firstName : jsstring;
  lastName : jsstring;
  phoneNumber : jsstring;
  dateOfBirth : jsstring;
  ssn : jsstring;
  address : jsstring;
  city : jsstring;
  state : jsstring;
  zipCode : jsstring
}.
End SignupInput.

Module LoginInput.
Record t := mk {
  email : jsstring;
  password : jsstring
}.
End LoginInput.

(** [{ ...user, password: undefined }]: the row without its password. *)
Module Profile.
Record t := mk {
  id : Z;
  email : jsstring;
  firstName : jsstring;
  lastName : jsstring;
  phoneNumber : jsstring;
  dateOfBirth : jsstring;
  ssn : jsstring;
  address : jsstring;
  city : jsstring;
  state : jsstring;
  zipCode : jsstring
}.
End Profile.

Definition profile (u : User.t) : Profile.t :=
  Profile.mk (User.id u) (User.email u) (User.firstName u) (User.lastName u)
    (User.phoneNumber u) (User.dateOfBirth u) (User.ssn u) (User.address u)
    (User.city u) (User.state u) (User.zipCode u).

Module AuthResult.
Record t := mk {
  user : Profile.t;
  token : jsstring
}.
End AuthResult.

Module LogoutResult.
Record t := mk {
  success : bool;
  message : string
}.
End LogoutResult.

(** The session token of the request, as [logout] reads it. *)
Definition request_token (r : Request) : option jsstring :=
  match r with
  | ReqCookies session => session
  | ReqHeaders cookie =>
      match cookie with
      | None | Some [] => None
      | Some cookieHeader =>
          match find (startsWith (js "session=")) (split (js "; ") cookieHeader) with
          | None => None
          | Some c => nth_error (split (js "=") c) 1
          end
      end
  end.

(** ** Auth router *)

Section AuthRouter.

(** The libraries the router calls: [bcrypt.hash(data, rounds)], which draws
    a salt, [bcrypt.compare(data, hash)], the serialisation and signature of
    a token's claims under the server's secret, the date parser behind
    [new Date(value)], which yields no date for an invalid one, and the
    engine's upper-casing of a string that is not all ASCII. *)
Variable bcrypt_hash : jsstring -> Z -> jsstring -> jsstring.
Variable bcrypt_compare : jsstring -> jsstring -> bool.
Variable jwt_encode : JwtPayload -> jsstring.
Variable Date_parse : jsstring -> option Date.
Variable unicode_toUpperCase : jsstring -> jsstring.

(** [jwt.sign({ userId }, secret, { expiresIn: "7d" })] at the clock [t]. *)
Definition jwt_sign (userId : Z) (t : Date) : jsstring :=
  let iat := getTime t / 1000 in
  jwt_encode (mkJwt userId iat (iat + 604800)).

(** The refinement of [dateOfBirthSchema]. *)
Definition dateOfBirth_ok (today : Date) (value : jsstring) : bool :=
  match Date_parse value with
  | None => false
  | Some dob =>
      if getTime dob >? getTime today then false
      else
        let age := getFullYear today - getFullYear dob in
        let hasHadBirthdayThisYear :=
          (getMonth today >? getMonth dob)
          || ((getMonth today =? getMonth dob) && (getDate today >=? getDate dob)) in
        let age := if negb hasHadBirthdayThisYear then age - 1 else age in
        age >=? 18
  end.

(** The input schema of [signup]: the issues of every field, gathered field
    by field (the report lists them in another order, see [reports]), and
    the input with [email] lowercased and [state] uppercased. *)
Definition signup_input (today : Date) (i : SignupInput.t)
  : list ZodIssue * SignupInput.t :=
  (check (is_email (SignupInput.email i)) ["email"] None
   ++ passwordSchema ["password"] (SignupInput.password i)
   ++ check (1 <=? length (SignupInput.firstName i))%nat ["firstName"] None
   ++ check (1 <=? length (SignupInput.lastName i))%nat ["lastName"] None
   ++ check (test (seq [Opt (ch "+"); between 10 15 dg]) (SignupInput.phoneNumber i))
        ["phoneNumber"] None
   ++ check (dateOfBirth_ok today (SignupInput.dateOfBirth i)) ["dateOfBirth"]
        (Some "You must be at least 18 years old")
   ++ check (test (times 9 dg) (SignupInput.ssn i)) ["ssn"] None
   ++ check (1 <=? length (SignupInput.address i))%nat ["address"] None
   ++ check (1 <=? length (SignupInput.city i))%nat ["city"] None
   ++ check (length (SignupInput.state i) =? 2)%nat ["state"] None
   ++ check (test (times 5 dg) (SignupInput.zipCode i)) ["zipCode"] None,
   SignupInput.mk
     (toLowerCase (SignupInput.email i)) (SignupInput.password i)
     (SignupInput.firstName i) (SignupInput.lastName i)
     (SignupInput.phoneNumber i) (SignupInput.dateOfBirth i)
     (SignupInput.ssn i) (SignupInput.address i) (SignupInput.city i)
     (toUpperCase unicode_toUpperCase (SignupInput.state i)) (SignupInput.zipCode i)).

Definition by_email (e : jsstring) (u : User.t) : bool :=
  jsstring_eqb (User.email u) e.

Definition by_userId (id : Z) (s : Session.t) : bool :=
  Session.userId s =? id.

Definition by_token (t : jsstring) (s : Session.t) : bool :=
  jsstring_eqb (Session.token s) t.

(** The row [signup] inserts: [{ ...input, password, ssn }]. *)
Definition new_user (input : SignupInput.t) (hashedPassword hashedSSN : jsstring)
  (rows : list User.t) : User.t :=
  User.mk (next_id User.id rows) (SignupInput.email input) hashedPassword
    (SignupInput.firstName input) (SignupInput.lastName input)
    (SignupInput.phoneNumber input) (SignupInput.dateOfBirth input)
    hashedSSN (SignupInput.address input) (SignupInput.city input)
    (SignupInput.state input) (SignupInput.zipCode input).

(** The expiry written to the session row,
    [expiresAt.setDate(expiresAt.getDate() + 7)] on the clock reading: the
    same local time seven calendar days on. *)
Definition expiresAt (t : Date) : Z := setDate t (getDate t + 7).

Definition signup (env : Env) (raw : SignupInput.t) : Handler AuthResult.t :=
  (input <- parse (signup_input (now env) raw) ;;
   existingUser <- query (fun db => select_get (by_email (SignupInput.email input)) (users db)) ;;
   match existingUser with
   | Some _ => throw (TRPCError CONFLICT "User already exists")
   | None =>
       let hashedPassword := bcrypt_hash (SignupInput.password input) 10 (password_salt env) in
       let hashedSSN := bcrypt_hash (SignupInput.ssn input) 12 (ssn_salt env) in
       exec (set_users (fun rows => rows ++ [new_user input hashedPassword hashedSSN rows])) ;;;
       user <- query (fun db => select_get (by_email (SignupInput.email input)) (users db)) ;;
       match user with
       | None => throw (TRPCError INTERNAL_SERVER_ERROR "Failed to create user")
       | Some user =>
           exec (set_sessions (delete_where (by_userId (User.id user)))) ;;;
           let token := jwt_sign (User.id user) (now env) in
           exec (set_sessions (fun rows =>
                   rows ++ [Session.mk (User.id user) token (expiresAt (now env))])) ;;;
           ret (AuthResult.mk (profile user) token)
       end
   end)%handler.

(** The input schema of [login]. *)
Definition login_input (i : LoginInput.t) : list ZodIssue * LoginInput.t :=
  (check (is_email (LoginInput.email i)) ["email"] None, i).

Definition login (env : Env) (raw : LoginInput.t) : Handler AuthResult.t :=
  (input <- parse (login_input raw) ;;
   user <- query (fun db => select_get (by_email (LoginInput.email input)) (users db)) ;;
   match user with
   | None => throw (TRPCError UNAUTHORIZED "Invalid credentials")
   | Some user =>
       let validPassword := bcrypt_compare (LoginInput.password input) (User.password user) in
       if negb validPassword
       then throw (TRPCError UNAUTHORIZED "Invalid credentials")
       else
         exec (set_sessions (delete_where (by_userId (User.id user)))) ;;;
         let token := jwt_sign (User.id user) (now env) in
         exec (set_sessions (fun rows =>
                 rows ++ [Session.mk (User.id user) token (expiresAt (now env))])) ;;;
         ret (AuthResult.mk (profile user) token)
   end)%handler.

(** The store after a session is issued to the user [id] at [env]: every
    earlier session of the user is gone and one row is added. *)
Definition issued (id : Z) (env : Env) (db : Db) : Db :=
  mkDb (users db)
    (delete_where (by_userId id) (sessions db)
     ++ [Session.mk id (jwt_sign id (now env)) (expiresAt (now env))])
    (accounts db) (transactions db).

End AuthRouter.

(** [logout] calls none of the libraries. *)
Definition logout (ctx : Context) : Handler LogoutResult.t :=
  (match user ctx with
   | Some _ =>
       match request_token (req ctx) with
       | Some (c :: t) => exec (set_sessions (delete_where (by_token (c :: t))))
       | _ => ret tt
       end
   | None => ret tt
   end ;;;
   ret (LogoutResult.mk true
          (match user ctx with
           | Some _ => "Logged out successfully"
           | None => "No active session"
           end)))%handler.

(** ** Account router *)

(** The funding source of [fundAccount], a union discriminated by [type]. *)
Inductive FundingSource :=
| card (accountNumber : jsstring) (routingNumber : option jsstring)
| bank (accountNumber : jsstring) (routingNumber : jsstring).

(** [input.fundingSource.type] *)
Definition fundingSource_type (f : FundingSource) : jsstring :=
  match f with
  | card _ _ => js "card"
  | bank _ _ => js "bank"
  end.

Definition is_some {A} (o : option A) : bool :=
  match o with
  | Some _ => true
  | None => false
  end.

(** [cardFundingSchema]: two refinements of the card number; the second runs
    whether or not the first has failed. *)
Definition cardFundingSchema (p : list string) (accountNumber : jsstring)
  : list ZodIssue :=
  check (passesLuhn accountNumber) (p ++ ["accountNumber"])
    (Some "Card number is invalid")
  ++ check (is_some (detectCardType accountNumber)) (p ++ ["accountNumber"])
    (Some "Unsupported or unknown card type").

(** [bankFundingSchema] *)
Definition bankFundingSchema (p : list string) (routingNumber : jsstring)
  : list ZodIssue :=
  check (test (times 9 dg) routingNumber) (p ++ ["routingNumber"])
    (Some "Routing number must be 9 digits").

(** [fundingSourceSchema] *)
Definition fundingSourceSchema (p : list string) (f : FundingSource)
  : list ZodIssue :=
  match f with
  | card accountNumber _ => cardFundingSchema p accountNumber
  | bank _ routingNumber => bankFundingSchema p routingNumber
  end.

Module FundInput.
Record t := mk {
  accountId : Z;
  amount : float;
  fundingSource : FundingSource
}.
End FundInput.

(** [z.number().positive().refine((val) => val >= 0.01, ...)]: a [NaN] is no
    number to the schema and ends the checks of the field. *)
Definition amount_schema (p : list string) (val : float) : list ZodIssue :=
  if PrimFloat.is_nan val then [mkIssue p None]
  else
    check (PrimFloat.ltb 0 val) p None
    ++ check (PrimFloat.leb 0.01 val) p (Some "Amount must be at least $0.01").

(** The input schema of [fundAccount]: the issues of the amount and of the
    funding source, gathered field by field (the report lists them in
    another order, see [reports]). *)
Definition fundAccount_input (i : FundInput.t) : list ZodIssue * FundInput.t :=
  (amount_schema ["amount"] (FundInput.amount i)
   ++ fundingSourceSchema ["fundingSource"] (FundInput.fundingSource i),
   i).

Module FundResult.
Record t := mk {
  transaction : option Transaction.t;
  newBalance : float
}.
End FundResult.

(** Modelled from the spec: [protectedProcedure] is declared in
    [server/trpc], outside the sources.  A call without an authenticated
    user is rejected as unauthorized before its input is looked at;
    otherwise the handler runs with that user. *)
Definition protectedProcedure (ctx : Context) : Handler User.t :=
  match user ctx with
  | Some u => ret u
  | None => throw (TRPCError UNAUTHORIZED "UNAUTHORIZED")
  end.

Definition owned_account (accountId userId : Z) (a : Account.t) : bool :=
  (Account.id a =? accountId) && (Account.userId a =? userId).

Definition by_account_id (accountId : Z) (a : Account.t) : bool :=
  Account.id a =? accountId.

(** [set({ balance })] on an account row. *)
Definition set_balance (b : float) (a : Account.t) : Account.t :=
  Account.mk (Account.id a) (Account.userId a) (Account.accountNumber a)
    (Account.accountType a) b (Account.status a).

(** The row [fundAccount] inserts; the store supplies [id] and [createdAt]. *)
Definition new_transaction (env : Env) (input : FundInput.t) (amount : float)
  (rows : list Transaction.t) : Transaction.t :=
  Transaction.mk (next_id Transaction.id rows) (FundInput.accountId input)
    (js "deposit") amount
    (js "Funding from " ++ fundingSource_type (FundInput.fundingSource input))
    (js "completed") (getTime (now env) / 1000) (getTime (now env)).

(** [parseFloat(input.amount.toString())] gives back the number it is given:
    the decimal text of a float reads back as that float. *)
Definition fundAccount (env : Env) (ctx : Context) (raw : FundInput.t)
  : Handler FundResult.t :=
  (user <- protectedProcedure ctx ;;
   input <- parse (fundAccount_input raw) ;;
   let amount := FundInput.amount input in
   account <- query (fun db =>
     select_get (owned_account (FundInput.accountId input) (User.id user)) (accounts db)) ;;
   match account with
   | None => throw (TRPCError NOT_FOUND "Account not found")
   | Some account =>
       if negb (jsstring_eqb (Account.status account) (js "active"))
       then throw (TRPCError BAD_REQUEST "Account is not active")
       else
         exec (set_transactions (fun rows =>
                 rows ++ [new_transaction env input amount rows])) ;;;
         transaction <- query (fun db =>
           order_by_first Transaction.createdAt (transactions db)) ;;
         exec (set_accounts
                 (update_where (by_account_id (FundInput.accountId input))
                    (set_balance (PrimFloat.add (Account.balance account) amount)))) ;;;
         updatedAccount <- query (fun db =>
           select_get (by_account_id (FundInput.accountId input)) (accounts db)) ;;
         match updatedAccount with
         | None =>
             throw (TRPCError INTERNAL_SERVER_ERROR
                      "Failed to load updated account balance")
         | Some updatedAccount =>
             ret (FundResult.mk transaction (Account.balance updatedAccount))
         end
   end)%handler.

(** A transaction as [getTransactions] returns it:
    [{ ...transaction, accountType: accountDetails?.accountType }]. *)
Module EnrichedTransaction.
Record t := mk {
  transaction : Transaction.t;
  accountType : option AccountType
}.
End EnrichedTransaction.

Definition description (e : EnrichedTransaction.t) : jsstring :=
  Transaction.description (EnrichedTransaction.transaction e).

Definition getTransactions (ctx : Context) (accountId : Z)
  : Handler (list EnrichedTransaction.t) :=
  (user <- protectedProcedure ctx ;;
   account <- query (fun db =>
     select_get (owned_account accountId (User.id user)) (accounts db)) ;;
   match account with
   | None => throw (TRPCError NOT_FOUND "Account not found")
   | Some _ =>
       accountTransactions <- query (fun db =>
         filter (fun t => Transaction.accountId t =? accountId) (transactions db)) ;;
       query (fun db =>
         map (fun transaction =>
                let accountDetails :=
                  select_get (by_account_id (Transaction.accountId transaction))
                    (accounts db) in
                EnrichedTransaction.mk transaction
                  (option_map Account.accountType accountDetails))
             accountTransactions)
   end)%handler.

(** ** Reference definitions

    The white space, the checksum, the numeric prefix, the brands and the
    escaping the specification speaks of, written from its words, to
    compare the code with. *)

(** White space, code unit by code unit: the tab, the line breaks and the
    other controls of the kind, the space and the no-break space, the
    Unicode space separators, the line and paragraph separators and the
    byte-order mark. *)
Definition whitespace_code_units : list N :=
  [9; 10; 11; 12; 13; 32; 160; 5760;
   8192; 8193; 8194; 8195; 8196; 8197; 8198; 8199; 8200; 8201; 8202;
   8232; 8233; 8239; 8287; 12288; 65279]%N.

Definition strip_whitespace (s : jsstring) : jsstring :=
  filter (fun c => negb (existsb (N.eqb c) whitespace_code_units)) s.

(** The number the first [n] digits of a digit string spell. *)
Definition numeric_prefix (n : nat) (digits : jsstring) : Z :=
  fold_left (fun acc c => acc * 10 + parseInt10 c) (firstn n digits) 0.

(** The alternating-doubling sum over digit values listed from the rightmost
    digit on: every second value is doubled, and 9 is taken off a double
    above 9. *)
Fixpoint luhn_sum (double : bool) (values : list Z) : Z :=
  match values with
  | [] => 0
  | v :: values' =>
      (if double then (if 2 * v >? 9 then 2 * v - 9 else 2 * v) else v)
      + luhn_sum (negb double) values'
  end.

(** Strip white space; require 13 to 19 digits; valid when the sum is
    divisible by 10. *)
Definition luhn_valid (cardNumber : jsstring) : Prop :=
  let digits := strip_whitespace cardNumber in
  (13 <= length digits <= 19)%nat
  /\ forallb digit digits = true
  /\ luhn_sum false (map parseInt10 (rev digits)) mod 10 = 0.

(** The brand of a digit string by the ranges of the specification: Visa
    leads with 4 and has 13, 16 or 19 digits; Mastercard has a prefix 51 to
    55 or 2221 to 2720 and 16 digits; Amex a prefix 34 or 37 and 15 digits;
    Discover a prefix 6011, 65 or 644 to 649 and 16 digits; JCB a prefix 3528
    to 3589 and 16 digits; anything else has no brand. *)
Definition recognized_brand (digits : jsstring) : option CardType :=
  let n := length digits in
  let prefix k := numeric_prefix k digits in
  if negb (forallb digit digits) then None
  else if (prefix 1%nat =? 4) && ((n =? 13) || (n =? 16) || (n =? 19))%nat
  then Some visa
  else if (((51 <=? prefix 2%nat) && (prefix 2%nat <=? 55))
           || ((2221 <=? prefix 4%nat) && (prefix 4%nat <=? 2720)))
          && (n =? 16)%nat
  then Some mastercard
  else if ((prefix 2%nat =? 34) || (prefix 2%nat =? 37)) && (n =? 15)%nat
  then Some amex
  else if ((prefix 4%nat =? 6011) || (prefix 2%nat =? 65)
           || ((644 <=? prefix 3%nat) && (prefix 3%nat <=? 649)))
          && (n =? 16)%nat
  then Some discover
  else if ((3528 <=? prefix 4%nat) && (prefix 4%nat <=? 3589)) && (n =? 16)%nat
  then Some jcb
  else None.

(** Markup escaping of a text: [&], [<], [>], the double and the single
    quote become character references. *)
Definition escape_cu (c : N) : jsstring :=
  if (c =? 38)%N then js "&amp;"
  else if (c =? 60)%N then js "&lt;"
  else if (c =? 62)%N then js "&gt;"
  else if (c =? 34)%N then js "&quot;"
  else if (c =? 39)%N then js "&#39;"
  else [c].

Definition escape_markup (s : jsstring) : jsstring := flat_map escape_cu s.

(** ASCII-case-insensitive containment of a word in a message, as the
    router's tests look for one ([/word/i]). *)
Definition mentions (word msg : string) : bool :=
  includes (toLowerCase (js word)) (toLowerCase (js msg)).

Definition issue_mentions (word : string) (i : ZodIssue) : bool :=
  match message i with
  | Some m => mentions word m
  | None => false
  end.

(** ** Stand-ins for the libraries

    Simple functions in place of the hashing, token and date libraries, to
    run the handlers on concrete requests. *)

Definition demo_hash (data : jsstring) (rounds : Z) (salt : jsstring) : jsstring :=
  js "$2a$" ++ [Z.to_N rounds] ++ salt ++ js "$" ++ data.

Definition demo_compare (data hash : jsstring) : bool :=
  jsstring_eqb (skipn (length hash - length data) hash) data.

(** Upper-casing with the one special casing of the sharp s. *)
Definition demo_toUpperCase (s : jsstring) : jsstring :=
  flat_map (fun c => if (c =? 223)%N then js "SS" else [upper_cu c]) s.

Definition demo_jwt (p : JwtPayload) : jsstring :=
  js "jwt." ++ [Z.to_N (jwt_userId p); 46%N; Z.to_N (iat p); 46%N; Z.to_N (exp p)].

(** The days from 1970-01-01 to a date of the Gregorian calendar. *)
Definition days_from_civil (y m d : Z) : Z :=
  let y' := if m <=? 2 then y - 1 else y in
  let era := y' / 400 in
  let yoe := y' - era * 400 in
  let doy := (153 * (if m >? 2 then m - 3 else m + 9) + 2) / 5 + d - 1 in
  let doe := yoe * 365 + yoe / 4 - yoe / 100 + doy in
  era * 146097 + doe - 719468.

(** A [Date] of a server whose time zone is UTC, where every day has
    86400000 ms. *)
Definition utc_date (t y m d : Z) : Date :=
  mkDate t y m d (fun day => t + (day - d) * 86400000).

Definition days_in_month (y m : Z) : Z :=
  if m =? 2 then
    if ((y mod 4 =? 0) && negb (y mod 100 =? 0)) || (y mod 400 =? 0) then 29 else 28
  else if (m =? 4) || (m =? 6) || (m =? 9) || (m =? 11) then 30
  else 31.

(** A day of the calendar written [YYYY-MM-DD], read as midnight UTC on a
    server whose time zone is UTC; any other text is taken for no date. *)
Definition demo_Date_parse (s : jsstring) : option Date :=
  if test (seq [times 4 dg; ch "-"; times 2 dg; ch "-"; times 2 dg]) s then
    let v := map parseInt10 s in
    let n i := nth i v 0 in
    let y := n 0%nat * 1000 + n 1%nat * 100 + n 2%nat * 10 + n 3%nat in
    let m := n 5%nat * 10 + n 6%nat in
    let d := n 8%nat * 10 + n 9%nat in
    if (1 <=? m) && (m <=? 12) && (1 <=? d) && (d <=? days_in_month y m)
    then Some (utc_date (days_from_civil y m d * 86400000) y (m - 1) d)
    else None
  else None.

(** ** Example requests

    The requests of the router's test suite, on a store holding one user,
    one account and one transaction. *)

(** 2025-11-02, midnight, and half a second later. *)
Definition demo_now : Date := utc_date 1762041600000 2025 10 2.
Definition demo_now_later : Date := utc_date 1762041600500 2025 10 2.

Definition demo_env : Env := mkEnv demo_now (js "salt-1") (js "salt-2").
Definition demo_env_later : Env := mkEnv demo_now_later (js "salt-3") (js "salt-4").

Definition demo_user : User.t :=
  User.mk 1 (js "multi@example.com")
    (demo_hash (js "Aa1!good!") 10 (js "salt-0"))
    (js "Test") (js "User") (js "+14155550123") (js "1990-01-01")
    (demo_hash (js "000000000") 12 (js "salt-9"))
    (js "123 Main St") (js "Somewhere") (js "NJ") (js "07001").

Definition demo_account : Account.t :=
  Account.mk 1 1 (js "0000000042") checking 10 (js "active").

(** A deposit of 10 made a day before [demo_now]. *)
Definition demo_transaction : Transaction.t :=
  Transaction.mk 1 1 (js "deposit") 10 (js "Funding from card")
    (js "completed") 1761955200 1761955200000.

Definition demo_db : Db :=
  mkDb [demo_user] [] [demo_account] [demo_transaction].

Definition demo_ctx : Context := mkContext (Some demo_user) (ReqCookies None).

(** The sign-up of the test of email normalisation, with the mistyped
    top-level domain. *)
Definition signup_con : SignupInput.t :=
  SignupInput.mk (js "oops@example.con") (js "Aa1!good!") (js "Test")
    (js "User") (js "+14155550123") (js "1990-01-01") (js "111111111")
    (js "123 Main St") (js "City") (js "NJ") (js "07001").

(** The sign-up of the test of state codes, with a state no state has. *)
Definition signup_XX : SignupInput.t :=
  SignupInput.mk (js "bad@example.com") (js "Aa1!good!") (js "Test")
    (js "User") (js "+14155550123") (js "1990-01-01") (js "111111111")
    (js "123 Main St") (js "City") (js "XX") (js "07001").

(** A deposit of 25 by card into the account of [demo_db]. *)
Definition fund_25 : FundInput.t :=
  FundInput.mk 1 25 (card (js "4242424242424242") None).

(** The store of the test of markup in descriptions: the one transaction of
    the account carries a script element as its description. *)
Definition markup_db : Db :=
  mkDb [demo_user] [] [demo_account]
    [Transaction.mk 1 1 (js "deposit") 10 (js "<script>alert(1)</script>")
       (js "completed") 1761955200 1761955200000].

(** ** Account router: creating and listing accounts *)

(** [num.toString()] for a non-negative integer below the range where the
    engine switches to exponents: its decimal digits.  The digits are peeled
    off from the right; [fuel] bounds their number. *)
Fixpoint decimal_digits (fuel : nat) (num : Z) (acc : jsstring) : jsstring :=
  match fuel with
  | O => acc
  | S fuel' =>
      let acc' := Z.to_N (48 + num mod 10) :: acc in
      if num <? 10 then acc' else decimal_digits fuel' (num / 10) acc'
  end.

Definition toString (num : Z) : jsstring :=
  decimal_digits (S (Z.to_nat (Z.log2 num))) num [].

(** [s.padStart(n, c)] for a one-unit filler [c]. *)
Definition padStart (n : nat) (c : N) (s : jsstring) : jsstring :=
  repeat c (n - length s) ++ s.

(** [generateAccountNumber], on the integer [num] that [randomInt(0, 10 ** 10)]
    has drawn. *)
Definition generateAccountNumber (num : Z) : jsstring :=
  padStart 10 (cu "0") (toString num).

Definition by_accountNumber (n : jsstring) (a : Account.t) : bool :=
  jsstring_eqb (Account.accountNumber a) n.

Definition by_user_and_type (userId : Z) (ty : AccountType) (a : Account.t) : bool :=
  (Account.userId a =? userId)
  && match Account.accountType a, ty with
     | checking, checking | savings, savings => true
     | _, _ => false
     end.

(** The loop [while (!isUnique)] over the integers the random source yields,
    in order: the first number no stored account has.  [None] when every
    listed draw collides, where the loop keeps drawing. *)
Fixpoint unique_accountNumber (draws : list Z) (rows : list Account.t)
  : option jsstring :=
  match draws with
  | [] => None
  | num :: draws' =>
      let accountNumber := generateAccountNumber num in
      match select_get (by_accountNumber accountNumber) rows with
      | Some _ => unique_accountNumber draws' rows
      | None => Some accountNumber
      end
  end.

(** [input.accountType] inside the conflict message. *)
Definition accountType_name (ty : AccountType) : string :=
  match ty with
  | checking => "checking"
  | savings => "savings"
  end.

(** [createAccount], on the draws of the random source.  The result is
    [None] when the draws run out before the loop has found a free number. *)
Definition createAccount (draws : list Z) (ctx : Context) (accountType : AccountType)
  (db : Db) : option ((Failure + Account.t) * Db) :=
  match protectedProcedure ctx db with
  | (inl e, db') => Some (inl e, db')
  | (inr user, db) =>
      match select_get (by_user_and_type (User.id user) accountType) (accounts db) with
      | Some _ =>
          Some (inl (TRPCError CONFLICT
                       ("You already have a " ++ accountType_name accountType
                        ++ " account")%string), db)
      | None =>
          match unique_accountNumber draws (accounts db) with
          | None => None
          | Some accountNumber =>
              Some
                ((exec (set_accounts (fun rows =>
                    rows ++ [Account.mk (next_id Account.id rows) (User.id user)
                               accountNumber accountType 0 (js "active")])) ;;;
                  account <- query (fun db =>
                    select_get (by_accountNumber accountNumber) (accounts db)) ;;
                  match account with
                  | None =>
                      throw (TRPCError INTERNAL_SERVER_ERROR
                               "Failed to create account. Please try again.")
                  | Some account => ret account
                  end)%handler db)
          end
      end
  end.

Definition getAccounts (ctx : Context) : Handler (list Account.t) :=
  (user <- protectedProcedure ctx ;;
   query (fun db => filter (fun a => Account.userId a =? User.id user) (accounts db)))%handler.

(** The row [createAccount] inserts. *)
Definition created_account (u : User.t) (ty : AccountType) (n : jsstring)
  (rows : list Account.t) : Account.t :=
  Account.mk (next_id Account.id rows) (User.id u) n ty 0 (js "active").

(** ** Funding form: the rules of its fields *)

Module FundingForm.

Inductive FundingType := card | bank.

(** The outcome of a field's rules: [inl tt] when the field is valid,
    otherwise the message of the first rule that fails.  The form library
    applies [required], then [pattern], then [validate]. *)
Definition accountNumber (fundingType : FundingType) (value : jsstring)
  : unit + string :=
  match value with
  | [] =>
      inr (match fundingType with
           | card => "Card number is required"
           | bank => "Account number is required"
           end)
  | _ =>
      match fundingType with
      | card =>
          if negb (test (between 13 19 dg) value)
          then inr "Card number must be between 13 and 19 digits"
          else FundingModal.validCard value
      | bank =>
          if negb (test (Plus dg) value)
          then inr "Invalid account number"
          else inl tt
      end
  end.

Definition routingNumber (value : jsstring) : unit + string :=
  match value with
  | [] => inr "Routing number is required"
  | _ =>
      if negb (test (times 9 dg) value)
      then inr "Routing number must be 9 digits"
      else inl tt
  end.

End FundingForm.

(** ** Further reference definitions *)

(** The number a string of decimal digits spells. *)
Definition decimal_value (s : jsstring) : Z :=
  fold_left (fun acc c => acc * 10 + parseInt10 c) s 0.

(** No two accounts of the table belong to one user with one type. *)
Definition owner_and_type (a : Account.t) : Z * AccountType :=
  (Account.userId a, Account.accountType a).

Definition one_account_per_type (rows : list Account.t) : Prop :=
  NoDup (map owner_and_type rows).
(** * Properties *)

(** ** JavaScript strings *)

Lemma jsstring_eqb_eq a b : jsstring_eqb a b = true <-> a = b.
Proof.
  unfold jsstring_eqb. destruct (list_eq_dec N.eq_dec a b); split; congruence.
Qed.

Lemma jsstring_eqb_refl a : jsstring_eqb a a = true.
Proof. now apply jsstring_eqb_eq. Qed.

(** *** The matcher decides the language of the pattern *)

Lemma lang_void_inv w : lang Void w -> False.
Proof. intro H; inversion H. Qed.

Lemma lang_eps_inv w : lang Eps w -> w = [].
Proof. intro H; now inversion H. Qed.

Lemma lang_cls_inv p w : lang (Cls p) w -> exists c, w = [c] /\ p c = true.
Proof. intro H; inversion H; subst; eauto. Qed.

Lemma lang_cat_inv r s w :
  lang (Cat r s) w -> exists u v, w = u ++ v /\ lang r u /\ lang s v.
Proof. intro H; inversion H; subst; eauto. Qed.

Lemma lang_alt_inv r s w : lang (Alt r s) w -> lang r w \/ lang s w.
Proof. intro H; inversion H; subst; auto. Qed.

Lemma lang_cat_cons r s c u v :
  lang r (c :: u) -> lang s v -> lang (Cat r s) (c :: u ++ v).
Proof. intros. change (c :: u ++ v) with ((c :: u) ++ v). auto. Qed.

Lemma nullable_lang r : nullable r = true <-> lang r [].
Proof.
  induction r; simpl; split; intro H; auto; try discriminate.
  - now apply lang_void_inv in H.
  - apply lang_cls_inv in H as (c & Hc & _). discriminate.
  - apply andb_true_iff in H as [H1 H2].
    change (@nil N) with (@nil N ++ []). constructor; tauto.
  - apply lang_cat_inv in H as (u & v & Huv & Hu & Hv).
    symmetry in Huv. destruct (app_eq_nil _ _ Huv) as [-> ->].
    apply andb_true_iff. tauto.
  - apply orb_true_iff in H as [H | H]; [apply lang_alt_l | apply lang_alt_r]; tauto.
  - apply orb_true_iff. apply lang_alt_inv in H. tauto.
Qed.

Lemma lang_star_cons r c s :
  lang (Star r) (c :: s) ->
  exists u v, s = u ++ v /\ lang r (c :: u) /\ lang (Star r) v.
Proof.
  intro H. remember (Star r) as e eqn:He. remember (c :: s) as w eqn:Hw.
  revert c s Hw He.
  induction H; intros c0 s0 Hw He; try discriminate.
  injection He as ->.
  destruct u as [| a u'].
  - simpl in Hw. eapply IHlang2; eauto.
  - simpl in Hw. injection Hw as -> <-. eauto.
Qed.

Lemma deriv_lang r : forall c s, lang (deriv c r) s <-> lang r (c :: s).
Proof.
  induction r; intros c w; simpl.
  - split; intro H; inversion H.
  - split; intro H; inversion H.
  - destruct (p c) eqn:Hp; split; intro H.
    + apply lang_eps_inv in H as ->. auto.
    + apply lang_cls_inv in H as (d & Hd & _). injection Hd as _ ->. auto.
    + now apply lang_void_inv in H.
    + apply lang_cls_inv in H as (d & Hd & Hpd). injection Hd as -> _. congruence.
  - destruct (nullable r1) eqn:Hn.
    + split; intro H.
      * apply lang_alt_inv in H as [H | H].
        -- apply lang_cat_inv in H as (u & v & -> & Hu & Hv).
           apply lang_cat_cons; auto. now apply IHr1.
        -- apply IHr2 in H. apply nullable_lang in Hn.
           change (c :: w) with ([] ++ c :: w). auto.
      * apply lang_cat_inv in H as (u & v & Huv & Hu & Hv).
        destruct u as [| a u'].
        -- simpl in Huv. subst v. apply lang_alt_r. now apply IHr2.
        -- simpl in Huv. injection Huv as <- ->.
           apply lang_alt_l. constructor; auto. now apply IHr1.
    + split; intro H.
      * apply lang_cat_inv in H as (u & v & -> & Hu & Hv).
        apply lang_cat_cons; auto. now apply IHr1.
      * apply lang_cat_inv in H as (u & v & Huv & Hu & Hv).
        destruct u as [| a u'].
        -- apply nullable_lang in Hu. congruence.
        -- simpl in Huv. injection Huv as <- ->.
           constructor; auto. now apply IHr1.
  - split; intro H; apply lang_alt_inv in H as [H | H].
    + apply lang_alt_l. now apply IHr1.
    + apply lang_alt_r. now apply IHr2.
    + apply lang_alt_l. now apply IHr1.
    + apply lang_alt_r. now apply IHr2.
  - split; intro H.
    + apply lang_cat_inv in H as (u & v & -> & Hu & Hv).
      apply IHr in Hu. change (c :: u ++ v) with ((c :: u) ++ v). auto.
    + apply lang_star_cons in H as (u & v & -> & Hu & Hv).
      constructor; auto. now apply IHr.
Qed.

Lemma test_lang s : forall r, test r s = true <-> lang r s.
Proof.
  induction s as [| c s IH]; intro r; simpl.
  - apply nullable_lang.
  - rewrite IH. apply deriv_lang.
Qed.

(** Bounded repetition of a class: [p{n}], [p{0,k}] and [p{n,m}]. *)

Lemma lang_times_cls p n s :
  lang (times n (Cls p)) s <-> length s = n /\ forallb p s = true.
Proof.
  revert s. induction n as [| n IH]; intro s; simpl.
  - split.
    + intro H. apply lang_eps_inv in H as ->. auto.
    + intros [H _]. apply length_zero_iff_nil in H as ->. auto.
  - split.
    + intro H. apply lang_cat_inv in H as (u & v & -> & Hu & Hv).
      apply lang_cls_inv in Hu as (c & -> & Hc). apply IH in Hv as [<- Hv].
      simpl. now rewrite Hc, Hv.
    + intros [Hl Hf]. destruct s as [| c s]; [discriminate |].
      simpl in *. apply andb_true_iff in Hf as [Hc Hf]. injection Hl as Hl.
      change (c :: s) with ([c] ++ s). constructor; auto. apply IH; auto.
Qed.

Lemma lang_upto_cls p k s :
  lang (upto k (Cls p)) s <-> (length s <= k)%nat /\ forallb p s = true.
Proof.
  revert s. induction k as [| k IH]; intro s; simpl.
  - split.
    + intro H. apply lang_eps_inv in H as ->. auto.
    + intros [H _]. destruct s; [auto | simpl in H; lia].
  - unfold Opt. split.
    + intro H. apply lang_alt_inv in H as [H | H].
      * apply lang_cat_inv in H as (u & v & -> & Hu & Hv).
        apply lang_cls_inv in Hu as (c & -> & Hc). apply IH in Hv as [Hl Hv].
        simpl. rewrite Hc, Hv. split; [lia | reflexivity].
      * apply lang_eps_inv in H as ->. simpl. split; [lia | reflexivity].
    + intros [Hl Hf]. destruct s as [| c s]; [auto |].
      simpl in *. apply andb_true_iff in Hf as [Hc Hf].
      apply lang_alt_l. change (c :: s) with ([c] ++ s). constructor; auto.
      apply IH. split; [lia | assumption].
Qed.

Lemma test_between_cls p n m s :
  (n <= m)%nat ->
  test (between n m (Cls p)) s = true <->
  (n <= length s <= m)%nat /\ forallb p s = true.
Proof.
  intro Hnm. rewrite test_lang. unfold between. split.
  - intro H. apply lang_cat_inv in H as (u & v & -> & Hu & Hv).
    apply lang_times_cls in Hu as [Hlu Hu]. apply lang_upto_cls in Hv as [Hlv Hv].
    rewrite length_app, forallb_app, Hu, Hv. split; [lia | reflexivity].
  - intros [Hl Hf]. rewrite <- (firstn_skipn n s). rewrite <- (firstn_skipn n s) in Hf.
    rewrite forallb_app in Hf. apply andb_true_iff in Hf as [Hf1 Hf2].
    constructor.
    + apply lang_times_cls. split; [| assumption]. rewrite length_firstn. lia.
    + apply lang_upto_cls. split; [| assumption]. rewrite length_skipn. lia.
Qed.


(** ** Card validator *)

Lemma firstn_succ_nth {A} (d : A) (l : list A) :
  forall i, (i < length l)%nat -> firstn (S i) l = firstn i l ++ [nth i l d].
Proof.
  induction l as [| a l IH]; intros i Hi; simpl in Hi.
  - lia.
  - destruct i as [| i]; [reflexivity |].
    change (firstn (S (S i)) (a :: l)) with (a :: firstn (S i) l).
    rewrite IH by lia. reflexivity.
Qed.

Lemma luhn_digit_sum b v values :
  luhn_sum b (v :: values) = luhn_digit b v + luhn_sum (negb b) values.
Proof.
  simpl. unfold luhn_digit. rewrite (Z.mul_comm v 2). reflexivity.
Qed.

(** The loop of [passesLuhn], run over the indices below [n], adds to [sum]
    the alternating-doubling sum of the first [n] digits read backwards. *)
Lemma luhn_loop_sum digits :
  forall n sum b,
    (n <= length digits)%nat ->
    luhn_loop digits n sum b
    = sum + luhn_sum b (map parseInt10 (rev (firstn n digits))).
Proof.
  induction n as [| n IH]; intros sum b Hn.
  - simpl. lia.
  - rewrite (firstn_succ_nth 0%N) by lia.
    rewrite rev_app_distr. simpl rev. simpl app. simpl map.
    rewrite luhn_digit_sum. simpl luhn_loop. rewrite IH by lia. lia.
Qed.

(** The class [\s] of the patterns holds the white space code units and no
    other, so [replace(/\s+/g, '')] strips the white space. *)
Lemma space_whitespace c : space c = existsb (N.eqb c) whitespace_code_units.
Proof.
  unfold space, whitespace_code_units. cbn [existsb].
  repeat match goal with
         | |- context [(?a <=? ?b)%N] =>
             destruct (N.leb_spec a b); try (exfalso; lia)
         | |- context [(?a =? ?b)%N] =>
             destruct (N.eqb_spec a b); try (exfalso; lia)
         end;
    reflexivity.
Qed.

Lemma strip_spaces_whitespace s : strip_spaces s = strip_whitespace s.
Proof.
  unfold strip_spaces, strip_whitespace. apply filter_ext.
  intro c. now rewrite space_whitespace.
Qed.

(** [passesLuhn] is the checksum the specification describes. *)
Lemma passesLuhn_spec cardNumber :
  passesLuhn cardNumber = true <-> luhn_valid cardNumber.
Proof.
  unfold passesLuhn, luhn_valid. cbv zeta.
  rewrite <- strip_spaces_whitespace.
  set (digits := strip_spaces cardNumber).
  pose proof (test_between_cls digit 13 19 digits ltac:(lia)) as Ht.
  fold dg in Ht.
  destruct (test (between 13 19 dg) digits) eqn:E; simpl.
  - destruct Ht as [Ht _]. destruct (Ht eq_refl) as [Hl Hd].
    rewrite luhn_loop_sum by lia. rewrite firstn_all. rewrite Z.add_0_l.
    rewrite Z.eqb_eq. tauto.
  - split; [discriminate |]. intros (Hl & Hd & _).
    destruct Ht as [_ Ht]. specialize (Ht (conj Hl Hd)). discriminate.
Qed.

Lemma passesLuhn_false cardNumber :
  passesLuhn cardNumber = false <-> ~ luhn_valid cardNumber.
Proof.
  rewrite <- passesLuhn_spec. destruct (passesLuhn cardNumber); split; congruence.
Qed.

Lemma is_some_true {A} (o : option A) : is_some o = true <-> o <> None.
Proof. destruct o; simpl; split; congruence. Qed.

(** The issues of the card number, by the two checks. *)
Lemma cardFundingSchema_cases p accountNumber :
  cardFundingSchema p accountNumber
  = (if passesLuhn accountNumber then []
     else [mkIssue (p ++ ["accountNumber"]) (Some "Card number is invalid")])
    ++ (if is_some (detectCardType accountNumber) then []
        else [mkIssue (p ++ ["accountNumber"])
                (Some "Unsupported or unknown card type")]).
Proof. reflexivity. Qed.

(** An authenticated [fundAccount] whose schema finds issues throws them, as
    gathered, and leaves the store as it was. *)
Lemma fundAccount_invalid_input env ctx u raw db :
  user ctx = Some u ->
  fst (fundAccount_input raw) <> [] ->
  fundAccount env ctx raw db = (inl (ZodError (fst (fundAccount_input raw))), db).
Proof.
  intros Hu Hi. unfold fundAccount, protectedProcedure, bind. rewrite Hu.
  unfold ret at 1. destruct (fundAccount_input raw) as [issues i] eqn:E.
  simpl in Hi. destruct issues; [congruence | reflexivity].
Qed.

(** An authenticated [fundAccount] whose schema finds no issue does not throw
    a validation failure. *)
Lemma fundAccount_valid_input env ctx u raw db issues :
  user ctx = Some u ->
  fst (fundAccount_input raw) = [] ->
  fst (fundAccount env ctx raw db) <> inl (ZodError issues).
Proof.
  intros Hu Hi. unfold fundAccount, protectedProcedure, bind. rewrite Hu.
  unfold ret at 1. destruct (fundAccount_input raw) as [iss i] eqn:E.
  simpl in Hi. subst iss. unfold parse, ret at 1, query.
  destruct (select_get _ _) as [account |]; [| simpl; discriminate].
  destruct (negb _); [simpl; discriminate |].
  unfold exec. cbv beta iota.
  destruct (select_get _ _); simpl; discriminate.
Qed.

(** The card schema in terms of the checksum and of the router's own
    detector.  The schema raises no issue about a card number exactly when
    the number passes the Luhn checksum - white space stripped, 13 to 19
    digits, alternating doubling from the rightmost digit, sum divisible by
    10 - and [detectCardType] gives it a brand.  A Luhn failure carries the
    message "Card number is invalid", a Luhn-valid number without a brand
    carries "Unsupported or unknown card type" and not the former; the
    first message reads "invalid" and the second "unsupported" (letter case
    apart).  An authenticated [fundAccount] with a refused card number
    throws the issues of its schema and writes nothing; with an accepted
    card number and a valid amount it throws no validation failure. *)
Lemma cardFundingSchema_by_luhn_and_detector (accountNumber : jsstring) :
  let p := ["fundingSource"] in
  let issues := cardFundingSchema p accountNumber in
  let invalid := mkIssue (p ++ ["accountNumber"]) (Some "Card number is invalid") in
  let unsupported :=
    mkIssue (p ++ ["accountNumber"]) (Some "Unsupported or unknown card type") in
  (issues = [] <-> luhn_valid accountNumber /\ detectCardType accountNumber <> None)
  /\ (~ luhn_valid accountNumber -> In invalid issues)
  /\ (luhn_valid accountNumber -> detectCardType accountNumber = None ->
      issues = [unsupported])
  /\ issue_mentions "invalid" invalid = true
  /\ issue_mentions "unsupported" unsupported = true
  /\ issue_mentions "invalid" unsupported = false
  /\ issue_mentions "unsupported" invalid = false
  /\ (forall env ctx u accountId amount routingNumber db,
        user ctx = Some u ->
        issues <> [] ->
        let raw := FundInput.mk accountId amount (card accountNumber routingNumber) in
        exists e,
          fundAccount env ctx raw db = (inl e, db)
          /\ reports e (amount_schema ["amount"] amount ++ issues))
  /\ (forall env ctx u accountId amount routingNumber db refused,
        user ctx = Some u ->
        issues = [] ->
        amount_schema ["amount"] amount = [] ->
        let raw := FundInput.mk accountId amount (card accountNumber routingNumber) in
        fst (fundAccount env ctx raw db) <> inl (ZodError refused)).
Proof.
  cbv zeta. rewrite cardFundingSchema_cases.
  split; [| split; [| split; [| split; [| split; [| split; [| split; [| split]]]]]]];
    try reflexivity.
  - rewrite <- passesLuhn_spec, <- is_some_true. split.
    + intro H. destruct (passesLuhn accountNumber); [| discriminate].
      destruct (is_some (detectCardType accountNumber)); [auto | discriminate].
    + intros [Hl Hb]. now rewrite Hl, Hb.
  - intro Hl. apply passesLuhn_false in Hl. rewrite Hl. now left.
  - intros Hl Hb. apply passesLuhn_spec in Hl. rewrite Hl, Hb. reflexivity.
  - intros env ctx u accountId amount routingNumber db Hu Hi.
    rewrite (fundAccount_invalid_input env ctx u _ db Hu).
    + eexists. split; [reflexivity |].
      eexists. split; [reflexivity | apply Permutation_refl].
    + simpl. rewrite cardFundingSchema_cases. intro H.
      apply app_eq_nil in H as [_ H]. contradiction.
  - intros env ctx u accountId amount routingNumber db refused Hu Hi Ha.
    apply (fundAccount_valid_input env ctx u _ db refused Hu).
    simpl. rewrite cardFundingSchema_cases, Hi, Ha. reflexivity.
Qed.

(** The card numbers of the router's tests. *)
Example card_4242_accepted :
  cardFundingSchema ["fundingSource"] (js "4242424242424242") = []
  /\ detectCardType (js "4242 4242 4242 4242") = Some visa.
Proof. split; vm_compute; reflexivity. Qed.

Example card_1234_invalid :
  passesLuhn (js "1234567890123456") = false
  /\ map message (cardFundingSchema ["fundingSource"] (js "1234567890123456"))
     = [Some "Card number is invalid"; Some "Unsupported or unknown card type"].
Proof. split; vm_compute; reflexivity. Qed.

Example card_9000_unsupported :
  passesLuhn (js "9000000000000001") = true
  /\ map message (cardFundingSchema ["fundingSource"] (js "9000000000000001"))
     = [Some "Unsupported or unknown card type"].
Proof. split; vm_compute; reflexivity. Qed.

(** *** The reach of the Mastercard patterns *)

Lemma test_false_lang r s : test r s = false <-> ~ lang r s.
Proof.
  rewrite <- test_lang. destruct (test r s); split; congruence.
Qed.

Lemma digit_bounds c : digit c = true <-> (48 <= c <= 57)%N.
Proof.
  unfold digit, range, cu. simpl N_of_ascii.
  rewrite andb_true_iff, !N.leb_le. reflexivity.
Qed.

Lemma digit_not_space c : digit c = true -> space c = false.
Proof.
  intro H. apply digit_bounds in H. unfold space.
  repeat match goal with
         | |- context [N.leb ?a ?b] => destruct (N.leb_spec a b); try lia
         | |- context [N.eqb ?a ?b] => destruct (N.eqb_spec a b); try lia
         end;
    try reflexivity.
Qed.

Lemma strip_spaces_digits s : forallb digit s = true -> strip_spaces s = s.
Proof.
  unfold strip_spaces. induction s as [| c s IH]; simpl; [reflexivity |].
  intro H. apply andb_true_iff in H as [Hc Hs].
  rewrite (digit_not_space c Hc). simpl. now rewrite IH.
Qed.

(** A string the newer pattern matches has 15 code units, or 16 of which
    the first four spell 2720. *)
Lemma re_mastercard_new_shape s :
  test re_mastercard_new s = true ->
  length s = 15%nat \/ (length s = 16%nat /\ firstn 4 s = js "2720").
Proof.
  rewrite test_lang. unfold re_mastercard_new, seq, alts, ch, rg, dg.
  intro H. apply lang_cat_inv in H as (u & v & -> & Hu & H).
  apply lang_cls_inv in Hu as (c & -> & Hc).
  apply lang_cat_inv in H as (m & t & -> & Hm & Ht).
  apply lang_times_cls in Ht as [Ht _].
  rewrite !length_app, Ht. simpl length.
  repeat (apply lang_alt_inv in Hm as [Hm | Hm]).
  - apply lang_cat_inv in Hm as (a & z & -> & Ha & Hz).
    apply lang_cls_inv in Ha as (a' & -> & _).
    apply lang_cat_inv in Hz as (b & z' & -> & Hb & Hz).
    apply lang_cls_inv in Hb as (b' & -> & _).
    apply lang_times_cls in Hz as [Hz _].
    left. simpl. rewrite Hz. reflexivity.
  - apply lang_cat_inv in Hm as (a & z & -> & Ha & Hz).
    apply lang_cls_inv in Ha as (a' & -> & _).
    apply lang_times_cls in Hz as [Hz _].
    left. simpl. rewrite Hz. reflexivity.
  - apply lang_cat_inv in Hm as (a & z & -> & Ha & Hz).
    apply lang_cls_inv in Ha as (a' & -> & _).
    apply lang_cat_inv in Hz as (b & z' & -> & Hb & Hz).
    apply lang_cls_inv in Hb as (b' & -> & _).
    apply lang_times_cls in Hz as [Hz _].
    left. simpl. rewrite Hz. reflexivity.
  - apply lang_cat_inv in Hm as (a & z & -> & Ha & Hz).
    apply lang_cls_inv in Ha as (a' & -> & Ha).
    apply lang_cat_inv in Hz as (b & z' & -> & Hb & Hz).
    apply lang_cls_inv in Hb as (b' & -> & Hb).
    apply lang_cat_inv in Hz as (d & z'' & -> & Hd & Hz).
    apply lang_cls_inv in Hd as (d' & -> & Hd).
    apply lang_times_cls in Hz as [Hz _].
    apply N.eqb_eq in Hc, Ha, Hb, Hd. subst c a' b' d'.
    right. simpl. rewrite Hz. split; reflexivity.
Qed.

(** A string the older pattern matches starts with a 5. *)
Lemma re_mastercard_old_shape s :
  test re_mastercard_old s = true -> exists t, s = cu "5" :: t.
Proof.
  rewrite test_lang. unfold re_mastercard_old, seq, ch.
  intro H. apply lang_cat_inv in H as (u & v & -> & Hu & _).
  apply lang_cls_inv in Hu as (c & -> & Hc).
  apply N.eqb_eq in Hc. subst c. simpl. eexists. reflexivity.
Qed.

(** The first four digits of a digit string and the number they spell. *)
Lemma numeric_prefix_4 s :
  (4 <= length s)%nat -> forallb digit s = true ->
  exists a b c d t,
    s = a :: b :: c :: d :: t
    /\ (48 <= a <= 57 /\ 48 <= b <= 57 /\ 48 <= c <= 57 /\ 48 <= d <= 57)%N
    /\ numeric_prefix 4 s
       = 1000 * (Z.of_N a - 48) + 100 * (Z.of_N b - 48)
         + 10 * (Z.of_N c - 48) + (Z.of_N d - 48).
Proof.
  intros Hl Hd. destruct s as [| a [| b [| c [| d t]]]]; simpl in Hl; try lia.
  assert (HF : Forall (fun x => (48 <= x <= 57)%N) (a :: b :: c :: d :: t)).
  { apply Forall_forall. intros x Hx. apply digit_bounds.
    rewrite forallb_forall in Hd. auto. }
  rewrite !Forall_cons_iff in HF. destruct HF as (Ha & Hb & Hc & Hd' & _).
  exists a, b, c, d, t. split; [reflexivity |]. split; [tauto |].
  unfold numeric_prefix, parseInt10. cbn [firstn fold_left]. lia.
Qed.

(** Four digits that spell 2720 are the code units of "2720". *)
Lemma numeric_prefix_2720 s :
  (4 <= length s)%nat -> forallb digit s = true ->
  numeric_prefix 4 s = 2720 -> firstn 4 s = js "2720".
Proof.
  intros Hl Hd H.
  destruct (numeric_prefix_4 s Hl Hd) as (a & b & c & d & t & -> & Hb & Hn).
  rewrite Hn in H.
  assert (a = 50 /\ b = 55 /\ c = 50 /\ d = 48)%N as (-> & -> & -> & ->) by lia.
  reflexivity.
Qed.

(** Of the sixteen-digit strings whose four-digit prefix lies in 2221 to
    2720, [detectCardType] classifies as mastercard those of prefix 2720 and
    no other. *)
Lemma detectCardType_mastercard_new_range s :
  length s = 16%nat -> forallb digit s = true ->
  2221 <= numeric_prefix 4 s <= 2720 ->
  detectCardType s = Some mastercard <-> numeric_prefix 4 s = 2720.
Proof.
  intros Hl Hd Hp. unfold detectCardType. cbv zeta.
  rewrite (strip_spaces_digits s Hd).
  destruct (numeric_prefix_4 s ltac:(lia) Hd)
    as (a & b & c & d & t & Hs & Hb & Hn).
  assert (Hv : test re_visa s = false).
  { apply test_false_lang. unfold re_visa, seq, ch. intro H.
    apply lang_cat_inv in H as (u & v & Huv & Hu & _).
    apply lang_cls_inv in Hu as (x & -> & Hx). apply N.eqb_eq in Hx.
    rewrite Hs in Huv. simpl in Huv. injection Huv as -> _.
    unfold cu in Hx. simpl in Hx. subst x. rewrite Hn in Hp. lia. }
  assert (Ho : test re_mastercard_old s = false).
  { destruct (test re_mastercard_old s) eqn:E; [| reflexivity].
    apply re_mastercard_old_shape in E as [v Hv'].
    rewrite Hs in Hv'. injection Hv' as -> _.
    unfold cu in Hn. simpl N_of_ascii in Hn. rewrite Hn in Hp. lia. }
  rewrite Hv, Ho. simpl orb. split.
  - destruct (test re_mastercard_new s) eqn:E.
    + intros _. apply re_mastercard_new_shape in E as [E | [_ E]]; [lia |].
      unfold numeric_prefix. rewrite E. reflexivity.
    + destruct (test re_amex s); [discriminate |].
      destruct (test re_discover s); [discriminate |].
      destruct (test re_jcb s); discriminate.
  - intro H. apply numeric_prefix_2720 in H; [| lia | assumption].
    assert (E : test re_mastercard_new s = true).
    { clear Hs Hn Hb. rewrite <- (firstn_skipn 4 s) in Hd |- *.
      rewrite H in Hd |- *.
      assert (Hk : length (skipn 4 s) = 12%nat) by (rewrite length_skipn; lia).
      destruct (skipn 4 s) as [| x [| y r]]; simpl in Hk; try lia.
      rewrite forallb_app in Hd. apply andb_true_iff in Hd as [_ Hd].
      simpl in Hd. apply andb_true_iff in Hd as [Hx Hd].
      apply andb_true_iff in Hd as [Hy Hd].
      apply test_lang. unfold re_mastercard_new, seq, alts, ch, rg, dg.
      change (js "2720" ++ x :: y :: r)
        with ([cu "2"] ++ ([cu "7"] ++ [cu "2"] ++ [cu "0"] ++ [x; y]) ++ r).
      constructor; [constructor; apply N.eqb_refl |].
      constructor.
      * do 3 apply lang_alt_r.
        repeat (constructor; [constructor; apply N.eqb_refl |]).
        apply lang_times_cls. simpl. now rewrite Hx, Hy.
      * apply lang_times_cls. split; [lia | assumption]. }
    now rewrite E.
Qed.

(** ** Store operations *)

Lemma find_app_none {A} (p : A -> bool) (l l' : list A) :
  find p l = None -> find p (l ++ l') = find p l'.
Proof.
  induction l as [| a l IH]; simpl; [reflexivity |].
  destruct (p a); [discriminate | exact IH].
Qed.

Lemma filter_delete_where {A} (p : A -> bool) (rows : list A) :
  filter p (delete_where p rows) = [].
Proof.
  unfold delete_where. induction rows as [| r rows IH]; simpl; [reflexivity |].
  destruct (p r) eqn:E; simpl; [exact IH |]. now rewrite E.
Qed.

Lemma delete_where_other {A} (p q : A -> bool) (rows : list A) :
  (forall r, q r = true -> p r = false) ->
  filter q (delete_where p rows) = filter q rows.
Proof.
  intro H. unfold delete_where. induction rows as [| r rows IH]; simpl; [reflexivity |].
  destruct (q r) eqn:Eq.
  - rewrite (H r Eq). simpl. rewrite Eq. now rewrite IH.
  - destruct (p r); simpl; [| rewrite Eq]; exact IH.
Qed.

(** ** Auth router *)

Section AuthRouterFacts.

Variable bcrypt_hash : jsstring -> Z -> jsstring -> jsstring.
Variable bcrypt_compare : jsstring -> jsstring -> bool.
Variable jwt_encode : JwtPayload -> jsstring.
Variable Date_parse : jsstring -> option Date.
Variable unicode_toUpperCase : jsstring -> jsstring.

Lemma issued_one_session id env db :
  filter (by_userId id) (sessions (issued jwt_encode id env db))
  = [Session.mk id (jwt_sign jwt_encode id (now env)) (expiresAt (now env))].
Proof.
  unfold issued. simpl. rewrite filter_app, filter_delete_where. simpl.
  unfold by_userId at 1. simpl. now rewrite Z.eqb_refl.
Qed.

(** What a successful [login] has done. *)
Lemma login_success env raw db r db' :
  login bcrypt_compare jwt_encode env raw db = (inr r, db') ->
  exists u,
    select_get (by_email (LoginInput.email raw)) (users db) = Some u
    /\ bcrypt_compare (LoginInput.password raw) (User.password u) = true
    /\ r = AuthResult.mk (profile u) (jwt_sign jwt_encode (User.id u) (now env))
    /\ db' = issued jwt_encode (User.id u) env db.
Proof.
  unfold login, login_input, bind, parse, check, query.
  destruct (is_email (LoginInput.email raw)); [| discriminate].
  unfold ret at 1. simpl.
  destruct (select_get _ (users db)) as [u |] eqn:Eu; [| discriminate].
  destruct (bcrypt_compare _ _) eqn:Ec; [| discriminate].
  simpl. unfold exec, ret. intro H. injection H as <- <-.
  exists u. repeat split; auto.
Qed.

(** The failures of [login] past its input schema leave the store alone. *)
Lemma login_unknown_email env raw db :
  is_email (LoginInput.email raw) = true ->
  select_get (by_email (LoginInput.email raw)) (users db) = None ->
  login bcrypt_compare jwt_encode env raw db
  = (inl (TRPCError UNAUTHORIZED "Invalid credentials"), db).
Proof.
  intros He Hu. unfold login, login_input, bind, parse, check, query.
  rewrite He. unfold ret at 1. simpl. now rewrite Hu.
Qed.

Lemma login_wrong_password env raw db u :
  is_email (LoginInput.email raw) = true ->
  select_get (by_email (LoginInput.email raw)) (users db) = Some u ->
  bcrypt_compare (LoginInput.password raw) (User.password u) = false ->
  login bcrypt_compare jwt_encode env raw db
  = (inl (TRPCError UNAUTHORIZED "Invalid credentials"), db).
Proof.
  intros He Hu Hc. unfold login, login_input, bind, parse, check, query.
  rewrite He. unfold ret at 1. simpl. rewrite Hu, Hc. reflexivity.
Qed.

(** What [signup] does with an input its schema lets through, for an email
    no user has. *)
Lemma signup_success env raw db :
  fst (signup_input Date_parse unicode_toUpperCase (now env) raw) = [] ->
  select_get (by_email (toLowerCase (SignupInput.email raw))) (users db) = None ->
  let input := snd (signup_input Date_parse unicode_toUpperCase (now env) raw) in
  let u :=
    new_user input
      (bcrypt_hash (SignupInput.password raw) 10 (password_salt env))
      (bcrypt_hash (SignupInput.ssn raw) 12 (ssn_salt env)) (users db) in
  signup bcrypt_hash jwt_encode Date_parse unicode_toUpperCase env raw db
  = (inr (AuthResult.mk (profile u) (jwt_sign jwt_encode (User.id u) (now env))),
     issued jwt_encode (User.id u) env (set_users (fun rows => rows ++ [u]) db)).
Proof.
  intros Hi Hn. cbv zeta. unfold signup, bind.
  destruct (signup_input Date_parse
      unicode_toUpperCase (now env) raw) as [issues input] eqn:E.
  simpl in Hi. subst issues.
  assert (Hin : input = snd (signup_input Date_parse
      unicode_toUpperCase (now env) raw)) by now rewrite E.
  unfold signup_input in Hin. simpl in Hin. subst input.
  unfold parse, ret at 1, query at 1.
  cbn [SignupInput.email SignupInput.password SignupInput.ssn].
  rewrite Hn. unfold exec at 1, query at 1.
  cbn [users set_users]. rewrite (find_app_none _ _ _ Hn).
  unfold select_get. cbn [find].
  match goal with
  | |- context [by_email ?e ?u] =>
      assert (Hb : by_email e u = true) by apply jsstring_eqb_refl
  end.
  rewrite Hb. reflexivity.
Qed.

Lemma signup_one_session env raw db r db' :
  fst (signup_input Date_parse unicode_toUpperCase (now env) raw) = [] ->
  select_get (by_email (toLowerCase (SignupInput.email raw))) (users db) = None ->
  signup bcrypt_hash jwt_encode Date_parse unicode_toUpperCase env raw db = (inr r, db') ->
  exists s,
    filter (by_userId (Profile.id (AuthResult.user r))) (sessions db') = [s]
    /\ Session.token s = AuthResult.token r.
Proof.
  intros Hi Hn. rewrite (signup_success env raw db Hi Hn). cbv zeta.
  intro H. injection H as <- <-. eexists. split.
  - apply issued_one_session.
  - reflexivity.
Qed.

Lemma login_one_session env raw db r db' :
  login bcrypt_compare jwt_encode env raw db = (inr r, db') ->
  exists s,
    filter (by_userId (Profile.id (AuthResult.user r))) (sessions db') = [s]
    /\ Session.token s = AuthResult.token r.
Proof.
  intro H. apply login_success in H as (u & _ & _ & -> & ->).
  eexists. split.
  - apply issued_one_session.
  - reflexivity.
Qed.

End AuthRouterFacts.

(** C2.  Two successful logins of one user whose clock readings fall in the
    same second mint the same token: the session that survives the second
    login carries the token the first login issued, whatever the signing
    function is.  (That exactly one session of the user survives is
    [login_one_session] and [signup_one_session].) *)
Theorem login_twice_within_a_second_reissues_token
  (bcrypt_compare : jsstring -> jsstring -> bool)
  (jwt_encode : JwtPayload -> jsstring)
  (env1 env2 : Env) (raw : LoginInput.t) (db db1 db2 : Db)
  (r1 r2 : AuthResult.t) :
  login bcrypt_compare jwt_encode env1 raw db = (inr r1, db1) ->
  login bcrypt_compare jwt_encode env2 raw db1 = (inr r2, db2) ->
  getTime (now env1) / 1000 = getTime (now env2) / 1000 ->
  AuthResult.token r2 = AuthResult.token r1
  /\ map Session.token
       (filter (by_userId (Profile.id (AuthResult.user r2))) (sessions db2))
     = [AuthResult.token r1].
Proof.
  intros H1 H2 Ht.
  apply login_success in H1 as (u1 & Hu1 & _ & -> & ->).
  apply login_success in H2 as (u2 & Hu2 & _ & -> & ->).
  simpl in Hu2. rewrite Hu1 in Hu2. injection Hu2 as <-.
  assert (Htok : jwt_sign jwt_encode (User.id u1) (now env2)
                  = jwt_sign jwt_encode (User.id u1) (now env1)).
  { unfold jwt_sign. cbv zeta. now rewrite Ht. }
  split.
  - exact Htok.
  - cbn [AuthResult.user AuthResult.token profile Profile.id].
    rewrite issued_one_session. simpl. now rewrite Htok.
Qed.

Lemma login_twice_within_a_second_witness :
  exists r1 db1 r2 db2,
    login demo_compare demo_jwt demo_env
      (LoginInput.mk (js "multi@example.com") (js "Aa1!good!")) demo_db
    = (inr r1, db1)
    /\ login demo_compare demo_jwt demo_env_later
         (LoginInput.mk (js "multi@example.com") (js "Aa1!good!")) db1
       = (inr r2, db2)
    /\ AuthResult.token r2 = AuthResult.token r1
    /\ map Session.token
         (filter (by_userId (Profile.id (AuthResult.user r2))) (sessions db2))
       = [AuthResult.token r1].
Proof.
  eexists _, _, _, _.
  split; [vm_compute; reflexivity |].
  split; [vm_compute; reflexivity |].
  eapply (login_twice_within_a_second_reissues_token
            demo_compare demo_jwt demo_env demo_env_later
            (LoginInput.mk (js "multi@example.com") (js "Aa1!good!")) demo_db).
  - vm_compute; reflexivity.
  - vm_compute; reflexivity.
  - vm_compute; reflexivity.
Defined.

(** C9.  A login with an email no user has and a login with a user's email
    and a password the hash comparison refuses, both past the input schema,
    end alike: the same [UNAUTHORIZED] failure with the one message "Invalid
    credentials", and a store left as it was. *)
Theorem login_failures_are_indistinguishable
  (bcrypt_compare : jsstring -> jsstring -> bool)
  (jwt_encode : JwtPayload -> jsstring)
  (env1 env2 : Env) (unknown wrong : LoginInput.t) (db : Db) (u : User.t) :
  is_email (LoginInput.email unknown) = true ->
  is_email (LoginInput.email wrong) = true ->
  select_get (by_email (LoginInput.email unknown)) (users db) = None ->
  select_get (by_email (LoginInput.email wrong)) (users db) = Some u ->
  bcrypt_compare (LoginInput.password wrong) (User.password u) = false ->
  login bcrypt_compare jwt_encode env1 unknown db
  = (inl (TRPCError UNAUTHORIZED "Invalid credentials"), db)
  /\ login bcrypt_compare jwt_encode env2 wrong db
     = login bcrypt_compare jwt_encode env1 unknown db.
Proof.
  intros He1 He2 Hn Hs Hc.
  rewrite (login_unknown_email _ _ env1 unknown db He1 Hn).
  rewrite (login_wrong_password _ _ env2 wrong db u He2 Hs Hc).
  split; reflexivity.
Qed.

Lemma login_failures_are_indistinguishable_witness :
  login demo_compare demo_jwt demo_env
    (LoginInput.mk (js "nobody@example.com") (js "Aa1!good!")) demo_db
  = (inl (TRPCError UNAUTHORIZED "Invalid credentials"), demo_db)
  /\ login demo_compare demo_jwt demo_env_later
       (LoginInput.mk (js "multi@example.com") (js "Wrong1!pass")) demo_db
     = login demo_compare demo_jwt demo_env
         (LoginInput.mk (js "nobody@example.com") (js "Aa1!good!")) demo_db.
Proof.
  apply (login_failures_are_indistinguishable demo_compare demo_jwt
           demo_env demo_env_later
           (LoginInput.mk (js "nobody@example.com") (js "Aa1!good!"))
           (LoginInput.mk (js "multi@example.com") (js "Wrong1!pass"))
           demo_db demo_user);
    vm_compute; reflexivity.
Defined.

(** A login whose email is not an address is turned away by the input
    schema, with a validation failure on the email field, before any user is
    looked up: an attempt with an email that matches no user is then told
    apart from an attempt with a wrong password. *)
Lemma login_malformed_email_is_a_validation_failure :
  select_get (by_email (js "not-an-email")) (users demo_db) = None
  /\ login demo_compare demo_jwt demo_env
       (LoginInput.mk (js "not-an-email") (js "Aa1!good!")) demo_db
     = (inl (ZodError [mkIssue ["email"] None]), demo_db)
  /\ login demo_compare demo_jwt demo_env
       (LoginInput.mk (js "multi@example.com") (js "Wrong1!pass")) demo_db
     = (inl (TRPCError UNAUTHORIZED "Invalid credentials"), demo_db)
  /\ fst (login demo_compare demo_jwt demo_env
            (LoginInput.mk (js "not-an-email") (js "Aa1!good!")) demo_db)
     <> fst (login demo_compare demo_jwt demo_env
               (LoginInput.mk (js "multi@example.com") (js "Wrong1!pass")) demo_db).
Proof.
  split; [vm_compute; reflexivity |].
  split; [vm_compute; reflexivity |].
  split; [vm_compute; reflexivity |].
  vm_compute. discriminate.
Qed.

Lemma in_check ok p m i : In i (check ok p m) -> path i = p /\ ok = false.
Proof.
  unfold check. destruct ok; [contradiction |].
  intros [<- | []]. auto.
Qed.

(** The input schema of [signup] raises an issue about [state] for no string
    of two code units. *)
Lemma signup_input_state_issue Date_parse unicode_toUpperCase today raw i :
  In i (fst (signup_input Date_parse unicode_toUpperCase today raw)) ->
  path i = ["state"] ->
  length (SignupInput.state raw) <> 2%nat.
Proof.
  unfold signup_input, passwordSchema. cbn [fst]. intros Hin Hp Hl.
  apply Nat.eqb_eq in Hl.
  repeat match goal with
         | H : In _ (_ ++ _) |- _ => apply in_app_or in H as [H | H]
         | H : In _ (check _ _ _) |- _ =>
             apply in_check in H as [H1 H2]; rewrite H1 in Hp;
             first [discriminate Hp | congruence]
         end.
Qed.

(** A sign-up with a two-letter state stores the state in capitals. *)
Lemma signup_stores_state_uppercased
  bcrypt_hash jwt_encode Date_parse unicode_toUpperCase env raw db r db' :
  fst (signup_input Date_parse unicode_toUpperCase (now env) raw) = [] ->
  select_get (by_email (toLowerCase (SignupInput.email raw))) (users db) = None ->
  signup bcrypt_hash jwt_encode Date_parse unicode_toUpperCase env raw db = (inr r, db') ->
  Profile.state (AuthResult.user r) = toUpperCase
      unicode_toUpperCase (SignupInput.state raw)
  /\ exists u, users db' = users db ++ [u]
               /\ User.state u = toUpperCase unicode_toUpperCase (SignupInput.state raw)
               /\ User.email u = toLowerCase (SignupInput.email raw).
Proof.
  intros Hi Hn. rewrite (signup_success _ _ _ _ env raw db Hi Hn). cbv zeta.
  intro H. injection H as <- <-. split; [reflexivity |].
  eexists. split; [reflexivity |]. split; reflexivity.
Qed.

(** A state of two code units outside ASCII goes through the schema and is
    stored as the engine upper-cases it: with the stand-ins, a sharp s and
    a digit are stored as three code units. *)
Example signup_state_outside_ascii :
  exists r db',
    signup demo_hash demo_jwt demo_Date_parse demo_toUpperCase demo_env
      (SignupInput.mk (js "sharp@example.com") (js "Aa1!good!") (js "Test")
         (js "User") (js "+14155550123") (js "1990-01-01") (js "111111111")
         (js "123 Main St") (js "City") [223%N; 49%N] (js "07001")) empty_db
    = (inr r, db')
    /\ Profile.state (AuthResult.user r) = js "SS1".
Proof. eexists _, _. split; vm_compute; reflexivity. Qed.

Example demo_Date_parse_today :
  demo_Date_parse (js "2025-11-02") = Some demo_now
  /\ dateOfBirth_ok demo_Date_parse demo_now (js "1990-01-01") = true
  /\ dateOfBirth_ok demo_Date_parse demo_now (js "2007-11-02") = true
  /\ dateOfBirth_ok demo_Date_parse demo_now (js "2007-11-03") = false
  /\ dateOfBirth_ok demo_Date_parse demo_now (js "2999-01-01") = false.
Proof. repeat split; vm_compute; reflexivity. Qed.

(** C7.  The sign-up of the router's own test, with the address
    [oops@example.con], is not rejected: for a birth date the age check lets
    through and an address no user has, [signup] creates the user under that
    address and returns it, with no "did you mean" failure. *)
Theorem signup_accepts_con_address
  (bcrypt_hash : jsstring -> Z -> jsstring -> jsstring)
  (jwt_encode : JwtPayload -> jsstring)
  (Date_parse : jsstring -> option Date)
  (unicode_toUpperCase : jsstring -> jsstring) (env : Env) (db : Db) :
  dateOfBirth_ok Date_parse (now env) (js "1990-01-01") = true ->
  select_get (by_email (js "oops@example.con")) (users db) = None ->
  exists r u,
    signup bcrypt_hash jwt_encode Date_parse unicode_toUpperCase env signup_con db
    = (inr r, issued jwt_encode (User.id u) env (set_users (fun rows => rows ++ [u]) db))
    /\ User.email u = js "oops@example.con"
    /\ Profile.email (AuthResult.user r) = js "oops@example.con".
Proof.
  intros Hd Hn.
  assert (Hi : fst (signup_input Date_parse unicode_toUpperCase (now env) signup_con) = []).
  { unfold signup_input, signup_con. cbn [fst SignupInput.dateOfBirth].
    rewrite Hd. vm_compute. reflexivity. }
  pose proof (signup_success bcrypt_hash jwt_encode Date_parse
      unicode_toUpperCase env signup_con db Hi Hn) as H.
  cbv zeta in H. eexists _, _. split; [exact H |]. split; reflexivity.
Qed.

Lemma signup_accepts_con_address_witness :
  exists r u,
    signup demo_hash demo_jwt demo_Date_parse demo_toUpperCase demo_env signup_con empty_db
    = (inr r, issued demo_jwt (User.id u) demo_env
                (set_users (fun rows => rows ++ [u]) empty_db))
    /\ User.email u = js "oops@example.con"
    /\ Profile.email (AuthResult.user r) = js "oops@example.con".
Proof.
  apply (signup_accepts_con_address demo_hash demo_jwt demo_Date_parse demo_toUpperCase
           demo_env empty_db); vm_compute; reflexivity.
Defined.

(** C8.  The sign-up of the router's own test with the state [XX] is not
    rejected: for a birth date the age check lets through and an address no
    user has, [signup] creates the user with the state [XX]. *)
Theorem signup_accepts_unknown_state
  (bcrypt_hash : jsstring -> Z -> jsstring -> jsstring)
  (jwt_encode : JwtPayload -> jsstring)
  (Date_parse : jsstring -> option Date)
  (unicode_toUpperCase : jsstring -> jsstring) (env : Env) (db : Db) :
  dateOfBirth_ok Date_parse (now env) (js "1990-01-01") = true ->
  select_get (by_email (js "bad@example.com")) (users db) = None ->
  exists r u,
    signup bcrypt_hash jwt_encode Date_parse unicode_toUpperCase env signup_XX db
    = (inr r, issued jwt_encode (User.id u) env (set_users (fun rows => rows ++ [u]) db))
    /\ User.state u = js "XX"
    /\ Profile.state (AuthResult.user r) = js "XX".
Proof.
  intros Hd Hn.
  assert (Hi : fst (signup_input Date_parse unicode_toUpperCase (now env) signup_XX) = []).
  { unfold signup_input, signup_XX. cbn [fst SignupInput.dateOfBirth].
    rewrite Hd. vm_compute. reflexivity. }
  pose proof (signup_success bcrypt_hash jwt_encode Date_parse
      unicode_toUpperCase env signup_XX db Hi Hn) as H.
  cbv zeta in H. eexists _, _. split; [exact H |]. split; reflexivity.
Qed.

Lemma signup_accepts_unknown_state_witness :
  exists r u,
    signup demo_hash demo_jwt demo_Date_parse demo_toUpperCase demo_env signup_XX empty_db
    = (inr r, issued demo_jwt (User.id u) demo_env
                (set_users (fun rows => rows ++ [u]) empty_db))
    /\ User.state u = js "XX"
    /\ Profile.state (AuthResult.user r) = js "XX".
Proof.
  apply (signup_accepts_unknown_state demo_hash demo_jwt demo_Date_parse demo_toUpperCase
           demo_env empty_db); vm_compute; reflexivity.
Defined.

(** [logout] with a user and a token in the request deletes the sessions
    with that token, and nothing else. *)
Lemma logout_deletes_session ctx u c t db :
  user ctx = Some u ->
  request_token (req ctx) = Some (c :: t) ->
  logout ctx db
  = (inr (LogoutResult.mk true "Logged out successfully"),
     set_sessions (delete_where (by_token (c :: t))) db).
Proof.
  intros Hu Ht. unfold logout, bind. rewrite Hu, Ht. reflexivity.
Qed.

(** C6.  [logout] reports [success: true] on every call.  With a user in the
    context and no session token in the request nothing is revoked, yet the
    result is [success: true] with the message "Logged out successfully";
    with no user in the context the message is "No active session", still
    with [success: true].  Neither call touches the store. *)
Theorem logout_reports_success_without_session (db : Db) (u : User.t) :
  logout (mkContext (Some u) (ReqCookies None)) db
  = (inr (LogoutResult.mk true "Logged out successfully"), db)
  /\ logout (mkContext None (ReqCookies None)) db
     = (inr (LogoutResult.mk true "No active session"), db)
  /\ (forall ctx, exists r db',
        logout ctx db = (inr r, db') /\ LogoutResult.success r = true).
Proof.
  split; [reflexivity |]. split; [reflexivity |].
  intro ctx. unfold logout, bind.
  destruct (user ctx); [destruct (request_token (req ctx)) as [[| c0 t0] |] |];
    simpl; eexists _, _; split; reflexivity.
Qed.

(** ** Account router *)

Lemma find_update_where {A} (p : A -> bool) (f : A -> A) (rows : list A) :
  (forall r, p (f r) = p r) ->
  find p (update_where p f rows) = option_map f (find p rows).
Proof.
  intro Hp. unfold update_where.
  induction rows as [| r rows IH]; simpl; [reflexivity |].
  destruct (p r) eqn:E.
  - now rewrite Hp, E.
  - now rewrite E.
Qed.

Lemma find_weaken {A} (p q : A -> bool) (rows : list A) a :
  (forall r, p r = true -> q r = true) ->
  find p rows = Some a -> exists b, find q rows = Some b.
Proof.
  intros Hpq. induction rows as [| r rows IH]; simpl; [discriminate |].
  destruct (q r) eqn:Eq; [eauto |].
  destruct (p r) eqn:Ep; [| exact IH].
  apply Hpq in Ep. congruence.
Qed.

Lemma owned_account_by_id accountId userId a :
  owned_account accountId userId a = true -> by_account_id accountId a = true.
Proof.
  unfold owned_account, by_account_id. intro H.
  apply andb_true_iff in H. tauto.
Qed.

(** What [fundAccount] does for an authenticated caller, an input its schema
    lets through and an active account of the caller: one transaction is
    appended, a completed deposit of the amount into the account; the balance
    of the account becomes the float sum of the balance read and the amount,
    and that sum is the balance returned.  The transaction returned is the
    one of least [createdAt] in the whole table. *)
Lemma fundAccount_effect env ctx u raw db account :
  user ctx = Some u ->
  fst (fundAccount_input raw) = [] ->
  select_get (owned_account (FundInput.accountId raw) (User.id u)) (accounts db)
  = Some account ->
  Account.status account = js "active" ->
  let created := new_transaction env raw (FundInput.amount raw) (transactions db) in
  let balance' := PrimFloat.add (Account.balance account) (FundInput.amount raw) in
  fundAccount env ctx raw db
  = (inr (FundResult.mk
            (order_by_first Transaction.createdAt (transactions db ++ [created]))
            balance'),
     mkDb (users db) (sessions db)
       (update_where (by_account_id (FundInput.accountId raw))
          (set_balance balance') (accounts db))
       (transactions db ++ [created])).
Proof.
  intros Hu Hi Ha Hs. cbv zeta.
  unfold fundAccount, protectedProcedure, bind. rewrite Hu. unfold ret at 1.
  destruct (fundAccount_input raw) as [iss i] eqn:E.
  assert (i = raw) as -> by (unfold fundAccount_input in E; congruence).
  simpl in Hi. subst iss. unfold parse, ret at 1, query at 1.
  rewrite Ha, Hs, jsstring_eqb_refl. change (negb true) with false.
  unfold exec, query. cbv beta iota.
  cbn [transactions set_transactions accounts set_accounts users sessions].
  destruct (find_weaken _ (by_account_id (FundInput.accountId raw)) _ _
              (owned_account_by_id _ _) Ha) as [b Hb].
  unfold select_get. rewrite find_update_where by reflexivity.
  rewrite Hb. reflexivity.
Qed.

(** On an empty transaction table the transaction returned is the one
    created. *)
Lemma fundAccount_first_transaction env ctx u raw db account :
  user ctx = Some u ->
  fst (fundAccount_input raw) = [] ->
  select_get (owned_account (FundInput.accountId raw) (User.id u)) (accounts db)
  = Some account ->
  Account.status account = js "active" ->
  transactions db = [] ->
  exists r db',
    fundAccount env ctx raw db = (inr r, db')
    /\ transactions db' = [new_transaction env raw (FundInput.amount raw) []]
    /\ FundResult.transaction r
       = Some (new_transaction env raw (FundInput.amount raw) []).
Proof.
  intros Hu Hi Ha Hs Ht.
  rewrite (fundAccount_effect env ctx u raw db account Hu Hi Ha Hs).
  cbv zeta. rewrite Ht. eexists _, _. split; [reflexivity |]. split; reflexivity.
Qed.

Lemma next_id_fresh {A} (key : A -> Z) (rows : list A) r :
  In r rows -> key r < next_id key rows.
Proof.
  unfold next_id. induction rows as [| a rows IH]; simpl; [contradiction |].
  intros [-> | H]; [lia |]. specialize (IH H). lia.
Qed.

Lemma order_by_first_old_row {A} (key : A -> Z) (rows : list A) x :
  rows <> [] ->
  (forall r, In r rows -> key r <= key x) ->
  exists r, order_by_first key (rows ++ [x]) = Some r /\ In r rows.
Proof.
  induction rows as [| a rows IH]; intros Hne Hle; [congruence |].
  destruct rows as [| b rows].
  - simpl. pose proof (Hle a (or_introl eq_refl)) as Ha.
    destruct (key x <? key a) eqn:E; [apply Z.ltb_lt in E; lia |].
    exists a. split; [reflexivity | now left].
  - destruct IH as (r & Hr & Hin); [discriminate | intros; apply Hle; now right |].
    change ((a :: b :: rows) ++ [x]) with (a :: ((b :: rows) ++ [x])).
    cbn [order_by_first]. rewrite Hr.
    destruct (key r <? key a).
    + exists r. split; [reflexivity | now right].
    + exists a. split; [reflexivity | now left].
Qed.

(** Once the table holds a transaction stamped no later than the clock of
    the call, the transaction [fundAccount] returns is a row that was there
    before the call, and so not the one it has created. *)
Lemma fundAccount_returns_old_row env ctx u raw db account :
  user ctx = Some u ->
  fst (fundAccount_input raw) = [] ->
  select_get (owned_account (FundInput.accountId raw) (User.id u)) (accounts db)
  = Some account ->
  Account.status account = js "active" ->
  transactions db <> [] ->
  (forall t, In t (transactions db) ->
             Transaction.createdAt t <= getTime (now env) / 1000) ->
  exists r db' old,
    fundAccount env ctx raw db = (inr r, db')
    /\ FundResult.transaction r = Some old
    /\ In old (transactions db)
    /\ old <> new_transaction env raw (FundInput.amount raw) (transactions db).
Proof.
  intros Hu Hi Ha Hs Hne Hle.
  rewrite (fundAccount_effect env ctx u raw db account Hu Hi Ha Hs). cbv zeta.
  destruct (order_by_first_old_row Transaction.createdAt (transactions db)
              (new_transaction env raw (FundInput.amount raw) (transactions db))
              Hne Hle) as (old & Ho & Hin).
  eexists _, _, old. split; [reflexivity |]. split; [exact Ho |].
  split; [exact Hin |]. intro E.
  apply (next_id_fresh Transaction.id) in Hin. rewrite E in Hin.
  unfold new_transaction in Hin. simpl in Hin. lia.
Qed.

(** The funding of the router's test: 50 by card into a fresh account. *)
Example fundAccount_first_deposit :
  let db := mkDb [demo_user] [] [set_balance 0 demo_account] [] in
  let raw := FundInput.mk 1 50 (card (js "4242424242424242") None) in
  let created := new_transaction demo_env raw 50 [] in
  fundAccount demo_env demo_ctx raw db
  = (inr (FundResult.mk (Some created) 50),
     mkDb [demo_user] [] [set_balance 50 demo_account] [created])
  /\ Transaction.status created = js "completed"
  /\ Transaction.type created = js "deposit".
Proof. cbv zeta. repeat split; vm_compute; reflexivity. Qed.

(** The balance is a float sum: 0.2 paid into a balance of 0.1 gives
    0.30000000000000004, which is not the float 0.3. *)
Example fundAccount_balance_is_a_float_sum :
  let db := mkDb [demo_user] [] [set_balance 0.1 demo_account] [] in
  let raw := FundInput.mk 1 0.2 (card (js "4242424242424242") None) in
  exists r db',
    fundAccount demo_env demo_ctx raw db = (inr r, db')
    /\ FundResult.newBalance r = 0.30000000000000004%float
    /\ PrimFloat.eqb (FundResult.newBalance r) 0.3 = false.
Proof.
  cbv zeta. eexists _, _. split; [vm_compute; reflexivity |].
  split; vm_compute; reflexivity.
Qed.

(** C1.  Funding the account of [demo_db], which holds one earlier deposit of
    10, with 25 by card: one transaction is appended, a completed deposit of
    25; the balance goes from 10 to 35 and 35 is the balance returned; the
    transaction returned, though, is the earlier deposit of 10 (row 1), not
    the deposit of 25 just created (row 2). *)
Theorem fundAccount_returns_earliest_transaction :
  fundAccount demo_env demo_ctx fund_25 demo_db
  = (inr (FundResult.mk (Some demo_transaction) 35),
     mkDb [demo_user] [] [set_balance 35 demo_account]
       [demo_transaction;
        Transaction.mk 2 1 (js "deposit") 25 (js "Funding from card")
          (js "completed") 1762041600 1762041600000]).
Proof. vm_compute. reflexivity. Qed.

(** The transactions [getTransactions] returns are the stored rows of the
    account, descriptions included, unchanged. *)
Lemma getTransactions_returns_rows ctx accountId db l db' :
  getTransactions ctx accountId db = (inr l, db') ->
  map EnrichedTransaction.transaction l
  = filter (fun t => Transaction.accountId t =? accountId) (transactions db).
Proof.
  unfold getTransactions, protectedProcedure, bind.
  destruct (user ctx) as [u |]; [| discriminate].
  unfold ret at 1, query at 1.
  destruct (select_get _ _); [| discriminate].
  unfold query. intro H. injection H as <- <-.
  rewrite map_map. simpl. apply map_id.
Qed.

(** C5.  A stored description with a script element comes back from
    [getTransactions] as it is stored: it holds the literal [<script>] tag
    and no escaped [&lt;script&gt;]; it is not the escaped text. *)
Theorem getTransactions_returns_markup_unescaped :
  exists e,
    getTransactions demo_ctx 1 markup_db = (inr [e], markup_db)
    /\ description e = js "<script>alert(1)</script>"
    /\ includes (js "<script>") (description e) = true
    /\ includes (js "&lt;script&gt;") (description e) = false
    /\ escape_markup (js "<script>alert(1)</script>")
       = js "&lt;script&gt;alert(1)&lt;/script&gt;".
Proof.
  eexists. split; [vm_compute; reflexivity |].
  repeat split; vm_compute; reflexivity.
Qed.

(** C3.  The card schema of [fundAccount] does not accept exactly the
    Luhn-valid numbers of a recognized brand.  The number 2221000000000009
    passes the Luhn checksum and is a Mastercard by the ranges of the
    specification (prefix 2221, 16 digits), yet funding with it is refused
    with the message "Unsupported or unknown card type"; and the
    fifteen-digit 230000000000002, Luhn-valid and of no brand by those
    ranges, is accepted and the deposit is made.  With white space in the
    number the outcomes are the same.  (The Luhn half holds on every
    string, [passesLuhn_spec]; the brand half fails by the pattern of the
    newer Mastercard range.) *)
Theorem fundAccount_refuses_luhn_valid_mastercard :
  let unsupported :=
    mkIssue ["fundingSource"; "accountNumber"]
      (Some "Unsupported or unknown card type") in
  luhn_valid (js "2221000000000009")
  /\ recognized_brand (js "2221000000000009") = Some mastercard
  /\ fundAccount demo_env demo_ctx
       (FundInput.mk 1 25 (card (js "2221000000000009") None)) demo_db
     = (inl (ZodError [unsupported]), demo_db)
  /\ fundAccount demo_env demo_ctx
       (FundInput.mk 1 25 (card (js "2221 0000 0000 0009") None)) demo_db
     = (inl (ZodError [unsupported]), demo_db)
  /\ luhn_valid (js "230000000000002")
  /\ recognized_brand (js "230000000000002") = None
  /\ (exists r db',
        fundAccount demo_env demo_ctx
          (FundInput.mk 1 25 (card (js "230000000000002") None)) demo_db
        = (inr r, db')
        /\ FundResult.newBalance r = 35%float)
  /\ issue_mentions "unsupported" unsupported = true
  /\ issue_mentions "invalid" unsupported = false.
Proof.
  cbv zeta.
  split; [apply passesLuhn_spec; vm_compute; reflexivity |].
  split; [vm_compute; reflexivity |].
  split; [vm_compute; reflexivity |].
  split; [vm_compute; reflexivity |].
  split; [apply passesLuhn_spec; vm_compute; reflexivity |].
  split; [vm_compute; reflexivity |].
  split; [| split; vm_compute; reflexivity].
  eexists _, _. split; vm_compute; reflexivity.
Qed.

(** C4.  The sixteen-digit number 2221000000000009, whose prefix 2221 opens
    the newer Mastercard range, passes the Luhn checksum and is given no
    brand; so is 2719999999999999 at the far end of the range.  Of the
    sixteen-digit numbers of the range only those with the prefix 2720 are
    classified as mastercard ([detectCardType_mastercard_new_range]), while
    the fifteen-digit 222000000000000 is. *)
Theorem detectCardType_misses_mastercard_2221 :
  detectCardType (js "2221000000000009") = None
  /\ passesLuhn (js "2221000000000009") = true
  /\ detectCardType (js "2719999999999999") = None
  /\ detectCardType (js "2720990000000007") = Some mastercard
  /\ detectCardType (js "222000000000000") = Some mastercard.
Proof. repeat split; vm_compute; reflexivity. Qed.

(** ** Account numbers *)

Lemma decimal_value_acc s : forall a,
  fold_left (fun acc c => acc * 10 + parseInt10 c) s a
  = a * 10 ^ Z.of_nat (length s) + decimal_value s.
Proof.
  unfold decimal_value. induction s as [| c s IH]; intro a.
  - simpl. lia.
  - cbn [fold_left length]. rewrite IH, (IH (0 * 10 + parseInt10 c)).
    rewrite Nat2Z.inj_succ, Z.pow_succ_r by lia. lia.
Qed.

Lemma decimal_value_cons c s :
  decimal_value (c :: s) = parseInt10 c * 10 ^ Z.of_nat (length s) + decimal_value s.
Proof.
  unfold decimal_value at 1. cbn [fold_left]. rewrite decimal_value_acc. lia.
Qed.

Lemma decimal_value_zeros n s :
  decimal_value (repeat (cu "0") n ++ s) = decimal_value s.
Proof.
  induction n as [| n IH]; cbn [repeat app]; [reflexivity |].
  rewrite decimal_value_cons, IH. unfold parseInt10, cu. simpl. lia.
Qed.

Lemma digit_of_mod n : 0 <= n -> digit (Z.to_N (48 + n mod 10)) = true.
Proof.
  intro H. apply digit_bounds.
  pose proof (Z.mod_pos_bound n 10 ltac:(lia)). lia.
Qed.

(** The digits peeled off a number spell it, given fuel for all of them. *)
Lemma decimal_digits_spec fuel : forall num acc,
  0 <= num < 2 ^ Z.of_nat fuel ->
  forallb digit acc = true ->
  let s := decimal_digits fuel num acc in
  forallb digit s = true
  /\ decimal_value s = num * 10 ^ Z.of_nat (length acc) + decimal_value acc.
Proof.
  induction fuel as [| fuel IH]; intros num acc Hn Ha; cbv zeta.
  - simpl in Hn. assert (num = 0) as -> by lia. simpl. split; [assumption | lia].
  - cbn [decimal_digits]. cbv zeta.
    pose proof (Z.mod_pos_bound num 10 ltac:(lia)) as Hm.
    pose proof (Z.div_mod num 10 ltac:(lia)) as Hd.
    assert (Hacc : forallb digit (Z.to_N (48 + num mod 10) :: acc) = true).
    { cbn [forallb]. rewrite digit_of_mod by lia. exact Ha. }
    assert (Hv : decimal_value (Z.to_N (48 + num mod 10) :: acc)
                 = num mod 10 * 10 ^ Z.of_nat (length acc) + decimal_value acc).
    { rewrite decimal_value_cons. unfold parseInt10. rewrite Z2N.id by lia.
      f_equal. f_equal. lia. }
    destruct (num <? 10) eqn:E.
    + apply Z.ltb_lt in E. split; [exact Hacc |].
      rewrite Hv. rewrite Z.mod_small by lia. reflexivity.
    + apply Z.ltb_ge in E.
      assert (Hq : 0 <= num / 10 < 2 ^ Z.of_nat fuel).
      { rewrite Nat2Z.inj_succ, Z.pow_succ_r in Hn by lia.
        split; [apply Z.div_pos; lia |].
        apply Z.div_lt_upper_bound; lia. }
      destruct (IH (num / 10) _ Hq Hacc) as [Hf Hs]. cbv zeta in Hf, Hs.
      split; [exact Hf |]. rewrite Hs, Hv. cbn [length].
      rewrite Nat2Z.inj_succ, Z.pow_succ_r by lia. nia.
Qed.

Lemma decimal_digits_length fuel : forall num acc k,
  0 <= num < 10 ^ Z.of_nat (S k) ->
  (length (decimal_digits fuel num acc) <= length acc + S k)%nat.
Proof.
  induction fuel as [| fuel IH]; intros num acc k Hn.
  - simpl. lia.
  - cbn [decimal_digits]. cbv zeta. destruct (num <? 10) eqn:E.
    + simpl. lia.
    + apply Z.ltb_ge in E. destruct k as [| k].
      * simpl in Hn. lia.
      * assert (Hq : 0 <= num / 10 < 10 ^ Z.of_nat (S k)).
        { rewrite (Nat2Z.inj_succ (S k)), Z.pow_succ_r in Hn by lia.
          split; [apply Z.div_pos; lia |].
          apply Z.div_lt_upper_bound; lia. }
        specialize (IH (num / 10) (Z.to_N (48 + num mod 10) :: acc) k Hq).
        cbn [length] in IH. lia.
Qed.

Lemma toString_spec num :
  0 <= num ->
  forallb digit (toString num) = true /\ decimal_value (toString num) = num.
Proof.
  intro H. unfold toString.
  assert (Hb : 0 <= num < 2 ^ Z.of_nat (S (Z.to_nat (Z.log2 num)))).
  { split; [assumption |].
    rewrite Nat2Z.inj_succ, Z2Nat.id by apply Z.log2_nonneg.
    destruct (Z.eq_dec num 0) as [-> | Hz]; [simpl; lia |].
    apply Z.log2_spec. lia. }
  destruct (decimal_digits_spec _ num [] Hb eq_refl) as [Hf Hv].
  cbv zeta in Hf, Hv. split; [exact Hf |]. rewrite Hv.
  change (decimal_value []) with 0. change (Z.of_nat (length (@nil N))) with 0.
  rewrite Z.pow_0_r. lia.
Qed.

Lemma generateAccountNumber_digits n :
  0 <= n < 10 ^ 10 ->
  length (generateAccountNumber n) = 10%nat
  /\ forallb digit (generateAccountNumber n) = true
  /\ decimal_value (generateAccountNumber n) = n.
Proof.
  intros Hn. unfold generateAccountNumber, padStart.
  destruct (toString_spec n ltac:(lia)) as [Hf Hv].
  assert (Hl : (length (toString n) <= 10)%nat).
  { unfold toString.
    pose proof (decimal_digits_length (S (Z.to_nat (Z.log2 n))) n [] 9 Hn) as Hl.
    exact Hl. }
  split; [| split].
  - rewrite length_app, repeat_length. lia.
  - rewrite forallb_app, Hf, andb_true_r.
    apply forallb_forall. intros x Hx. apply repeat_spec in Hx. subst x.
    reflexivity.
  - rewrite decimal_value_zeros. exact Hv.
Qed.

(** X1.  For every integer the random source can yield, 0 up to 10^10 - 1,
    [generateAccountNumber] gives a string of exactly ten decimal digits that
    spells that integer; so different draws give different account
    numbers. *)
Theorem generateAccountNumber_ten_digits (num num' : Z) :
  0 <= num < 10 ^ 10 ->
  0 <= num' < 10 ^ 10 ->
  length (generateAccountNumber num) = 10%nat
  /\ forallb digit (generateAccountNumber num) = true
  /\ decimal_value (generateAccountNumber num) = num
  /\ (generateAccountNumber num = generateAccountNumber num' -> num = num').
Proof.
  pose proof generateAccountNumber_digits as H.
  intros Hn Hn'. destruct (H num Hn) as (Hl & Hf & Hv).
  destruct (H num' Hn') as (_ & _ & Hv').
  repeat split; auto. intro E. rewrite <- Hv, <- Hv', E. reflexivity.
Qed.

Lemma generateAccountNumber_ten_digits_witness :
  length (generateAccountNumber 42) = 10%nat
  /\ forallb digit (generateAccountNumber 42) = true
  /\ decimal_value (generateAccountNumber 42) = 42
  /\ (generateAccountNumber 42 = generateAccountNumber 9999999999 -> 42 = 9999999999).
Proof.
  apply (generateAccountNumber_ten_digits 42 9999999999); lia.
Defined.

(** ** Creating and listing accounts *)

Lemma by_user_and_type_spec userId ty a :
  by_user_and_type userId ty a = true <-> owner_and_type a = (userId, ty).
Proof.
  unfold by_user_and_type, owner_and_type.
  destruct (Account.accountType a), ty;
    rewrite ?andb_true_r, ?andb_false_r, ?Z.eqb_eq;
    split; intro H; try discriminate; congruence.
Qed.

Lemma find_none_forall {A} (p : A -> bool) (l : list A) :
  find p l = None <-> forall x, In x l -> p x = false.
Proof.
  induction l as [| a l IH]; simpl.
  - split; [intros _ x [] | reflexivity].
  - destruct (p a) eqn:E; split.
    + discriminate.
    + intro H. specialize (H a (or_introl eq_refl)). congruence.
    + intros H x [<- | Hx]; [exact E | apply IH; assumption].
    + intro H. apply IH. intros x Hx. apply H. now right.
Qed.

Lemma unique_accountNumber_free draws rows n :
  unique_accountNumber draws rows = Some n ->
  select_get (by_accountNumber n) rows = None
  /\ exists num, In num draws /\ n = generateAccountNumber num.
Proof.
  induction draws as [| num draws IH]; simpl; [discriminate |].
  destruct (select_get (by_accountNumber (generateAccountNumber num)) rows) eqn:E.
  - intro H. destruct (IH H) as (Hn & k & Hk & ->). eauto.
  - intro H. injection H as <-. eauto.
Qed.

Lemma unique_accountNumber_found draws rows num :
  In num draws ->
  select_get (by_accountNumber (generateAccountNumber num)) rows = None ->
  exists n, unique_accountNumber draws rows = Some n.
Proof.
  induction draws as [| k draws IH]; simpl; [contradiction |].
  intros [-> | Hin] Hfree.
  - rewrite Hfree. eauto.
  - destruct (select_get (by_accountNumber (generateAccountNumber k)) rows); eauto.
Qed.

(** The outcomes of [createAccount] for an authenticated caller. *)
Lemma createAccount_cases draws ctx u ty db :
  user ctx = Some u ->
  createAccount draws ctx ty db
  = match select_get (by_user_and_type (User.id u) ty) (accounts db) with
    | Some _ =>
        Some (inl (TRPCError CONFLICT
                     ("You already have a " ++ accountType_name ty ++ " account")%string),
              db)
    | None =>
        match unique_accountNumber draws (accounts db) with
        | None => None
        | Some n =>
            Some (inr (created_account u ty n (accounts db)),
                  set_accounts (fun rows => rows ++ [created_account u ty n rows]) db)
        end
    end.
Proof.
  intro Hu. unfold createAccount, protectedProcedure. rewrite Hu. unfold ret at 1.
  destruct (select_get (by_user_and_type _ _) _); [reflexivity |].
  destruct (unique_accountNumber draws (accounts db)) as [n |] eqn:En; [| reflexivity].
  apply unique_accountNumber_free in En as [Hfree _].
  unfold bind, exec, query. cbn [accounts set_accounts].
  unfold select_get in *. rewrite (find_app_none _ _ _ Hfree). cbn [find].
  unfold by_accountNumber at 1. cbn [Account.accountNumber].
  rewrite jsstring_eqb_refl. reflexivity.
Qed.

(** X2.  For an authenticated caller who has no account of the requested
    type, as soon as one of the draws is a number no account has,
    [createAccount] succeeds: it appends one account of the caller, of that
    type, with balance 0 and status [active], whose number has ten digits
    and belongs to no earlier account, returns that row, and leaves the
    other tables as they were. *)
Theorem createAccount_creates_fresh_account draws ctx u ty db num :
  user ctx = Some u ->
  select_get (by_user_and_type (User.id u) ty) (accounts db) = None ->
  (forall k, In k draws -> 0 <= k < 10 ^ 10) ->
  In num draws ->
  select_get (by_accountNumber (generateAccountNumber num)) (accounts db) = None ->
  exists a,
    createAccount draws ctx ty db
    = Some (inr a, mkDb (users db) (sessions db) (accounts db ++ [a]) (transactions db))
    /\ Account.userId a = User.id u
    /\ Account.accountType a = ty
    /\ Account.balance a = 0%float
    /\ Account.status a = js "active"
    /\ length (Account.accountNumber a) = 10%nat
    /\ forallb digit (Account.accountNumber a) = true
    /\ (forall b, In b (accounts db) ->
          Account.accountNumber b <> Account.accountNumber a
          /\ Account.id b <> Account.id a).
Proof.
  intros Hu Hty Hrange Hin Hfree.
  rewrite (createAccount_cases draws ctx u ty db Hu), Hty.
  destruct (unique_accountNumber_found draws _ num Hin Hfree) as [n Hn].
  rewrite Hn. apply unique_accountNumber_free in Hn as (Hnone & k & Hk & ->).
  exists (created_account u ty (generateAccountNumber k) (accounts db)).
  destruct (generateAccountNumber_digits k (Hrange k Hk)) as (Hl & Hd & _).
  repeat split; auto.
  - intro E. unfold select_get in Hnone.
    rewrite find_none_forall in Hnone. specialize (Hnone b H).
    unfold by_accountNumber in Hnone. simpl in E. rewrite E in Hnone.
    rewrite jsstring_eqb_refl in Hnone. discriminate.
  - intro E. apply (next_id_fresh Account.id) in H. simpl in E. lia.
Qed.

Lemma createAccount_creates_fresh_account_witness :
  exists a,
    createAccount [42; 7] demo_ctx savings demo_db
    = Some (inr a, mkDb (users demo_db) (sessions demo_db)
                     (accounts demo_db ++ [a]) (transactions demo_db))
    /\ Account.userId a = User.id demo_user
    /\ Account.accountType a = savings
    /\ Account.balance a = 0%float
    /\ Account.status a = js "active"
    /\ length (Account.accountNumber a) = 10%nat
    /\ forallb digit (Account.accountNumber a) = true
    /\ (forall b, In b (accounts demo_db) ->
          Account.accountNumber b <> Account.accountNumber a
          /\ Account.id b <> Account.id a).
Proof.
  apply (createAccount_creates_fresh_account [42; 7] demo_ctx demo_user savings
           demo_db 7).
  - reflexivity.
  - reflexivity.
  - intros k [<- | [<- | []]]; lia.
  - simpl. auto.
  - reflexivity.
Defined.

Lemma NoDup_snoc {A} (l : list A) (x : A) :
  NoDup l -> ~ In x l -> NoDup (l ++ [x]).
Proof.
  intros Hl Hx. induction l as [| a l IH]; simpl.
  - constructor; [intros [] | constructor].
  - inversion Hl as [| ? ? Ha Hl']; subst. constructor.
    + rewrite in_app_iff. intros [H | [H | []]]; [contradiction |].
      subst. apply Hx. now left.
    + apply IH; [assumption |]. intro H. apply Hx. now right.
Qed.

Lemma find_exists {A} (p : A -> bool) (l : list A) x :
  In x l -> p x = true -> exists y, find p l = Some y.
Proof.
  intros Hin Hp. destruct (find p l) eqn:E; [eauto |].
  rewrite find_none_forall in E. rewrite (E x Hin) in Hp. discriminate.
Qed.

(** What a successful [createAccount] of an authenticated caller has done. *)
Lemma createAccount_success draws ctx u ty db a db' :
  user ctx = Some u ->
  createAccount draws ctx ty db = Some (inr a, db') ->
  select_get (by_user_and_type (User.id u) ty) (accounts db) = None
  /\ select_get (by_accountNumber (Account.accountNumber a)) (accounts db) = None
  /\ a = created_account u ty (Account.accountNumber a) (accounts db)
  /\ db' = mkDb (users db) (sessions db) (accounts db ++ [a]) (transactions db).
Proof.
  intros Hu. rewrite (createAccount_cases draws ctx u ty db Hu).
  destruct (select_get (by_user_and_type _ _) _); [discriminate |].
  destruct (unique_accountNumber draws (accounts db)) as [n |] eqn:En; [| discriminate].
  intro H. injection H as <- <-.
  apply unique_accountNumber_free in En as [Hfree _].
  repeat split; auto.
Qed.

(** X3.  [createAccount] keeps the accounts table well formed: when no user
    holds two accounts of one type and no two accounts share a number or an
    id before the call, the same is true after it, whatever the caller, the
    type asked for, the draws and the outcome. *)
Theorem createAccount_keeps_accounts_distinct draws ctx ty db r db' :
  one_account_per_type (accounts db) ->
  NoDup (map Account.accountNumber (accounts db)) ->
  NoDup (map Account.id (accounts db)) ->
  createAccount draws ctx ty db = Some (r, db') ->
  one_account_per_type (accounts db')
  /\ NoDup (map Account.accountNumber (accounts db'))
  /\ NoDup (map Account.id (accounts db')).
Proof.
  intros Hty Hnum Hid. destruct (user ctx) as [u |] eqn:Hu.
  - rewrite (createAccount_cases draws ctx u ty db Hu).
    destruct (select_get (by_user_and_type _ _) _) eqn:Ee.
    { intro H. injection H as <- <-. auto. }
    destruct (unique_accountNumber draws (accounts db)) as [n |] eqn:En; [| discriminate].
    intro H. injection H as <- <-.
    apply unique_accountNumber_free in En as [Hfree _].
    unfold select_get in *. rewrite find_none_forall in Ee, Hfree.
    unfold one_account_per_type. cbn [accounts set_accounts].
    rewrite !map_app. cbn [map].
    split; [| split]; apply NoDup_snoc; auto; rewrite in_map_iff; intros (b & Hb & Hin).
    + specialize (Ee b Hin).
      assert (by_user_and_type (User.id u) ty b = true) by now apply by_user_and_type_spec.
      congruence.
    + specialize (Hfree b Hin). unfold by_accountNumber in Hfree.
      simpl in Hb. rewrite Hb, jsstring_eqb_refl in Hfree. discriminate.
    + apply (next_id_fresh Account.id) in Hin. simpl in Hb. lia.
  - unfold createAccount, protectedProcedure. rewrite Hu. unfold throw.
    intro H. injection H as <- <-. auto.
Qed.

Lemma createAccount_keeps_accounts_distinct_witness :
  one_account_per_type
    (accounts (mkDb [demo_user] []
                 [demo_account; created_account demo_user savings
                                  (generateAccountNumber 7) [demo_account]]
                 [demo_transaction]))
  /\ NoDup (map Account.accountNumber
              (accounts (mkDb [demo_user] []
                 [demo_account; created_account demo_user savings
                                  (generateAccountNumber 7) [demo_account]]
                 [demo_transaction])))
  /\ NoDup (map Account.id
              (accounts (mkDb [demo_user] []
                 [demo_account; created_account demo_user savings
                                  (generateAccountNumber 7) [demo_account]]
                 [demo_transaction]))).
Proof.
  apply (createAccount_keeps_accounts_distinct [42; 7] demo_ctx savings demo_db
           (inr (created_account demo_user savings (generateAccountNumber 7)
                   [demo_account]))).
  - repeat constructor. intros [].
  - repeat constructor. intros [].
  - repeat constructor. intros [].
  - reflexivity.
Defined.

(** X4.  After a successful [createAccount], a second request of the same
    caller for the same type is refused as a conflict, with the message
    naming the type, and changes nothing - whatever the random source
    would draw. *)
Theorem createAccount_twice_conflicts draws draws' ctx u ty db a db' :
  user ctx = Some u ->
  createAccount draws ctx ty db = Some (inr a, db') ->
  createAccount draws' ctx ty db'
  = Some (inl (TRPCError CONFLICT
                 ("You already have a " ++ accountType_name ty ++ " account")%string),
          db').
Proof.
  intros Hu H. apply (createAccount_success draws ctx u ty db a db' Hu) in H
    as (_ & _ & Ha & ->).
  rewrite (createAccount_cases draws' ctx u ty _ Hu). cbn [accounts].
  destruct (find_exists (by_user_and_type (User.id u) ty) (accounts db ++ [a]) a)
    as [y Hy].
  - apply in_or_app. right. now left.
  - apply by_user_and_type_spec. rewrite Ha. reflexivity.
  - unfold select_get. rewrite Hy. reflexivity.
Qed.

Lemma createAccount_twice_conflicts_witness :
  createAccount [] demo_ctx savings
    (mkDb [demo_user] []
       [demo_account; created_account demo_user savings
                        (generateAccountNumber 7) [demo_account]]
       [demo_transaction])
  = Some (inl (TRPCError CONFLICT "You already have a savings account"),
          mkDb [demo_user] []
            [demo_account; created_account demo_user savings
                             (generateAccountNumber 7) [demo_account]]
            [demo_transaction]).
Proof.
  apply (createAccount_twice_conflicts [42; 7] [] demo_ctx demo_user savings
           demo_db
           (created_account demo_user savings (generateAccountNumber 7)
              [demo_account])); reflexivity.
Defined.

(** X5.  [getAccounts] lists the caller's accounts and only those, in the
    order of their creation, and reads only: after a successful
    [createAccount] the caller's list is the earlier list followed by the new
    account, and the list of any other user is what it was. *)
Theorem getAccounts_after_createAccount draws ctx u ty db a db' ctx' u' :
  user ctx = Some u ->
  user ctx' = Some u' ->
  User.id u' <> User.id u ->
  createAccount draws ctx ty db = Some (inr a, db') ->
  (exists mine,
     getAccounts ctx db = (inr mine, db)
     /\ getAccounts ctx db' = (inr (mine ++ [a]), db')
     /\ forall b, In b (mine ++ [a]) -> Account.userId b = User.id u)
  /\ (exists theirs,
        getAccounts ctx' db = (inr theirs, db)
        /\ getAccounts ctx' db' = (inr theirs, db')).
Proof.
  intros Hu Hu' Hne H.
  apply (createAccount_success draws ctx u ty db a db' Hu) in H as (_ & _ & Ha & ->).
  unfold getAccounts, protectedProcedure, bind, query. rewrite Hu, Hu'.
  unfold ret. cbn [accounts]. rewrite !filter_app. cbn [filter].
  assert (Hid : Account.userId a = User.id u) by (rewrite Ha; reflexivity).
  rewrite Hid, Z.eqb_refl.
  destruct (Z.eqb_spec (User.id u) (User.id u')) as [E | _]; [congruence |].
  split.
  - eexists. split; [reflexivity |]. split; [reflexivity |].
    intros b Hb. apply in_app_or in Hb as [Hb | [<- | []]]; [| exact Hid].
    apply filter_In in Hb as [_ Hb]. now apply Z.eqb_eq.
  - eexists. split; [reflexivity |]. now rewrite app_nil_r.
Qed.

Lemma getAccounts_after_createAccount_witness :
  (exists mine,
     getAccounts demo_ctx demo_db = (inr mine, demo_db)
     /\ (exists db' a,
           createAccount [7] demo_ctx savings demo_db = Some (inr a, db')
           /\ getAccounts demo_ctx db' = (inr (mine ++ [a]), db'))).
Proof.
  destruct (getAccounts_after_createAccount [7] demo_ctx demo_user savings demo_db
              (created_account demo_user savings (generateAccountNumber 7)
                 [demo_account])
              (mkDb [demo_user] []
                 [demo_account; created_account demo_user savings
                                  (generateAccountNumber 7) [demo_account]]
                 [demo_transaction])
              (mkContext (Some (User.mk 2 [] [] [] [] [] [] [] [] [] [] []))
                 (ReqCookies None))
              (User.mk 2 [] [] [] [] [] [] [] [] [] [] [])
              eq_refl eq_refl ltac:(discriminate) eq_refl)
    as [(mine & H1 & H2 & _) _].
  exists mine. split; [exact H1 |]. eexists _, _. split; [reflexivity | exact H2].
Defined.

(** ** Funding and listing transactions *)

(** The paths of [fundAccount] for an authenticated caller and an input its
    schema lets through. *)
Lemma fundAccount_no_account env ctx u raw db :
  user ctx = Some u ->
  fst (fundAccount_input raw) = [] ->
  select_get (owned_account (FundInput.accountId raw) (User.id u)) (accounts db) = None ->
  fundAccount env ctx raw db = (inl (TRPCError NOT_FOUND "Account not found"), db).
Proof.
  intros Hu Hi Ha. unfold fundAccount, protectedProcedure, bind. rewrite Hu.
  unfold ret at 1. destruct (fundAccount_input raw) as [iss i] eqn:E.
  assert (i = raw) as -> by (unfold fundAccount_input in E; congruence).
  simpl in Hi. subst iss. unfold parse, ret at 1, query at 1. rewrite Ha.
  reflexivity.
Qed.

Lemma fundAccount_inactive env ctx u raw db account :
  user ctx = Some u ->
  fst (fundAccount_input raw) = [] ->
  select_get (owned_account (FundInput.accountId raw) (User.id u)) (accounts db)
  = Some account ->
  Account.status account <> js "active" ->
  fundAccount env ctx raw db = (inl (TRPCError BAD_REQUEST "Account is not active"), db).
Proof.
  intros Hu Hi Ha Hs. unfold fundAccount, protectedProcedure, bind. rewrite Hu.
  unfold ret at 1. destruct (fundAccount_input raw) as [iss i] eqn:E.
  assert (i = raw) as -> by (unfold fundAccount_input in E; congruence).
  simpl in Hi. subst iss. unfold parse, ret at 1, query at 1. rewrite Ha.
  destruct (jsstring_eqb (Account.status account) (js "active")) eqn:Es.
  - apply jsstring_eqb_eq in Es. contradiction.
  - reflexivity.
Qed.

Lemma fundAccount_unauthenticated env ctx raw db :
  user ctx = None ->
  fundAccount env ctx raw db = (inl (TRPCError UNAUTHORIZED "UNAUTHORIZED"), db).
Proof.
  intro Hu. unfold fundAccount, protectedProcedure, bind. now rewrite Hu.
Qed.

(** X6.  A [fundAccount] that fails has written nothing: every failure
    leaves the store exactly as it was, and the failure is one of four - no
    authenticated user, the issues of the input schema (reported in some
    order), no account of the caller with that id, or an account that is not
    active.  The handler's last failure, of not finding the account it has
    just updated, never happens. *)
Theorem fundAccount_failure_writes_nothing env ctx raw db e db' :
  fundAccount env ctx raw db = (inl e, db') ->
  db' = db
  /\ (e = TRPCError UNAUTHORIZED "UNAUTHORIZED"
      \/ (reports e (fst (fundAccount_input raw)) /\ fst (fundAccount_input raw) <> [])
      \/ e = TRPCError NOT_FOUND "Account not found"
      \/ e = TRPCError BAD_REQUEST "Account is not active").
Proof.
  destruct (user ctx) as [u |] eqn:Hu.
  2: { rewrite (fundAccount_unauthenticated env ctx raw db Hu).
       intro H. injection H as <- <-. auto. }
  destruct (fst (fundAccount_input raw)) as [| i iss] eqn:Hi.
  2: { rewrite (fundAccount_invalid_input env ctx u raw db Hu) by (rewrite Hi; discriminate).
       rewrite Hi. intro H. injection H as <- <-.
       split; [reflexivity |]. right. left. split; [| discriminate].
       eexists. split; [reflexivity | apply Permutation_refl]. }
  destruct (select_get (owned_account (FundInput.accountId raw) (User.id u)) (accounts db))
    as [account |] eqn:Ha.
  2: { rewrite (fundAccount_no_account env ctx u raw db Hu Hi Ha).
       intro H. injection H as <- <-. auto. }
  destruct (list_eq_dec N.eq_dec (Account.status account) (js "active")) as [Hs | Hs].
  - rewrite (fundAccount_effect env ctx u raw db account Hu Hi Ha Hs). discriminate.
  - rewrite (fundAccount_inactive env ctx u raw db account Hu Hi Ha Hs).
    intro H. injection H as <- <-. auto 6.
Qed.

Lemma fundAccount_failure_writes_nothing_witness :
  demo_db = demo_db
  /\ (TRPCError NOT_FOUND "Account not found" = TRPCError UNAUTHORIZED "UNAUTHORIZED"
      \/ (reports (TRPCError NOT_FOUND "Account not found")
            (fst (fundAccount_input
                    (FundInput.mk 2 25 (card (js "4242424242424242") None))))
          /\ fst (fundAccount_input
                    (FundInput.mk 2 25 (card (js "4242424242424242") None))) <> [])
      \/ TRPCError NOT_FOUND "Account not found" = TRPCError NOT_FOUND "Account not found"
      \/ TRPCError NOT_FOUND "Account not found"
         = TRPCError BAD_REQUEST "Account is not active").
Proof.
  apply (fundAccount_failure_writes_nothing demo_env demo_ctx
           (FundInput.mk 2 25 (card (js "4242424242424242") None)) demo_db).
  vm_compute. reflexivity.
Defined.

(** What a successful [fundAccount] rests on. *)
Lemma fundAccount_success env ctx raw db r db' :
  fundAccount env ctx raw db = (inr r, db') ->
  exists u account,
    user ctx = Some u
    /\ fst (fundAccount_input raw) = []
    /\ select_get (owned_account (FundInput.accountId raw) (User.id u)) (accounts db)
       = Some account
    /\ Account.status account = js "active".
Proof.
  destruct (user ctx) as [u |] eqn:Hu.
  2: { rewrite (fundAccount_unauthenticated env ctx raw db Hu). discriminate. }
  destruct (fst (fundAccount_input raw)) as [| i iss] eqn:Hi.
  2: { rewrite (fundAccount_invalid_input env ctx u raw db Hu) by (rewrite Hi; discriminate).
       discriminate. }
  destruct (select_get (owned_account (FundInput.accountId raw) (User.id u)) (accounts db))
    as [account |] eqn:Ha.
  2: { rewrite (fundAccount_no_account env ctx u raw db Hu Hi Ha). discriminate. }
  destruct (list_eq_dec N.eq_dec (Account.status account) (js "active")) as [Hs | Hs].
  - intros _. exists u, account. auto.
  - rewrite (fundAccount_inactive env ctx u raw db account Hu Hi Ha Hs). discriminate.
Qed.

Lemma update_where_other {A} (p : A -> bool) (f : A -> A) (rows : list A) b :
  In b rows -> p b = false -> In b (update_where p f rows).
Proof.
  intros Hin Hp. unfold update_where. apply in_map_iff. exists b.
  now rewrite Hp.
Qed.

Lemma amount_schema_ok p val :
  amount_schema p val = [] ->
  PrimFloat.is_nan val = false /\ PrimFloat.ltb 0 val = true
  /\ PrimFloat.leb 0.01 val = true.
Proof.
  unfold amount_schema, check. destruct (PrimFloat.is_nan val); [discriminate |].
  destruct (PrimFloat.ltb 0 val); [| discriminate].
  destruct (PrimFloat.leb 0.01 val); [auto | discriminate].
Qed.

(** X7.  A successful [fundAccount] touches its target only.  The caller is
    authenticated and owns an active account with the given id; the amount is
    a number of at least 0.01; users and sessions are untouched; exactly one
    transaction is appended - a completed deposit of the amount into that
    account; every account keeps its id, owner, number, type and status, the
    accounts with another id keep their balance too, and the target's
    balance, which is the balance returned, is the float sum of its earlier
    balance and the amount. *)
Theorem fundAccount_touches_only_its_target env ctx raw db r db' :
  fundAccount env ctx raw db = (inr r, db') ->
  exists u account created,
    user ctx = Some u
    /\ In account (accounts db)
    /\ Account.id account = FundInput.accountId raw
    /\ Account.userId account = User.id u
    /\ Account.status account = js "active"
    /\ PrimFloat.leb 0.01 (FundInput.amount raw) = true
    /\ users db' = users db
    /\ sessions db' = sessions db
    /\ transactions db' = transactions db ++ [created]
    /\ Transaction.accountId created = FundInput.accountId raw
    /\ Transaction.amount created = FundInput.amount raw
    /\ Transaction.type created = js "deposit"
    /\ Transaction.status created = js "completed"
    /\ FundResult.newBalance r
       = PrimFloat.add (Account.balance account) (FundInput.amount raw)
    /\ accounts db'
       = map (fun a => if Account.id a =? FundInput.accountId raw
                       then set_balance (FundResult.newBalance r) a else a)
           (accounts db)
    /\ (forall b, In b (accounts db) ->
          Account.id b <> FundInput.accountId raw -> In b (accounts db')).
Proof.
  intro H. destruct (fundAccount_success env ctx raw db r db' H)
    as (u & account & Hu & Hi & Ha & Hs).
  rewrite (fundAccount_effect env ctx u raw db account Hu Hi Ha Hs) in H.
  cbv zeta in H. injection H as <- <-.
  exists u, account,
    (new_transaction env raw (FundInput.amount raw) (transactions db)).
  pose proof (find_some _ _ Ha) as [Hin Hown].
  unfold owned_account in Hown. apply andb_true_iff in Hown as [Hid Huid].
  apply Z.eqb_eq in Hid, Huid.
  unfold fundAccount_input in Hi. cbn [fst] in Hi.
  apply app_eq_nil in Hi as [Hamount _].
  apply amount_schema_ok in Hamount as (_ & _ & Hmin).
  repeat split; auto.
  intros b Hb Hne. cbn [accounts]. apply update_where_other; [assumption |].
  unfold by_account_id. now apply Z.eqb_neq.
Qed.

Lemma fundAccount_touches_only_its_target_witness :
  exists u account created,
    user demo_ctx = Some u
    /\ In account (accounts demo_db)
    /\ Account.id account = FundInput.accountId fund_25
    /\ Account.userId account = User.id u
    /\ Account.status account = js "active"
    /\ PrimFloat.leb 0.01 (FundInput.amount fund_25) = true
    /\ users (snd (fundAccount demo_env demo_ctx fund_25 demo_db)) = users demo_db
    /\ sessions (snd (fundAccount demo_env demo_ctx fund_25 demo_db)) = sessions demo_db
    /\ transactions (snd (fundAccount demo_env demo_ctx fund_25 demo_db))
       = transactions demo_db ++ [created]
    /\ Transaction.accountId created = FundInput.accountId fund_25
    /\ Transaction.amount created = FundInput.amount fund_25
    /\ Transaction.type created = js "deposit"
    /\ Transaction.status created = js "completed"
    /\ 35%float = PrimFloat.add (Account.balance account) (FundInput.amount fund_25)
    /\ accounts (snd (fundAccount demo_env demo_ctx fund_25 demo_db))
       = map (fun a => if Account.id a =? FundInput.accountId fund_25
                       then set_balance 35 a else a)
           (accounts demo_db)
    /\ (forall b, In b (accounts demo_db) ->
          Account.id b <> FundInput.accountId fund_25 ->
          In b (accounts (snd (fundAccount demo_env demo_ctx fund_25 demo_db)))).
Proof.
  apply (fundAccount_touches_only_its_target demo_env demo_ctx fund_25 demo_db
           (FundResult.mk (Some demo_transaction) 35)
           (snd (fundAccount demo_env demo_ctx fund_25 demo_db))).
  vm_compute. reflexivity.
Defined.

Lemma owned_account_none accountId userId rows :
  (forall a, In a rows -> Account.id a = accountId -> Account.userId a <> userId) ->
  select_get (owned_account accountId userId) rows = None.
Proof.
  intro H. unfold select_get. apply find_none_forall. intros a Ha.
  unfold owned_account. destruct (Z.eqb_spec (Account.id a) accountId) as [E | _];
    [| reflexivity].
  destruct (Z.eqb_spec (Account.userId a) userId) as [E' | _]; [| reflexivity].
  exfalso. exact (H a Ha E E').
Qed.

(** X8.  [fundAccount] and [getTransactions] do not tell an account of
    another user from an account that does not exist: when no account with
    the given id belongs to the caller - there is none, or it is someone
    else's - both answer [NOT_FOUND] "Account not found" and leave the store
    as it was, so the answer is the same on any two such stores. *)
Theorem foreign_account_is_not_found env ctx u raw db :
  user ctx = Some u ->
  fst (fundAccount_input raw) = [] ->
  (forall a, In a (accounts db) ->
             Account.id a = FundInput.accountId raw -> Account.userId a <> User.id u) ->
  fundAccount env ctx raw db = (inl (TRPCError NOT_FOUND "Account not found"), db)
  /\ getTransactions ctx (FundInput.accountId raw) db
     = (inl (TRPCError NOT_FOUND "Account not found"), db).
Proof.
  intros Hu Hi Hf. pose proof (owned_account_none _ _ _ Hf) as Ha. split.
  - exact (fundAccount_no_account env ctx u raw db Hu Hi Ha).
  - unfold getTransactions, protectedProcedure, bind. rewrite Hu.
    unfold ret at 1, query at 1. rewrite Ha. reflexivity.
Qed.

Lemma foreign_account_is_not_found_witness :
  fundAccount demo_env
    (mkContext (Some (User.mk 2 [] [] [] [] [] [] [] [] [] [] [])) (ReqCookies None))
    fund_25 demo_db
  = (inl (TRPCError NOT_FOUND "Account not found"), demo_db)
  /\ getTransactions
       (mkContext (Some (User.mk 2 [] [] [] [] [] [] [] [] [] [] [])) (ReqCookies None))
       (FundInput.accountId fund_25) demo_db
     = (inl (TRPCError NOT_FOUND "Account not found"), demo_db).
Proof.
  apply (foreign_account_is_not_found demo_env _
           (User.mk 2 [] [] [] [] [] [] [] [] [] [] []) fund_25 demo_db).
  - reflexivity.
  - vm_compute. reflexivity.
  - intros a [<- | []] _. simpl. discriminate.
Defined.

(** X9.  [getTransactions] only reads, and only the caller's account: in
    every outcome the store is unchanged; when it succeeds the caller is
    authenticated and owns an account with the given id, and the entries
    returned are, in order, the stored transactions of that account and no
    other, each with the type of the account of that id. *)
Theorem getTransactions_reads_own_account ctx accountId db out db' :
  getTransactions ctx accountId db = (out, db') ->
  db' = db
  /\ forall l, out = inr l ->
       exists u account,
         user ctx = Some u
         /\ In account (accounts db)
         /\ Account.id account = accountId
         /\ Account.userId account = User.id u
         /\ map EnrichedTransaction.transaction l
            = filter (fun t => Transaction.accountId t =? accountId) (transactions db)
         /\ forall e, In e l ->
              In (EnrichedTransaction.transaction e) (transactions db)
              /\ Transaction.accountId (EnrichedTransaction.transaction e) = accountId
              /\ EnrichedTransaction.accountType e
                 = option_map Account.accountType
                     (select_get (by_account_id accountId) (accounts db)).
Proof.
  unfold getTransactions, protectedProcedure, bind.
  destruct (user ctx) as [u |] eqn:Hu.
  2: { unfold throw. intro H. injection H as <- <-. split; [reflexivity |]. discriminate. }
  unfold ret at 1, query at 1.
  destruct (select_get (owned_account accountId (User.id u)) (accounts db))
    as [account |] eqn:Ha.
  2: { unfold throw. intro H. injection H as <- <-. split; [reflexivity |]. discriminate. }
  unfold query. intro H. injection H as <- <-. split; [reflexivity |].
  intros l Hl. injection Hl as <-.
  pose proof (find_some _ _ Ha) as [Hin Hown].
  unfold owned_account in Hown. apply andb_true_iff in Hown as [Hid Huid].
  apply Z.eqb_eq in Hid, Huid.
  exists u, account. repeat split; auto.
  - rewrite map_map. simpl. apply map_id.
  - apply in_map_iff in H as (t & <- & Ht). apply filter_In in Ht. tauto.
  - apply in_map_iff in H as (t & <- & Ht). apply filter_In in Ht as [_ Ht].
    now apply Z.eqb_eq.
  - apply in_map_iff in H as (t & <- & Ht). apply filter_In in Ht as [_ Ht].
    apply Z.eqb_eq in Ht. cbn [EnrichedTransaction.accountType]. now rewrite Ht.
Qed.

Lemma getTransactions_reads_own_account_witness :
  demo_db = demo_db
  /\ forall l,
       inr [EnrichedTransaction.mk demo_transaction (Some checking)]
       = @inr Failure _ l ->
       exists u account,
         user demo_ctx = Some u
         /\ In account (accounts demo_db)
         /\ Account.id account = 1
         /\ Account.userId account = User.id u
         /\ map EnrichedTransaction.transaction l
            = filter (fun t => Transaction.accountId t =? 1) (transactions demo_db)
         /\ forall e, In e l ->
              In (EnrichedTransaction.transaction e) (transactions demo_db)
              /\ Transaction.accountId (EnrichedTransaction.transaction e) = 1
              /\ EnrichedTransaction.accountType e
                 = option_map Account.accountType
                     (select_get (by_account_id 1) (accounts demo_db)).
Proof.
  apply (getTransactions_reads_own_account demo_ctx 1 demo_db).
  vm_compute. reflexivity.
Defined.

(** X10.  A deposit shows up in the list: after a successful [fundAccount],
    [getTransactions] of the same caller for the same account succeeds and
    returns the transactions it would have returned before, followed by one
    more - a completed deposit of the amount just paid in. *)
Theorem getTransactions_after_fundAccount env ctx raw db r db' :
  fundAccount env ctx raw db = (inr r, db') ->
  exists before created ty,
    getTransactions ctx (FundInput.accountId raw) db = (inr before, db)
    /\ getTransactions ctx (FundInput.accountId raw) db'
       = (inr (before ++ [EnrichedTransaction.mk created ty]), db')
    /\ Transaction.amount created = FundInput.amount raw
    /\ Transaction.type created = js "deposit"
    /\ Transaction.status created = js "completed".
Proof.
  intro H. destruct (fundAccount_success env ctx raw db r db' H)
    as (u & account & Hu & Hi & Ha & Hs).
  rewrite (fundAccount_effect env ctx u raw db account Hu Hi Ha Hs) in H.
  cbv zeta in H. injection H as _ <-.
  set (created := new_transaction env raw (FundInput.amount raw) (transactions db)).
  set (bal := PrimFloat.add (Account.balance account) (FundInput.amount raw)).
  assert (Ha' : exists account',
             select_get (owned_account (FundInput.accountId raw) (User.id u))
               (update_where (by_account_id (FundInput.accountId raw))
                  (set_balance bal) (accounts db)) = Some account').
  { pose proof (find_some _ _ Ha) as [Hin Hown].
    apply (find_exists _ _ (set_balance bal account)).
    - unfold update_where. apply in_map_iff. exists account. split; [| assumption].
      rewrite (owned_account_by_id _ _ _ Hown). reflexivity.
    - exact Hown. }
  destruct Ha' as [account' Ha'].
  unfold getTransactions, protectedProcedure, bind. rewrite Hu.
  unfold ret, query. cbn [accounts transactions]. rewrite Ha, Ha'.
  eexists _, created, _. split; [reflexivity |]. split.
  - cbn [accounts transactions]. rewrite filter_app, map_app. cbn [filter].
    unfold created at 1. cbn [new_transaction Transaction.accountId].
    rewrite Z.eqb_refl. cbn [map].
    rewrite (map_ext_in _
               (fun transaction =>
                  EnrichedTransaction.mk transaction
                    (option_map Account.accountType
                       (select_get (by_account_id (Transaction.accountId transaction))
                          (accounts db))))).
    + reflexivity.
    + intros t Ht. apply filter_In in Ht as [_ Ht].
      apply Z.eqb_eq in Ht. rewrite Ht. f_equal. unfold select_get.
      rewrite find_update_where by reflexivity.
      destruct (find (by_account_id (FundInput.accountId raw)) (accounts db));
        reflexivity.
  - repeat split.
Qed.

Lemma getTransactions_after_fundAccount_witness :
  exists before created ty,
    getTransactions demo_ctx (FundInput.accountId fund_25) demo_db
    = (inr before, demo_db)
    /\ getTransactions demo_ctx (FundInput.accountId fund_25)
         (snd (fundAccount demo_env demo_ctx fund_25 demo_db))
       = (inr (before ++ [EnrichedTransaction.mk created ty]),
          snd (fundAccount demo_env demo_ctx fund_25 demo_db))
    /\ Transaction.amount created = FundInput.amount fund_25
    /\ Transaction.type created = js "deposit"
    /\ Transaction.status created = js "completed".
Proof.
  apply (getTransactions_after_fundAccount demo_env demo_ctx fund_25 demo_db
           (FundResult.mk (Some demo_transaction) 35)).
  vm_compute. reflexivity.
Defined.

(** ** Field validators *)

Lemma test_times_cls p n s :
  test (times n (Cls p)) s = true <-> length s = n /\ forallb p s = true.
Proof. rewrite test_lang. apply lang_times_cls. Qed.

Lemma check_nil ok p m : check ok p m = [] <-> ok = true.
Proof. unfold check. destruct ok; split; congruence. Qed.

(** X11.  A bank funding source is accepted exactly when its routing number
    is nine decimal digits; the account number plays no part.  When it is
    refused, the one issue raised sits on the routing number and reads
    "Routing number must be 9 digits", and an authenticated [fundAccount]
    throws it, together with the issues of the amount if there are any and
    in some order, without writing. *)
Theorem bank_funding_needs_nine_digit_routing
  (accountNumber routingNumber : jsstring) :
  let issues := fundingSourceSchema ["fundingSource"] (bank accountNumber routingNumber) in
  (issues = [] <-> length routingNumber = 9%nat /\ forallb digit routingNumber = true)
  /\ (issues <> [] ->
      issues = [mkIssue ["fundingSource"; "routingNumber"]
                  (Some "Routing number must be 9 digits")])
  /\ (forall env ctx u accountId amount db,
        user ctx = Some u ->
        issues <> [] ->
        exists e,
          fundAccount env ctx
            (FundInput.mk accountId amount (bank accountNumber routingNumber)) db
          = (inl e, db)
          /\ reports e (amount_schema ["amount"] amount ++ issues)).
Proof.
  cbv zeta. unfold fundingSourceSchema, bankFundingSchema.
  split; [| split].
  - rewrite check_nil. apply test_times_cls.
  - unfold check. destruct (test (times 9 dg) routingNumber); [congruence | reflexivity].
  - intros env ctx u accountId amount db Hu Hi.
    rewrite (fundAccount_invalid_input env ctx u _ db Hu).
    + eexists. split; [reflexivity |].
      eexists. split; [reflexivity | apply Permutation_refl].
    + simpl. intro H. apply app_eq_nil in H as [_ H]. contradiction.
Qed.

Lemma lang_star_any s : lang (Star (Cls any)) s.
Proof.
  induction s as [| c s IH]; [constructor |].
  change (c :: s) with ([c] ++ s). constructor; [now constructor | exact IH].
Qed.

(** An unanchored class pattern finds a code unit of the class. *)
Lemma search_cls p s : search (Cls p) s = existsb p s.
Proof.
  apply eq_true_iff_eq. unfold search. rewrite test_lang, existsb_exists. split.
  - intro H. apply lang_cat_inv in H as (u & w & -> & _ & H).
    apply lang_cat_inv in H as (x & v & -> & Hx & _).
    apply lang_cls_inv in Hx as (c & -> & Hc).
    exists c. split; [| exact Hc]. apply in_or_app. right. now left.
  - intros (c & Hin & Hc). apply in_split in Hin as (u & v & ->).
    constructor; [apply lang_star_any |].
    change (c :: v) with ([c] ++ v). constructor; [now constructor | apply lang_star_any].
Qed.

(** X12.  [passwordSchema] lets a password through exactly when it has at
    least eight code units and holds a lowercase letter, an uppercase
    letter, a decimal digit and a code unit that is neither an ASCII letter
    nor a digit; the five rules are judged independently, each failed rule
    adding its own message. *)
Theorem passwordSchema_rules (p : list string) (val : jsstring) :
  (passwordSchema p val = []
   <-> (8 <= length val)%nat
       /\ existsb (range "a" "z") val = true
       /\ existsb (range "A" "Z") val = true
       /\ existsb digit val = true
       /\ existsb (fun c => negb (alnum c)) val = true)
  /\ ((length val < 8)%nat
      <-> In (mkIssue p (Some "Password must be at least 8 characters long"))
            (passwordSchema p val))
  /\ (existsb (range "a" "z") val = false
      <-> In (mkIssue p (Some "Password must contain at least one lowercase letter"))
            (passwordSchema p val))
  /\ (existsb (range "A" "Z") val = false
      <-> In (mkIssue p (Some "Password must contain at least one uppercase letter"))
            (passwordSchema p val))
  /\ (existsb digit val = false
      <-> In (mkIssue p (Some "Password must contain at least one number"))
            (passwordSchema p val))
  /\ (existsb (fun c => negb (alnum c)) val = false
      <-> In (mkIssue p (Some "Password must contain at least one special character"))
            (passwordSchema p val)).
Proof.
  unfold passwordSchema, rg, dg. rewrite !search_cls. unfold compl, check.
  destruct (Nat.leb_spec 8 (length val)) as [Hl | Hl];
    destruct (existsb (range "a" "z") val);
    destruct (existsb (range "A" "Z") val);
    destruct (existsb digit val);
    destruct (existsb (fun c => negb (alnum c)) val);
    cbn [app];
    (split; [split; [intro H; first [discriminate H | repeat split; (reflexivity || lia)]
                    | intros (H1 & H2 & H3 & H4 & H5);
                      first [reflexivity | discriminate | lia]] |]);
    repeat split; intro H;
    try reflexivity; try lia; try discriminate;
    try (cbn [In]; tauto);
    try (cbn [In] in H;
         repeat match type of H with
                | _ \/ _ => destruct H as [H | H]
                | False => contradiction
                | _ = _ => discriminate H
                end).
Qed.

(** X13.  The birth-date refinement of [signup] holds exactly when the text
    parses as a date, the date is not after now, and the eighteenth
    birthday - by calendar year, month and day of the server's time zone -
    is today or earlier. *)
Theorem dateOfBirth_ok_iff_adult
  (Date_parse : jsstring -> option Date) (today : Date) (value : jsstring) :
  dateOfBirth_ok Date_parse today value = true
  <-> exists dob,
        Date_parse value = Some dob
        /\ getTime dob <= getTime today
        /\ (getFullYear dob + 18 < getFullYear today
            \/ (getFullYear dob + 18 = getFullYear today
                /\ (getMonth dob < getMonth today
                    \/ (getMonth dob = getMonth today
                        /\ getDate dob <= getDate today)))).
Proof.
  unfold dateOfBirth_ok. destruct (Date_parse value) as [dob |].
  2: { split; [discriminate | intros (dob & H & _); discriminate]. }
  cbv zeta.
  destruct (Z.gtb_spec (getTime dob) (getTime today)) as [Ht | Ht].
  { split; [discriminate |]. intros (d & Hd & Hle & _). injection Hd as <-. lia. }
  destruct (Z.gtb_spec (getMonth today) (getMonth dob)) as [Hm | Hm];
    destruct (Z.eqb_spec (getMonth today) (getMonth dob)) as [Hm' | Hm'];
    destruct (Z.geb_spec (getDate today) (getDate dob)) as [Hd | Hd];
    cbn [orb andb negb];
    match goal with
    | |- (?a >=? 18) = true <-> _ => destruct (Z.geb_spec a 18) as [Ha | Ha]
    end;
    (split; [intro H; try discriminate H; exists dob; repeat split; try lia
            | intros (d & Hd' & _ & Hage); injection Hd' as <-; try reflexivity; lia]).
Qed.

(** ** Signing up, logging in and out *)

Section AuthRouterMore.

Variable bcrypt_hash : jsstring -> Z -> jsstring -> jsstring.
Variable bcrypt_compare : jsstring -> jsstring -> bool.
Variable jwt_encode : JwtPayload -> jsstring.
Variable Date_parse : jsstring -> option Date.
Variable unicode_toUpperCase : jsstring -> jsstring.

Lemma signup_invalid env raw db :
  fst (signup_input Date_parse unicode_toUpperCase (now env) raw) <> [] ->
  signup bcrypt_hash jwt_encode Date_parse unicode_toUpperCase env raw db
  = (inl (ZodError (fst (signup_input Date_parse unicode_toUpperCase (now env) raw))), db).
Proof.
  intro Hi. unfold signup, bind.
  destruct (signup_input Date_parse unicode_toUpperCase (now env) raw) as [issues input].
  simpl in Hi. destruct issues; [congruence | reflexivity].
Qed.

Lemma signup_existing env raw db u :
  fst (signup_input Date_parse unicode_toUpperCase (now env) raw) = [] ->
  select_get (by_email (toLowerCase (SignupInput.email raw))) (users db) = Some u ->
  signup bcrypt_hash jwt_encode Date_parse unicode_toUpperCase env raw db
  = (inl (TRPCError CONFLICT "User already exists"), db).
Proof.
  intros Hi He. unfold signup, bind.
  destruct (signup_input Date_parse
      unicode_toUpperCase (now env) raw) as [issues input] eqn:E.
  simpl in Hi. subst issues.
  assert (Hin : input = snd (signup_input Date_parse
      unicode_toUpperCase (now env) raw)) by now rewrite E.
  unfold signup_input in Hin. simpl in Hin. subst input.
  unfold parse, ret at 1, query at 1. cbn [SignupInput.email]. rewrite He.
  reflexivity.
Qed.

(** The three ways a [signup] can go. *)
Lemma signup_cases env raw db :
  (fst (signup_input Date_parse unicode_toUpperCase (now env) raw) <> []
   /\ signup bcrypt_hash jwt_encode Date_parse unicode_toUpperCase env raw db
      = (inl (ZodError (fst (signup_input Date_parse
          unicode_toUpperCase (now env) raw))), db))
  \/ (fst (signup_input Date_parse unicode_toUpperCase (now env) raw) = []
      /\ (exists u, select_get (by_email (toLowerCase (SignupInput.email raw))) (users db)
                    = Some u)
      /\ signup bcrypt_hash jwt_encode Date_parse unicode_toUpperCase env raw db
         = (inl (TRPCError CONFLICT "User already exists"), db))
  \/ (fst (signup_input Date_parse unicode_toUpperCase (now env) raw) = []
      /\ select_get (by_email (toLowerCase (SignupInput.email raw))) (users db) = None
      /\ let u := new_user (snd (signup_input Date_parse unicode_toUpperCase (now env) raw))
                    (bcrypt_hash (SignupInput.password raw) 10 (password_salt env))
                    (bcrypt_hash (SignupInput.ssn raw) 12 (ssn_salt env)) (users db) in
         signup bcrypt_hash jwt_encode Date_parse unicode_toUpperCase env raw db
         = (inr (AuthResult.mk (profile u) (jwt_sign jwt_encode (User.id u) (now env))),
            issued jwt_encode (User.id u) env (set_users (fun rows => rows ++ [u]) db))).
Proof.
  destruct (fst (signup_input Date_parse
      unicode_toUpperCase (now env) raw)) as [| i iss] eqn:Hi.
  - destruct (select_get (by_email (toLowerCase (SignupInput.email raw))) (users db))
      as [u |] eqn:He.
    + right. left. split; [reflexivity |]. split; [eauto |].
      exact (signup_existing env raw db u Hi He).
    + right. right. split; [reflexivity |]. split; [reflexivity |].
      exact (signup_success bcrypt_hash jwt_encode Date_parse
          unicode_toUpperCase env raw db Hi He).
  - left. split; [discriminate |]. rewrite <- Hi. apply signup_invalid.
    rewrite Hi. discriminate.
Qed.

End AuthRouterMore.

(** X14.  A [signup] that fails has written nothing, and fails in one of two
    ways: with the issues of its input schema, reported in some order, or
    with the conflict "User
    already exists" when a user is stored under the lowercased email.  The
    handler's third failure, of not finding the user it has just inserted,
    never happens. *)
Theorem signup_failure_writes_nothing
  (bcrypt_hash : jsstring -> Z -> jsstring -> jsstring)
  (jwt_encode : JwtPayload -> jsstring)
  (Date_parse : jsstring -> option Date)
  (unicode_toUpperCase : jsstring -> jsstring)
  (env : Env) (raw : SignupInput.t) (db db' : Db) (e : Failure) :
  signup bcrypt_hash jwt_encode Date_parse unicode_toUpperCase env raw db = (inl e, db') ->
  db' = db
  /\ ((reports e (fst (signup_input Date_parse unicode_toUpperCase (now env) raw))
       /\ fst (signup_input Date_parse unicode_toUpperCase (now env) raw) <> [])
      \/ (e = TRPCError CONFLICT "User already exists"
          /\ exists u, In u (users db)
                       /\ User.email u = toLowerCase (SignupInput.email raw))).
Proof.
  destruct (signup_cases bcrypt_hash jwt_encode Date_parse unicode_toUpperCase env raw db)
    as [[Hi ->] | [(Hi & [u Hu] & ->) | (Hi & Hn & H)]].
  - intro H. injection H as <- <-. split; [reflexivity |]. left.
    split; [| assumption]. eexists. split; [reflexivity | apply Permutation_refl].
  - intro H. injection H as <- <-. split; [reflexivity |]. right.
    split; [reflexivity |]. apply find_some in Hu as [Hin Hu].
    exists u. split; [assumption |]. now apply jsstring_eqb_eq.
  - cbv zeta in H. rewrite H. discriminate.
Qed.

Lemma signup_failure_writes_nothing_witness :
  demo_db = demo_db
  /\ ((reports (TRPCError CONFLICT "User already exists")
         (fst (signup_input demo_Date_parse demo_toUpperCase (now demo_env)
                 (SignupInput.mk (js "Multi@Example.com") (js "Aa1!good!")
                    (js "Test") (js "User") (js "+14155550123")
                    (js "1990-01-01") (js "111111111") (js "123 Main St")
                    (js "City") (js "nj") (js "07001"))))
       /\ fst (signup_input demo_Date_parse demo_toUpperCase (now demo_env)
                 (SignupInput.mk (js "Multi@Example.com") (js "Aa1!good!")
                    (js "Test") (js "User") (js "+14155550123")
                    (js "1990-01-01") (js "111111111") (js "123 Main St")
                    (js "City") (js "nj") (js "07001"))) <> [])
      \/ (TRPCError CONFLICT "User already exists"
          = TRPCError CONFLICT "User already exists"
          /\ exists u, In u (users demo_db)
                       /\ User.email u
                          = toLowerCase
                              (SignupInput.email
                                 (SignupInput.mk (js "Multi@Example.com")
                                    (js "Aa1!good!") (js "Test") (js "User")
                                    (js "+14155550123") (js "1990-01-01")
                                    (js "111111111") (js "123 Main St")
                                    (js "City") (js "nj") (js "07001"))))).
Proof.
  apply (signup_failure_writes_nothing demo_hash demo_jwt demo_Date_parse
           demo_toUpperCase demo_env
           (SignupInput.mk (js "Multi@Example.com") (js "Aa1!good!")
              (js "Test") (js "User") (js "+14155550123")
              (js "1990-01-01") (js "111111111") (js "123 Main St")
              (js "City") (js "nj") (js "07001")) demo_db).
  vm_compute. reflexivity.
Defined.

(** X15.  [signup] keeps the users table well formed: when no two users
    share an email or an id, and every stored email is in lower case, the
    same holds after the call, whatever its outcome. *)
Theorem signup_keeps_emails_unique
  (bcrypt_hash : jsstring -> Z -> jsstring -> jsstring)
  (jwt_encode : JwtPayload -> jsstring)
  (Date_parse : jsstring -> option Date)
  (unicode_toUpperCase : jsstring -> jsstring)
  (env : Env) (raw : SignupInput.t) (db db' : Db) (out : Failure + AuthResult.t) :
  NoDup (map User.email (users db)) ->
  NoDup (map User.id (users db)) ->
  (forall u, In u (users db) -> toLowerCase (User.email u) = User.email u) ->
  signup bcrypt_hash jwt_encode Date_parse unicode_toUpperCase env raw db = (out, db') ->
  NoDup (map User.email (users db'))
  /\ NoDup (map User.id (users db'))
  /\ (forall u, In u (users db') -> toLowerCase (User.email u) = User.email u).
Proof.
  intros He Hid Hlow.
  destruct (signup_cases bcrypt_hash jwt_encode Date_parse unicode_toUpperCase env raw db)
    as [[Hi ->] | [(Hi & _ & ->) | (Hi & Hn & H)]].
  - intro H. injection H as <- <-. auto.
  - intro H. injection H as <- <-. auto.
  - cbv zeta in H. rewrite H. intro E. injection E as <- <-.
    unfold issued. cbn [users set_users]. rewrite !map_app. cbn [map].
    unfold select_get in Hn. rewrite find_none_forall in Hn.
    split; [| split].
    + apply NoDup_snoc; [assumption |]. rewrite in_map_iff. intros (v & Hv & Hin).
      specialize (Hn v Hin). unfold by_email in Hn.
      unfold new_user, signup_input in Hv. simpl in Hv.
      rewrite Hv, jsstring_eqb_refl in Hn. discriminate.
    + apply NoDup_snoc; [assumption |]. rewrite in_map_iff. intros (v & Hv & Hin).
      apply (next_id_fresh User.id) in Hin. unfold new_user in Hv. simpl in Hv. lia.
    + intros v Hv. apply in_app_or in Hv as [Hv | [<- | []]]; [auto |].
      unfold new_user, signup_input. simpl. unfold toLowerCase.
      rewrite map_map. apply map_ext. intro c. unfold lower_cu.
      destruct ((65 <=? c)%N && (c <=? 90)%N) eqn:E; [| now rewrite E].
      apply andb_true_iff in E as [E1 E2]. apply N.leb_le in E1, E2.
      destruct (N.leb_spec 65 (c + 32)); destruct (N.leb_spec (c + 32) 90);
        simpl; try reflexivity; lia.
Qed.

Lemma signup_keeps_emails_unique_witness :
  NoDup (map User.email
           (users (snd (signup demo_hash demo_jwt demo_Date_parse demo_toUpperCase demo_env
                          signup_con demo_db))))
  /\ NoDup (map User.id
              (users (snd (signup demo_hash demo_jwt demo_Date_parse
                  demo_toUpperCase demo_env
                             signup_con demo_db))))
  /\ (forall u,
        In u (users (snd (signup demo_hash demo_jwt demo_Date_parse
            demo_toUpperCase demo_env
                            signup_con demo_db))) ->
        toLowerCase (User.email u) = User.email u).
Proof.
  apply (signup_keeps_emails_unique demo_hash demo_jwt demo_Date_parse
      demo_toUpperCase demo_env
           signup_con demo_db _
           (fst (signup demo_hash demo_jwt demo_Date_parse
               demo_toUpperCase demo_env signup_con demo_db))).
  - repeat constructor. intros [].
  - repeat constructor. intros [].
  - intros u [<- | []]. reflexivity.
  - apply surjective_pairing.
Defined.

Lemma toLowerCase_idempotent s : toLowerCase (toLowerCase s) = toLowerCase s.
Proof.
  unfold toLowerCase. rewrite map_map. apply map_ext. intro c. unfold lower_cu.
  destruct ((65 <=? c)%N && (c <=? 90)%N) eqn:E; [| now rewrite E].
  apply andb_true_iff in E as [E1 E2]. apply N.leb_le in E1, E2.
  destruct (N.leb_spec 65 (c + 32)); destruct (N.leb_spec (c + 32) 90);
    simpl; try reflexivity; lia.
Qed.

(** X16.  Sign-up treats addresses that differ only in the case of their
    ASCII letters as one: after a successful [signup], a second sign-up whose
    input passes the schema and whose email lowercases to the same address
    is refused with the conflict "User already exists" and writes
    nothing. *)
Theorem signup_twice_conflicts
  (bcrypt_hash : jsstring -> Z -> jsstring -> jsstring)
  (jwt_encode : JwtPayload -> jsstring)
  (Date_parse : jsstring -> option Date)
  (unicode_toUpperCase : jsstring -> jsstring)
  (env env' : Env) (raw raw' : SignupInput.t) (db db' : Db) (r : AuthResult.t) :
  signup bcrypt_hash jwt_encode Date_parse unicode_toUpperCase env raw db = (inr r, db') ->
  fst (signup_input Date_parse unicode_toUpperCase (now env') raw') = [] ->
  toLowerCase (SignupInput.email raw') = toLowerCase (SignupInput.email raw) ->
  signup bcrypt_hash jwt_encode Date_parse unicode_toUpperCase env' raw' db'
  = (inl (TRPCError CONFLICT "User already exists"), db').
Proof.
  intros H Hi' He.
  destruct (signup_cases bcrypt_hash jwt_encode Date_parse unicode_toUpperCase env raw db)
    as [[_ E] | [(_ & _ & E) | (Hi & Hn & E)]];
    try (rewrite E in H; discriminate).
  cbv zeta in E. rewrite E in H. injection H as _ <-.
  set (u := new_user _ _ _ _) in *.
  destruct (find_exists (by_email (toLowerCase (SignupInput.email raw')))
              (users db ++ [u]) u) as [v Hv].
  - apply in_or_app. right. now left.
  - rewrite He. apply jsstring_eqb_refl.
  - apply (signup_existing bcrypt_hash jwt_encode Date_parse
      unicode_toUpperCase env' raw' _ v Hi').
    exact Hv.
Qed.

Lemma signup_twice_conflicts_witness :
  signup demo_hash demo_jwt demo_Date_parse demo_toUpperCase demo_env_later
    (SignupInput.mk (js "OOPS@Example.CON") (js "Bb2?other") (js "A") (js "B")
       (js "+14155550199") (js "1980-05-05") (js "222222222") (js "1 Side St")
       (js "Town") (js "ny") (js "10001"))
    (snd (signup demo_hash demo_jwt demo_Date_parse
        demo_toUpperCase demo_env signup_con empty_db))
  = (inl (TRPCError CONFLICT "User already exists"),
     snd (signup demo_hash demo_jwt demo_Date_parse
         demo_toUpperCase demo_env signup_con empty_db)).
Proof.
  apply (signup_twice_conflicts demo_hash demo_jwt demo_Date_parse demo_toUpperCase
           demo_env demo_env_later signup_con _ empty_db _
           (AuthResult.mk
              (profile (new_user (snd (signup_input demo_Date_parse
                  demo_toUpperCase demo_now signup_con))
                          (demo_hash (js "Aa1!good!") 10 (js "salt-1"))
                          (demo_hash (js "111111111") 12 (js "salt-2")) []))
              (jwt_sign demo_jwt 1 demo_now)));
    vm_compute; reflexivity.
Defined.

(** X17.  A successful [login] changes the caller's sessions and nothing
    else: users, accounts and transactions are untouched; the sessions of
    every other user are kept as they were; of the caller exactly one
    session is left, carrying the token returned and expiring at the time
    [setDate(getDate() + 7)] makes of the clock of the call - the same local
    time seven calendar days on, which is seven times 24 hours later where
    the server's zone keeps one offset over those days; and the user
    returned is the stored one, found under exactly the email given. *)
Theorem login_replaces_only_own_sessions
  (bcrypt_compare : jsstring -> jsstring -> bool)
  (jwt_encode : JwtPayload -> jsstring)
  (env : Env) (raw : LoginInput.t) (db db' : Db) (r : AuthResult.t) :
  login bcrypt_compare jwt_encode env raw db = (inr r, db') ->
  users db' = users db
  /\ accounts db' = accounts db
  /\ transactions db' = transactions db
  /\ (exists u, In u (users db)
                /\ User.email u = LoginInput.email raw
                /\ bcrypt_compare (LoginInput.password raw) (User.password u) = true
                /\ AuthResult.user r = profile u)
  /\ filter (by_userId (Profile.id (AuthResult.user r))) (sessions db')
     = [Session.mk (Profile.id (AuthResult.user r)) (AuthResult.token r)
          (setDate (now env) (getDate (now env) + 7))]
  /\ ((forall day,
         setDate (now env) day
         = getTime (now env) + (day - getDate (now env)) * 86400000) ->
      map Session.expiresAt
        (filter (by_userId (Profile.id (AuthResult.user r))) (sessions db'))
      = [getTime (now env) + 604800000])
  /\ (forall other, other <> Profile.id (AuthResult.user r) ->
        filter (by_userId other) (sessions db') = filter (by_userId other) (sessions db)).
Proof.
  intro H. apply login_success in H as (u & Hu & Hc & -> & ->).
  apply find_some in Hu as [Hin He]. apply jsstring_eqb_eq in He.
  split; [reflexivity |]. split; [reflexivity |]. split; [reflexivity |].
  split; [| split; [| split]].
  - exists u. auto.
  - apply issued_one_session.
  - intro Hutc. rewrite issued_one_session. cbn [map Session.expiresAt].
    unfold expiresAt. rewrite Hutc. f_equal. lia.
  - intros other Hne. unfold issued. cbn [sessions AuthResult.user profile Profile.id] in *.
    rewrite filter_app. cbn [filter].
    match goal with
    | |- context [by_userId other ?s] =>
        assert (Hb : by_userId other s = false)
          by (unfold by_userId; cbn [Session.userId]; apply Z.eqb_neq; congruence)
    end.
    rewrite Hb, app_nil_r. apply delete_where_other.
    intros s Hs. unfold by_userId in *. apply Z.eqb_eq in Hs.
    apply Z.eqb_neq. congruence.
Qed.

Lemma login_replaces_only_own_sessions_witness :
  users (snd (login demo_compare demo_jwt demo_env
                (LoginInput.mk (js "multi@example.com") (js "Aa1!good!")) demo_db))
  = users demo_db
  /\ accounts (snd (login demo_compare demo_jwt demo_env
                (LoginInput.mk (js "multi@example.com") (js "Aa1!good!")) demo_db))
     = accounts demo_db
  /\ transactions (snd (login demo_compare demo_jwt demo_env
                (LoginInput.mk (js "multi@example.com") (js "Aa1!good!")) demo_db))
     = transactions demo_db
  /\ (exists u, In u (users demo_db)
                /\ User.email u = js "multi@example.com"
                /\ demo_compare (js "Aa1!good!") (User.password u) = true
                /\ profile demo_user = profile u)
  /\ filter (by_userId 1)
       (sessions (snd (login demo_compare demo_jwt demo_env
                (LoginInput.mk (js "multi@example.com") (js "Aa1!good!")) demo_db)))
     = [Session.mk 1 (jwt_sign demo_jwt 1 demo_now)
          (setDate demo_now (getDate demo_now + 7))]
  /\ ((forall day,
         setDate demo_now day = getTime demo_now + (day - getDate demo_now) * 86400000) ->
      map Session.expiresAt
        (filter (by_userId 1)
           (sessions (snd (login demo_compare demo_jwt demo_env
                (LoginInput.mk (js "multi@example.com") (js "Aa1!good!")) demo_db))))
      = [getTime demo_now + 604800000])
  /\ (forall other, other <> 1 ->
        filter (by_userId other)
          (sessions (snd (login demo_compare demo_jwt demo_env
                (LoginInput.mk (js "multi@example.com") (js "Aa1!good!")) demo_db)))
        = filter (by_userId other) (sessions demo_db)).
Proof.
  apply (login_replaces_only_own_sessions demo_compare demo_jwt demo_env
           (LoginInput.mk (js "multi@example.com") (js "Aa1!good!")) demo_db _
           (AuthResult.mk (profile demo_user) (jwt_sign demo_jwt 1 demo_now))).
  vm_compute. reflexivity.
Defined.

(** Where the clocks go back an hour within the week, the session lasts
    seven days and an hour. *)
Example login_expiry_across_offset_change :
  let t := 1761955200000 in
  let now := mkDate t 2025 10 1 (fun day => t + (day - 1) * 86400000 + 3600000) in
  map Session.expiresAt
    (sessions (snd (login demo_compare demo_jwt
                      (mkEnv now (js "salt-1") (js "salt-2"))
                      (LoginInput.mk (js "multi@example.com") (js "Aa1!good!"))
                      demo_db)))
  = [t + 608400000].
Proof. vm_compute. reflexivity. Qed.

(** X18.  Sign-up and login fit together when the hash comparison accepts
    what the hashing produced: after a successful [signup], a [login] with the
    lowercased email and the same password succeeds, returns the profile the
    sign-up returned, and leaves exactly one session of that user. *)
Theorem login_after_signup
  (bcrypt_hash : jsstring -> Z -> jsstring -> jsstring)
  (bcrypt_compare : jsstring -> jsstring -> bool)
  (jwt_encode : JwtPayload -> jsstring)
  (Date_parse : jsstring -> option Date)
  (unicode_toUpperCase : jsstring -> jsstring)
  (env env' : Env) (raw : SignupInput.t) (db db' : Db) (r : AuthResult.t) :
  (forall data rounds salt,
     bcrypt_compare data (bcrypt_hash data rounds salt) = true) ->
  signup bcrypt_hash jwt_encode Date_parse unicode_toUpperCase env raw db = (inr r, db') ->
  is_email (toLowerCase (SignupInput.email raw)) = true ->
  exists r' db'',
    login bcrypt_compare jwt_encode env'
      (LoginInput.mk (toLowerCase (SignupInput.email raw)) (SignupInput.password raw)) db'
    = (inr r', db'')
    /\ AuthResult.user r' = AuthResult.user r
    /\ length (filter (by_userId (Profile.id (AuthResult.user r))) (sessions db'')) = 1%nat.
Proof.
  intros Hhash H Hmail.
  destruct (signup_cases bcrypt_hash jwt_encode Date_parse unicode_toUpperCase env raw db)
    as [[_ E] | [(_ & _ & E) | (Hi & Hn & E)]];
    try (rewrite E in H; discriminate).
  cbv zeta in E. rewrite E in H. injection H as <- <-.
  set (u := new_user _ _ _ _) in *.
  assert (Hfind : select_get (by_email (toLowerCase (SignupInput.email raw)))
                    (users db ++ [u]) = Some u).
  { unfold select_get in *. rewrite (find_app_none _ _ _ Hn). cbn [find].
    assert (Hb : by_email (toLowerCase (SignupInput.email raw)) u = true)
      by apply jsstring_eqb_refl.
    now rewrite Hb. }
  unfold login, login_input, bind, parse, check, query.
  cbn [LoginInput.email LoginInput.password]. rewrite Hmail. unfold ret at 1.
  cbn [fst snd users issued set_users LoginInput.email LoginInput.password].
  rewrite Hfind.
  assert (Hpw : bcrypt_compare (SignupInput.password raw) (User.password u) = true)
    by apply Hhash.
  rewrite Hpw. cbn [negb]. unfold exec, ret.
  eexists _, _. split; [reflexivity |]. split; [reflexivity |].
  cbn [sessions set_sessions AuthResult.user profile Profile.id].
  rewrite filter_app, filter_delete_where. cbn [filter app].
  unfold by_userId. cbn [Session.userId]. rewrite Z.eqb_refl. reflexivity.
Qed.

Lemma demo_compare_hash data rounds salt :
  demo_compare data (demo_hash data rounds salt) = true.
Proof.
  unfold demo_compare, demo_hash. apply jsstring_eqb_eq.
  rewrite !app_assoc.
  set (pre := (((js "$2a$" ++ [Z.to_N rounds]) ++ salt) ++ js "$")).
  rewrite length_app. replace (length pre + length data - length data)%nat
    with (length pre + 0)%nat by lia.
  rewrite skipn_app, Nat.add_0_r, skipn_all.
  replace (length pre - length pre)%nat with 0%nat by lia. reflexivity.
Qed.

Lemma login_after_signup_witness :
  exists r' db'',
    login demo_compare demo_jwt demo_env_later
      (LoginInput.mk (toLowerCase (SignupInput.email signup_XX))
         (SignupInput.password signup_XX))
      (snd (signup demo_hash demo_jwt demo_Date_parse
          demo_toUpperCase demo_env signup_XX empty_db))
    = (inr r', db'')
    /\ AuthResult.user r'
       = AuthResult.user
           (AuthResult.mk
              (profile (new_user (snd (signup_input demo_Date_parse
                  demo_toUpperCase demo_now signup_XX))
                          (demo_hash (js "Aa1!good!") 10 (js "salt-1"))
                          (demo_hash (js "111111111") 12 (js "salt-2")) []))
              (jwt_sign demo_jwt 1 demo_now))
    /\ length (filter (by_userId 1) (sessions db'')) = 1%nat.
Proof.
  apply (login_after_signup demo_hash demo_compare demo_jwt demo_Date_parse demo_toUpperCase
           demo_env demo_env_later signup_XX empty_db).
  - exact demo_compare_hash.
  - vm_compute. reflexivity.
  - vm_compute. reflexivity.
Defined.

(** X19.  Login does not lowercase the email it is given, while sign-up
    stores it lowercased: on a store whose emails are all in lower case, a
    login under an address that passes the schema and holds an uppercase
    ASCII letter is refused with "Invalid credentials" whatever the
    password - so a user who signed up typing capitals cannot log in with
    the address as typed. *)
Theorem login_is_case_sensitive
  (bcrypt_compare : jsstring -> jsstring -> bool)
  (jwt_encode : JwtPayload -> jsstring)
  (env : Env) (raw : LoginInput.t) (db : Db) :
  (forall u, In u (users db) -> toLowerCase (User.email u) = User.email u) ->
  is_email (LoginInput.email raw) = true ->
  toLowerCase (LoginInput.email raw) <> LoginInput.email raw ->
  login bcrypt_compare jwt_encode env raw db
  = (inl (TRPCError UNAUTHORIZED "Invalid credentials"), db).
Proof.
  intros Hlow Hmail Hcase. apply login_unknown_email; [assumption |].
  unfold select_get. apply find_none_forall. intros u Hu.
  unfold by_email. destruct (jsstring_eqb (User.email u) (LoginInput.email raw)) eqn:E;
    [| reflexivity].
  apply jsstring_eqb_eq in E. exfalso. apply Hcase. rewrite <- E. auto.
Qed.

Lemma login_is_case_sensitive_witness :
  login demo_compare demo_jwt demo_env
    (LoginInput.mk (js "Multi@example.com") (js "Aa1!good!")) demo_db
  = (inl (TRPCError UNAUTHORIZED "Invalid credentials"), demo_db).
Proof.
  apply (login_is_case_sensitive demo_compare demo_jwt demo_env
           (LoginInput.mk (js "Multi@example.com") (js "Aa1!good!")) demo_db).
  - intros u [<- | []]. reflexivity.
  - vm_compute. reflexivity.
  - vm_compute. discriminate.
Defined.

(** ** Logging out *)

(** X20.  [logout] always answers, and deletes sessions only by the token
    the request presents: users, accounts and transactions are never
    touched; without a user in the context, or without a non-empty token in
    the request, the store is left as it was; with both, the sessions
    carrying that token are removed and every other session is kept, in
    order. *)
Theorem logout_revokes_presented_token (ctx : Context) (db : Db) :
  exists msg db',
    logout ctx db = (inr (LogoutResult.mk true msg), db')
    /\ users db' = users db
    /\ accounts db' = accounts db
    /\ transactions db' = transactions db
    /\ (user ctx = None -> db' = db)
    /\ (request_token (req ctx) = None \/ request_token (req ctx) = Some [] -> db' = db)
    /\ (forall u t, user ctx = Some u -> request_token (req ctx) = Some t -> t <> [] ->
          sessions db'
          = filter (fun s => negb (jsstring_eqb (Session.token s) t)) (sessions db)
          /\ (forall s, In s (sessions db') -> Session.token s <> t)
          /\ (forall s, In s (sessions db) -> Session.token s <> t -> In s (sessions db'))).
Proof.
  unfold logout, bind.
  destruct (user ctx) as [u |] eqn:Hu.
  - destruct (request_token (req ctx)) as [[| c t] |] eqn:Ht.
    + eexists _, _. split; [reflexivity |].
      do 3 (split; [reflexivity |]). split; [reflexivity |]. split; [reflexivity |].
      intros u' t' _ E Hne. injection E as <-. contradiction.
    + eexists _, _. split; [reflexivity |].
      do 3 (split; [reflexivity |]). split; [discriminate |].
      split; [intros [E | E]; discriminate |].
      intros u' t' _ E _. injection E as <-.
      cbn [snd sessions set_sessions exec]. unfold delete_where, by_token.
      split; [reflexivity |]. split.
      * intros s Hs E. apply filter_In in Hs as [_ Hs].
        rewrite E, jsstring_eqb_refl in Hs. discriminate.
      * intros s Hs Hne. apply filter_In. split; [assumption |].
        destruct (jsstring_eqb (Session.token s) (c :: t)) eqn:E; [| reflexivity].
        apply jsstring_eqb_eq in E. contradiction.
    + eexists _, _. split; [reflexivity |].
      do 3 (split; [reflexivity |]). split; [reflexivity |]. split; [reflexivity |].
      intros u' t' _ E. discriminate.
  - eexists _, _. split; [reflexivity |].
    do 3 (split; [reflexivity |]). split; [reflexivity |]. split; [reflexivity |].
    intros u' t' E. discriminate.
Qed.

(** X21.  Logging out undoes logging in: when the request of an
    authenticated [logout] carries, in its parsed cookies, the non-empty
    token a successful [login] has just returned, no session of that user
    and no session with that token is left in the store. *)
Theorem logout_after_login
  (bcrypt_compare : jsstring -> jsstring -> bool)
  (jwt_encode : JwtPayload -> jsstring)
  (env : Env) (raw : LoginInput.t) (db db1 : Db) (r : AuthResult.t) (u : User.t) :
  login bcrypt_compare jwt_encode env raw db = (inr r, db1) ->
  AuthResult.token r <> [] ->
  exists res db2,
    logout (mkContext (Some u) (ReqCookies (Some (AuthResult.token r)))) db1
    = (inr res, db2)
    /\ filter (by_userId (Profile.id (AuthResult.user r))) (sessions db2) = []
    /\ filter (by_token (AuthResult.token r)) (sessions db2) = [].
Proof.
  intros H Hne. apply login_success in H as (v & _ & _ & -> & ->).
  cbn [AuthResult.token AuthResult.user profile Profile.id] in *.
  unfold logout, bind, issued. cbn [user req request_token].
  destruct (jwt_sign jwt_encode (User.id v) (now env)) as [| c t] eqn:Et;
    [contradiction |].
  eexists _, _. split; [reflexivity |].
  unfold exec. cbn [snd fst sessions set_sessions issued].
  split; [| apply filter_delete_where].
  unfold delete_where. rewrite filter_app. cbn [filter].
  unfold by_token at 2. cbn [Session.token]. rewrite jsstring_eqb_refl.
  cbn [negb]. rewrite app_nil_r.
  induction (sessions db) as [| s l IH]; [reflexivity |].
  unfold delete_where in *. cbn [filter].
  destruct (by_userId (User.id v) s) eqn:E1; cbn [negb filter]; [exact IH |].
  destruct (by_token (c :: t) s); cbn [negb filter]; [exact IH |].
  rewrite E1. exact IH.
Qed.

Lemma logout_after_login_witness :
  exists res db2,
    logout (mkContext (Some demo_user)
              (ReqCookies (Some (AuthResult.token
                 (AuthResult.mk (profile demo_user) (jwt_sign demo_jwt 1 demo_now))))))
      (snd (login demo_compare demo_jwt demo_env
              (LoginInput.mk (js "multi@example.com") (js "Aa1!good!")) demo_db))
    = (inr res, db2)
    /\ filter (by_userId (Profile.id (AuthResult.user
                 (AuthResult.mk (profile demo_user) (jwt_sign demo_jwt 1 demo_now)))))
         (sessions db2) = []
    /\ filter (by_token (AuthResult.token
                 (AuthResult.mk (profile demo_user) (jwt_sign demo_jwt 1 demo_now))))
         (sessions db2) = [].
Proof.
  apply (logout_after_login demo_compare demo_jwt demo_env
           (LoginInput.mk (js "multi@example.com") (js "Aa1!good!")) demo_db).
  - vm_compute. reflexivity.
  - vm_compute. discriminate.
Defined.

Lemma split_from_absent sep s : forall cur,
  sep <> [] ->
  includes sep s = false ->
  split_from sep s cur 0 = [rev cur ++ s].
Proof.
  induction s as [| c s IH]; intros cur Hsep Hinc.
  - simpl. now rewrite app_nil_r.
  - cbn [includes] in Hinc. apply orb_false_iff in Hinc as [Hs Hinc].
    cbn [split_from]. rewrite Hs. rewrite IH by assumption.
    simpl. now rewrite <- app_assoc.
Qed.

Lemma split_from_first c a b : forall cur,
  ~ In c a ->
  split_from [c] (a ++ c :: b) cur 0 = (rev cur ++ a) :: split_from [c] b [] 0.
Proof.
  induction a as [| x a IH]; intros cur Hc.
  - cbn [app split_from startsWith]. rewrite N.eqb_refl. cbn [andb length].
    now rewrite app_nil_r.
  - cbn [app split_from startsWith].
    destruct (N.eqb_spec c x) as [E | _]; [exfalso; apply Hc; now left |].
    cbn [andb]. rewrite IH by (intro H; apply Hc; now right).
    simpl. now rewrite <- app_assoc.
Qed.

Lemma includes_single c s : ~ In c s -> includes [c] s = false.
Proof.
  induction s as [| x s IH]; intro H; [reflexivity |].
  cbn [includes startsWith]. destruct (N.eqb_spec c x) as [E | _];
    [exfalso; apply H; now left |].
  cbn [andb orb]. apply IH. intro Hin. apply H. now right.
Qed.

(** X22.  Reading the session token from a raw cookie header that holds the
    one cookie [session=value]: the token is the value up to its first [=]
    sign.  A value without [=] is returned whole; a value with one is cut
    there, and what follows is dropped. *)
Theorem request_token_of_session_cookie (value rest : jsstring) :
  ~ In (cu "=") value ->
  includes (js "; ") value = false ->
  includes (js "; ") (value ++ js "=" ++ rest) = false ->
  request_token (ReqHeaders (Some (js "session=" ++ value))) = Some value
  /\ request_token (ReqHeaders (Some (js "session=" ++ value ++ js "=" ++ rest)))
     = Some value.
Proof.
  intros Heq Hsep Hsep'.
  assert (Hparse : forall tail,
            includes (js "; ") (value ++ tail) = false ->
            nth_error (split (js "=") (js "session=" ++ value ++ tail)) 1
            = nth_error (split (js "=") (value ++ tail)) 0 ->
            request_token (ReqHeaders (Some (js "session=" ++ value ++ tail)))
            = nth_error (split (js "=") (value ++ tail)) 0).
  { intros tail Hs Hn. cbn [request_token].
    change (js "session=" ++ value ++ tail)
      with (115 :: 101 :: 115 :: 115 :: 105 :: 111 :: 110 :: 61 :: value ++ tail)%N.
    cbv iota beta.
    change (115 :: 101 :: 115 :: 115 :: 105 :: 111 :: 110 :: 61 :: value ++ tail)%N
      with (js "session=" ++ value ++ tail).
    unfold split at 1. rewrite split_from_absent; [| discriminate |].
    - cbn [rev app find]. 
      assert (Hst : startsWith (js "session=") (js "session=" ++ value ++ tail) = true)
        by (cbn; rewrite ?N.eqb_refl; reflexivity).
      rewrite Hst. exact Hn.
    - cbn. exact Hs. }
  assert (Hhead : forall tail,
            nth_error (split (js "=") (js "session=" ++ value ++ tail)) 1
            = nth_error (split (js "=") (value ++ tail)) 0).
  { intro tail. unfold split.
    change (js "session=" ++ value ++ tail)
      with (js "session" ++ cu "=" :: (value ++ tail)).
    change (js "=") with [cu "="].
    rewrite split_from_first by (cbn; intuition discriminate).
    reflexivity. }
  split.
  - pose proof (Hparse []) as Hp. pose proof (Hhead []) as Hh.
    rewrite !app_nil_r in Hp, Hh. rewrite (Hp Hsep Hh).
    unfold split. change (js "=") with [cu "="].
    rewrite split_from_absent; [reflexivity | discriminate |].
    now apply includes_single.
  - rewrite (Hparse _ Hsep' (Hhead _)). unfold split.
    change (js "=" ++ rest) with (cu "=" :: rest). change (js "=") with [cu "="].
    rewrite split_from_first by assumption. reflexivity.
Qed.

Lemma request_token_of_session_cookie_witness :
  request_token (ReqHeaders (Some (js "session=" ++ js "abc.def"))) = Some (js "abc.def")
  /\ request_token (ReqHeaders (Some (js "session=" ++ js "abc.def" ++ js "=" ++ js "xyz")))
     = Some (js "abc.def").
Proof.
  apply (request_token_of_session_cookie (js "abc.def") (js "xyz")).
  - cbn. intuition discriminate.
  - reflexivity.
  - reflexivity.
Defined.

(** ** Funding form against the server's schema *)

Lemma strip_spaces_idempotent s : strip_spaces (strip_spaces s) = strip_spaces s.
Proof.
  unfold strip_spaces. induction s as [| c s IH]; [reflexivity |].
  cbn [filter]. destruct (negb (space c)) eqn:E; [| exact IH].
  cbn [filter]. now rewrite E, IH.
Qed.

Lemma passesLuhn_pattern s :
  passesLuhn s = true -> test (between 13 19 dg) (strip_spaces s) = true.
Proof.
  unfold passesLuhn. cbv zeta.
  destruct (test (between 13 19 dg) (strip_spaces s)); [reflexivity | discriminate].
Qed.

Lemma card_checks_of_stripped s :
  passesLuhn (strip_spaces s) = passesLuhn s
  /\ detectCardType (strip_spaces s) = detectCardType s.
Proof.
  unfold passesLuhn, detectCardType. cbv zeta.
  now rewrite strip_spaces_idempotent.
Qed.

Lemma validCard_server s :
  FundingModal.validCard s = inl tt <-> cardFundingSchema ["fundingSource"] s = [].
Proof.
  assert (Hl : FundingModal.passesLuhn s = passesLuhn s) by reflexivity.
  assert (Hd : FundingModal.detectCardType s = detectCardType s) by reflexivity.
  unfold FundingModal.validCard. rewrite Hl, Hd, cardFundingSchema_cases.
  destruct (passesLuhn s); destruct (detectCardType s);
    simpl; split; intro H; first [reflexivity | discriminate].
Qed.

(** X23.  The card-number field of the funding form is stricter than the
    server only about white space: the form accepts a value exactly when the
    server's schema accepts it and it holds no white space; and the server
    accepts a value exactly when the form accepts it with the white space
    taken out.  So every card number that passes the form passes the
    server. *)
Theorem form_card_number_vs_server (value : jsstring) :
  (FundingForm.accountNumber FundingForm.card value = inl tt
   <-> cardFundingSchema ["fundingSource"] value = [] /\ strip_spaces value = value)
  /\ (cardFundingSchema ["fundingSource"] value = []
      <-> FundingForm.accountNumber FundingForm.card (strip_spaces value) = inl tt).
Proof.
  assert (Hform : forall v,
            FundingForm.accountNumber FundingForm.card v = inl tt
            <-> cardFundingSchema ["fundingSource"] v = [] /\ strip_spaces v = v).
  { intro v. unfold FundingForm.accountNumber. split.
    - destruct v as [| c v]; [discriminate |].
      destruct (test (between 13 19 dg) (c :: v)) eqn:Et; [| discriminate].
      cbn [negb]. intro H. apply validCard_server in H. split; [exact H |].
      apply (test_between_cls digit 13 19) in Et as [_ Hd]; [| lia].
      now apply strip_spaces_digits.
    - intros [Hs Hv].
      assert (Hl : passesLuhn v = true).
      { rewrite cardFundingSchema_cases in Hs.
        destruct (passesLuhn v); [reflexivity | discriminate]. }
      apply passesLuhn_pattern in Hl. rewrite Hv in Hl.
      destruct v as [| c v]; [discriminate |].
      rewrite Hl. cbn [negb]. now apply validCard_server. }
  split; [apply Hform |].
  rewrite Hform, strip_spaces_idempotent.
  rewrite !cardFundingSchema_cases.
  destruct (card_checks_of_stripped value) as [-> ->]. tauto.
Qed.

Lemma lang_star_cls p s : lang (Star (Cls p)) s <-> forallb p s = true.
Proof.
  split.
  - intro H. remember (Star (Cls p)) as r eqn:Er.
    induction H; try discriminate; [reflexivity |].
    injection Er as ->. apply lang_cls_inv in H as (c & -> & Hc).
    simpl. rewrite Hc. now apply IHlang2.
  - induction s as [| c s IH]; intro H; [constructor |].
    simpl in H. apply andb_true_iff in H as [Hc Hs].
    change (c :: s) with ([c] ++ s). constructor; [now constructor | auto].
Qed.

(** X24.  For a bank transfer the funding form and the server agree on the
    routing number - both want exactly nine digits - but not on the account
    number: the form wants a non-empty string of digits, the server's schema
    takes any string. *)
Theorem form_bank_fields_vs_server (accountNumber routingNumber : jsstring) :
  (FundingForm.routingNumber routingNumber = inl tt
   <-> fundingSourceSchema ["fundingSource"] (bank accountNumber routingNumber) = [])
  /\ (FundingForm.accountNumber FundingForm.bank accountNumber = inl tt
      <-> accountNumber <> [] /\ forallb digit accountNumber = true)
  /\ (FundingForm.routingNumber routingNumber = inl tt
      <-> length routingNumber = 9%nat /\ forallb digit routingNumber = true).
Proof.
  assert (Hr : FundingForm.routingNumber routingNumber = inl tt
               <-> test (times 9 dg) routingNumber = true).
  { unfold FundingForm.routingNumber. destruct routingNumber as [| c r].
    - split; discriminate.
    - destruct (test (times 9 dg) (c :: r)); cbn [negb]; split; congruence. }
  split; [| split].
  - rewrite Hr. unfold fundingSourceSchema, bankFundingSchema.
    now rewrite check_nil.
  - unfold FundingForm.accountNumber. destruct accountNumber as [| c s].
    + split; [discriminate | intros [H _]; contradiction].
    + unfold Plus, dg.
      destruct (test (Cat (Cls digit) (Star (Cls digit))) (c :: s)) eqn:Et; cbn [negb].
      * apply test_lang in Et. apply lang_cat_inv in Et as (u & v & E & Hu & Hv).
        apply lang_cls_inv in Hu as (d & -> & Hd). injection E as -> ->.
        apply lang_star_cls in Hv. split; [| reflexivity]. intros _.
        split; [discriminate |]. simpl. now rewrite Hd, Hv.
      * split; [discriminate |]. intros [_ H]. simpl in H.
        apply andb_true_iff in H as [Hc Hs].
        assert (Hl : lang (Cat (Cls digit) (Star (Cls digit))) (c :: s)).
        { change (c :: s) with ([c] ++ s).
          constructor; [now constructor | now apply lang_star_cls]. }
        apply test_lang in Hl. congruence.
  - rewrite Hr. apply test_times_cls.
Qed.

(** C10.  The card checks of the funding form and of the server agree as
    functions - the two [passesLuhn] are equal, the two [detectCardType] are
    equal, and the form's [validCard] rule passes a card number exactly when
    the server's schema raises no issue about it - but the form's card
    number field does not accept what the server accepts: it first wants the
    raw value to be 13 to 19 digits, so it accepts exactly the numbers the
    server accepts that are made of digits only. *)
Theorem card_functions_agree_form_field_is_stricter (cardNumber : jsstring) :
  FundingModal.passesLuhn cardNumber = passesLuhn cardNumber
  /\ FundingModal.detectCardType cardNumber = detectCardType cardNumber
  /\ (FundingModal.validCard cardNumber = inl tt
      <-> cardFundingSchema ["fundingSource"] cardNumber = [])
  /\ (FundingForm.accountNumber FundingForm.card cardNumber = inl tt
      <-> cardFundingSchema ["fundingSource"] cardNumber = []
          /\ forallb digit cardNumber = true).
Proof.
  split; [reflexivity |]. split; [reflexivity |].
  split; [apply validCard_server |].
  unfold FundingForm.accountNumber. split.
  - destruct cardNumber as [| c v]; [discriminate |].
    destruct (test (between 13 19 dg) (c :: v)) eqn:Et; [| discriminate].
    cbn [negb]. intro H. apply validCard_server in H. split; [exact H |].
    now apply (test_between_cls digit 13 19) in Et as [_ Hd]; [| lia].
  - intros [Hs Hd].
    assert (Hl : passesLuhn cardNumber = true).
    { rewrite cardFundingSchema_cases in Hs.
      destruct (passesLuhn cardNumber); [reflexivity | discriminate]. }
    apply passesLuhn_pattern in Hl. rewrite (strip_spaces_digits _ Hd) in Hl.
    destruct cardNumber as [| c v]; [discriminate |].
    rewrite Hl. cbn [negb]. now apply validCard_server.
Qed.

(** A card number written in groups of four passes the server's schema and
    not the form's field. *)
Lemma form_refuses_card_number_with_spaces :
  cardFundingSchema ["fundingSource"] (js "4242 4242 4242 4242") = []
  /\ FundingForm.accountNumber FundingForm.card (js "4242 4242 4242 4242")
     = inr "Card number must be between 13 and 19 digits"
  /\ FundingForm.accountNumber FundingForm.card (js "4242424242424242") = inl tt.
Proof. repeat split; vm_compute; reflexivity. Qed.

(** ** The input schema of [signup] and the row it stores *)

Lemma app_nil_iff {A} (l l' : list A) : l ++ l' = [] <-> l = [] /\ l' = [].
Proof.
  split; [apply app_eq_nil |]. now intros [-> ->].
Qed.

Lemma min_one_nonempty (s : jsstring) : (1 <=? length s)%nat = true <-> s <> [].
Proof.
  destruct s as [| c s]; simpl; split; congruence.
Qed.

(** [/^\+?\d{10,15}$/]: ten to fifteen digits after an optional plus sign. *)
Lemma test_phone s :
  test (seq [Opt (ch "+"); between 10 15 dg]) s = true
  <-> exists d, (s = d \/ s = cu "+" :: d)
                /\ (10 <= length d <= 15)%nat /\ forallb digit d = true.
Proof.
  cbn [seq]. rewrite test_lang. split.
  - intro H. apply lang_cat_inv in H as (u & v & -> & Hu & Hv).
    apply test_lang in Hv. apply (test_between_cls digit 10 15) in Hv; [| lia].
    exists v. split; [| exact Hv].
    apply lang_alt_inv in Hu as [Hu | Hu].
    + apply lang_cls_inv in Hu as (c & -> & Hc). right.
      unfold chr in Hc. apply N.eqb_eq in Hc. now subst c.
    + apply lang_eps_inv in Hu. subst u. now left.
  - intros (d & Hs & Hd).
    apply (test_between_cls digit 10 15) in Hd; [| lia]. apply test_lang in Hd.
    destruct Hs as [-> | ->].
    + change d with ([] ++ d). constructor; [| exact Hd].
      apply lang_alt_r. constructor.
    + change (cu "+" :: d) with ([cu "+"] ++ d). constructor; [| exact Hd].
      apply lang_alt_l. constructor. apply N.eqb_refl.
Qed.

Lemma toUpperCase_ascii unicode_toUpperCase s :
  ascii_only s = true -> toUpperCase unicode_toUpperCase s = map upper_cu s.
Proof. unfold toUpperCase. now intros ->. Qed.

(** X25.  The input schema of [signup] lets an input through exactly when
    the email is well formed, the password passes [passwordSchema], the
    first name, last name, address and city are not empty, the phone number
    is ten to fifteen decimal digits after an optional plus sign, the birth
    date passes its refinement, the social security number is nine decimal
    digits, the state has two code units and the zip code is five decimal
    digits.  For an input let through whose state holds ASCII code units
    only, the parsed input is the raw one with the letters of the email
    lowercased and those of the state uppercased, the state keeping its two
    code units. *)
Theorem signup_input_accepts_iff
  (Date_parse : jsstring -> option Date)
  (unicode_toUpperCase : jsstring -> jsstring) (today : Date) (raw : SignupInput.t) :
  (fst (signup_input Date_parse unicode_toUpperCase today raw) = []
   <-> is_email (SignupInput.email raw) = true
       /\ passwordSchema ["password"] (SignupInput.password raw) = []
       /\ SignupInput.firstName raw <> []
       /\ SignupInput.lastName raw <> []
       /\ (exists d,
             (SignupInput.phoneNumber raw = d
              \/ SignupInput.phoneNumber raw = cu "+" :: d)
             /\ (10 <= length d <= 15)%nat /\ forallb digit d = true)
       /\ dateOfBirth_ok Date_parse today (SignupInput.dateOfBirth raw) = true
       /\ (length (SignupInput.ssn raw) = 9%nat
           /\ forallb digit (SignupInput.ssn raw) = true)
       /\ SignupInput.address raw <> []
       /\ SignupInput.city raw <> []
       /\ length (SignupInput.state raw) = 2%nat
       /\ (length (SignupInput.zipCode raw) = 5%nat
           /\ forallb digit (SignupInput.zipCode raw) = true))
  /\ (fst (signup_input Date_parse unicode_toUpperCase today raw) = [] ->
      ascii_only (SignupInput.state raw) = true ->
      snd (signup_input Date_parse unicode_toUpperCase today raw)
      = SignupInput.mk
          (toLowerCase (SignupInput.email raw)) (SignupInput.password raw)
          (SignupInput.firstName raw) (SignupInput.lastName raw)
          (SignupInput.phoneNumber raw) (SignupInput.dateOfBirth raw)
          (SignupInput.ssn raw) (SignupInput.address raw) (SignupInput.city raw)
          (map upper_cu (SignupInput.state raw)) (SignupInput.zipCode raw)
      /\ length (SignupInput.state (snd (signup_input Date_parse unicode_toUpperCase
                                          today raw))) = 2%nat).
Proof.
  assert (Hiff :
    fst (signup_input Date_parse unicode_toUpperCase today raw) = []
    <-> is_email (SignupInput.email raw) = true
        /\ passwordSchema ["password"] (SignupInput.password raw) = []
        /\ SignupInput.firstName raw <> []
        /\ SignupInput.lastName raw <> []
        /\ (exists d,
              (SignupInput.phoneNumber raw = d
               \/ SignupInput.phoneNumber raw = cu "+" :: d)
              /\ (10 <= length d <= 15)%nat /\ forallb digit d = true)
        /\ dateOfBirth_ok Date_parse today (SignupInput.dateOfBirth raw) = true
        /\ (length (SignupInput.ssn raw) = 9%nat
            /\ forallb digit (SignupInput.ssn raw) = true)
        /\ SignupInput.address raw <> []
        /\ SignupInput.city raw <> []
        /\ length (SignupInput.state raw) = 2%nat
        /\ (length (SignupInput.zipCode raw) = 5%nat
            /\ forallb digit (SignupInput.zipCode raw) = true)).
  { unfold signup_input. cbn [fst].
    rewrite !app_nil_iff, !check_nil, !min_one_nonempty, test_phone.
    unfold dg. rewrite !test_times_cls, Nat.eqb_eq.
    reflexivity. }
  split; [exact Hiff |].
  intros Hi Ha. apply Hiff in Hi.
  destruct Hi as (_ & _ & _ & _ & _ & _ & _ & _ & _ & Hl & _).
  unfold signup_input. cbn [snd SignupInput.state].
  rewrite (toUpperCase_ascii _ _ Ha). split; [reflexivity |].
  now rewrite length_map.
Qed.

(** X26.  A [signup] that succeeds appends exactly one row to the users
    table, under an id no stored user has.  The row keeps the password and
    the social security number as the hashes [bcrypt.hash] gives with 10 and
    12 rounds, and the email in lower case.  The user handed back is that
    row without its password - so with the hash of the social security
    number - and the accounts and transactions tables are left alone. *)
Theorem signup_stores_hashed_secrets
  (bcrypt_hash : jsstring -> Z -> jsstring -> jsstring)
  (jwt_encode : JwtPayload -> jsstring)
  (Date_parse : jsstring -> option Date)
  (unicode_toUpperCase : jsstring -> jsstring)
  (env : Env) (raw : SignupInput.t) (db db' : Db) (r : AuthResult.t) :
  signup bcrypt_hash jwt_encode Date_parse unicode_toUpperCase env raw db = (inr r, db') ->
  exists u,
    users db' = users db ++ [u]
    /\ (forall v, In v (users db) -> User.id v <> User.id u)
    /\ User.password u = bcrypt_hash (SignupInput.password raw) 10 (password_salt env)
    /\ User.ssn u = bcrypt_hash (SignupInput.ssn raw) 12 (ssn_salt env)
    /\ User.email u = toLowerCase (SignupInput.email raw)
    /\ AuthResult.user r = profile u
    /\ Profile.ssn (AuthResult.user r)
       = bcrypt_hash (SignupInput.ssn raw) 12 (ssn_salt env)
    /\ accounts db' = accounts db
    /\ transactions db' = transactions db.
Proof.
  destruct (signup_cases bcrypt_hash jwt_encode Date_parse unicode_toUpperCase env raw db)
    as [[_ ->] | [(_ & _ & ->) | (_ & _ & H)]]; try discriminate.
  cbv zeta in H. rewrite H. intro E. injection E as <- <-.
  eexists. split; [reflexivity |]. split.
  - intros v Hv. apply (next_id_fresh User.id) in Hv.
    unfold new_user. cbn [User.id]. lia.
  - repeat split.
Qed.

Lemma signup_stores_hashed_secrets_witness :
  exists u,
    users (snd (signup demo_hash demo_jwt demo_Date_parse
        demo_toUpperCase demo_env signup_con demo_db))
    = users demo_db ++ [u]
    /\ (forall v, In v (users demo_db) -> User.id v <> User.id u)
    /\ User.password u
       = demo_hash (SignupInput.password signup_con) 10 (password_salt demo_env)
    /\ User.ssn u = demo_hash (SignupInput.ssn signup_con) 12 (ssn_salt demo_env)
    /\ User.email u = toLowerCase (SignupInput.email signup_con)
    /\ AuthResult.user
         (match fst (signup demo_hash demo_jwt demo_Date_parse
             demo_toUpperCase demo_env signup_con demo_db)
          with
          | inr r => r
          | inl _ => AuthResult.mk (profile demo_user) []
          end) = profile u
    /\ Profile.ssn
         (AuthResult.user
            (match fst (signup demo_hash demo_jwt demo_Date_parse
                demo_toUpperCase demo_env signup_con
                          demo_db)
             with
             | inr r => r
             | inl _ => AuthResult.mk (profile demo_user) []
             end))
       = demo_hash (SignupInput.ssn signup_con) 12 (ssn_salt demo_env)
    /\ accounts (snd (signup demo_hash demo_jwt demo_Date_parse
        demo_toUpperCase demo_env signup_con demo_db))
       = accounts demo_db
    /\ transactions
         (snd (signup demo_hash demo_jwt demo_Date_parse
             demo_toUpperCase demo_env signup_con demo_db))
       = transactions demo_db.
Proof.
  apply (signup_stores_hashed_secrets demo_hash demo_jwt demo_Date_parse
      demo_toUpperCase demo_env
           signup_con demo_db).
  vm_compute. reflexivity.
Defined.
